(** * SmartVisionSystem (PC.py): object lifecycle and enrichment dispatch

    A shallow embedding of the tracking / enrichment core of [PC.py]:
    the registry [object_database], the quota window [api_history], the
    backend rotation ([valid_models], [current_model_index]), the frame
    pass [process_frame], one iteration of the background loop
    [gemini_worker] and the resync handler [on_resync_request]; and of
    what surrounds it: the start-up ([__init__], [filter_valid_models],
    [connect_to_server]), the reconnection loop [retry_connection], the
    overlay text and the capture loop [run].  [Spinner] and
    [draw_chinese_text] only write to the terminal and to the image and
    are left out.  The threads interleave as steps of two transition
    systems: [step], whose steps are whole passes and their pieces with
    the dispatch gate as one step, and [fine_step], which keeps where
    each thread stands and in which the unlocked test of the gate and
    its locked write are two steps.

    Conventions.
    - Python [int] is [Z].  A [time.time()] reading is a binary64 double;
      it is modelled by its value, a rational [Q].  The one arithmetic
      operation the program makes on readings, the subtraction of line
      267, rounds its result to binary64 ([double_sub]).
    - Python [str] is [string], holding the UTF-8 bytes of the text.  UTF-8
      is self-synchronising, so the byte-level substring test below agrees
      with Python's code-point level [in] on every text.
    - A Python [dict] is an insertion-ordered association list with
      pairwise distinct keys ([NoDup] of its keys).
    - Effects on the outside world (socket emits, sleeps, backend calls,
      queue puts, deletions) are logged as a list of [event]s.  The
      outside world's answers (clock readings, backend responses, whether
      an emit raised) are inputs of the functions.
    - Images are not modelled: a crop is the rows and columns of the
      frame it was cut from.  [cv2.cvtColor] raises on a crop with no row
      or no column; on any other crop the [cv2] / [PIL] conversions are
      taken to succeed. *)

From Stdlib Require Import ZArith QArith Qround Qpower Qabs Floats.
From Stdlib Require Import List String Ascii Bool Lia Arith Permutation Lqa.
Import ListNotations.

Local Open Scope string_scope.
Local Open Scope list_scope.
Local Open Scope Z_scope.

(* ================================================================= *)
(** ** Python strings *)

(** [needle in haystack] *)
Fixpoint contains (needle haystack : string) : bool :=
  match haystack with
  | EmptyString => prefix needle EmptyString
  | String _ rest => prefix needle haystack || contains needle rest
  end.

(** Truthiness of a [str]: non-empty. *)
Definition truthy (s : string) : bool := negb (s =? "")%string.

(* ================================================================= *)
(** ** Python dicts keyed by integers, in insertion order *)

Section Dict.
Variable V : Type.

(** [d[k]] / [d.get(k)] *)
Fixpoint dict_get (k : Z) (d : list (Z * V)) : option V :=
  match d with
  | [] => None
  | (k', v) :: rest => if k =? k' then Some v else dict_get k rest
  end.

(** [k in d] *)
Definition dict_has (k : Z) (d : list (Z * V)) : bool :=
  match dict_get k d with Some _ => true | None => false end.

(** [list(d.keys())] *)
Definition dict_keys (d : list (Z * V)) : list Z := map fst d.

(** [d[k] = v] for a key that is not in [d]: appended last. *)
Definition dict_add (k : Z) (v : V) (d : list (Z * V)) : list (Z * V) :=
  d ++ [(k, v)].

(** In-place mutation of the value stored under [k] ([d[k][field] = x]);
    the program only does this for keys it has just seen in [d]. *)
Definition dict_modify (k : Z) (f : V -> V) (d : list (Z * V)) : list (Z * V) :=
  map (fun kv => if k =? fst kv then (fst kv, f (snd kv)) else kv) d.

(** [del d[k]] *)
Definition dict_del (k : Z) (d : list (Z * V)) : list (Z * V) :=
  filter (fun kv => negb (k =? fst kv)) d.
End Dict.

Arguments dict_get {V} k d.
Arguments dict_has {V} k d.
Arguments dict_keys {V} d.
Arguments dict_add {V} k v d.
Arguments dict_modify {V} k f d.
Arguments dict_del {V} k d.

(* ================================================================= *)
(** ** Configuration (lines 22-24) *)

Definition STABILITY_FRAMES : Z := 20.
Definition MAX_RPM : Z := 5.
Definition MAX_MISSING_FRAMES : Z := 30.

(* ================================================================= *)
(** ** Data model *)

(** The three values the ["status"] field takes. *)
Inductive lifecycle : Type := pending | sending | done.

Definition lifecycle_eqb (a b : lifecycle) : bool :=
  match a, b with
  | pending, pending | sending, sending | done, done => true
  | _, _ => false
  end.

(** Position on the path pending -> sending -> done. *)
Definition rank (st : lifecycle) : nat :=
  match st with pending => 0 | sending => 1 | done => 2 end.

(** One entry of [object_database] (lines 302-308). *)
Record object_data : Type := mk_object {
  yolo_name : string;
  gemini_name : string;
  status : lifecycle;
  frame_count : Z;
  missing_count : Z
}.

Definition set_gemini_name (v : string) (o : object_data) : object_data :=
  mk_object (yolo_name o) v (status o) (frame_count o) (missing_count o).
Definition set_status (v : lifecycle) (o : object_data) : object_data :=
  mk_object (yolo_name o) (gemini_name o) v (frame_count o) (missing_count o).
Definition set_frame_count (v : Z) (o : object_data) : object_data :=
  mk_object (yolo_name o) (gemini_name o) (status o) v (missing_count o).
Definition set_missing_count (v : Z) (o : object_data) : object_data :=
  mk_object (yolo_name o) (gemini_name o) (status o) (frame_count o) v.

(** What [frame[max(0,y1):min(h,y2), max(0,x1):min(w,x2)]] cuts: the rows
    from [row_from] up to, not including, [row_to], and the columns
    likewise; none when a bound does not exceed its lower one. *)
Record crop : Type := mk_crop {
  row_from : Z; row_to : Z; col_from : Z; col_to : Z
}.

(** An image with no row or no column. *)
Definition crop_empty (c : crop) : bool :=
  (row_to c <=? row_from c) || (col_to c <=? col_from c).

(** A queued task [(track_id, crop_img, yolo_raw_name)] (line 326). *)
Record task : Type := mk_task {
  task_id : Z;
  cropped_img : crop;
  current_yolo_name : string
}.

(** The payload of a ['detect_item'] message. *)
Record payload : Type := mk_payload {
  name : string;
  quantity : Z;
  isAutoMode : option bool;
  action : option string
}.

(** Lines 152-156 and 247-251. *)
Definition detect_payload (product_name : string) : payload :=
  mk_payload product_name 1 (Some false) None.

(** Lines 360-364. *)
Definition remove_payload (product_name : string) : payload :=
  mk_payload product_name 1 None (Some "REMOVE").

(** What the program does to the outside world, in program order. *)
Inductive event : Type :=
| Emit (p : payload)                       (* sio.emit('detect_item', p) *)
| Sleep (seconds : Z)                      (* time.sleep(seconds) *)
| QuotaChecked (now : Q) (available : bool)(* self.check_api_quota() and its result *)
| Generate (model : string) (t : task)     (* gemini_model.generate_content(...) *)
| Switched (model : string)                (* switch_next_model *)
| Enqueued (t : task)                      (* task_queue.put(t) *)
| Evicted (db_id : Z)                      (* del object_database[db_id] *)
| Reconnect.                               (* Thread(target=retry_connection) *)

(** The fields of [SmartVisionSystem] the core reads and writes. *)
Record system : Type := mk_system {
  object_database : list (Z * object_data);
  task_queue : list task;
  api_history : list Q;
  is_connected : bool;
  valid_models : list string;
  current_model_index : nat;
  model_name : string
}.

Definition with_object_database (v : list (Z * object_data)) (s : system) : system :=
  mk_system v (task_queue s) (api_history s) (is_connected s)
            (valid_models s) (current_model_index s) (model_name s).
Definition with_task_queue (v : list task) (s : system) : system :=
  mk_system (object_database s) v (api_history s) (is_connected s)
            (valid_models s) (current_model_index s) (model_name s).
Definition with_api_history (v : list Q) (s : system) : system :=
  mk_system (object_database s) (task_queue s) v (is_connected s)
            (valid_models s) (current_model_index s) (model_name s).
Definition with_is_connected (v : bool) (s : system) : system :=
  mk_system (object_database s) (task_queue s) (api_history s) v
            (valid_models s) (current_model_index s) (model_name s).
Definition with_model (i : nat) (m : string) (s : system) : system :=
  mk_system (object_database s) (task_queue s) (api_history s) (is_connected s)
            (valid_models s) i m.

(** A [for] loop whose body updates the system and logs events. *)
Fixpoint for_each {A : Type} (body : A -> system -> system * list event)
         (xs : list A) (s : system) : system * list event :=
  match xs with
  | [] => (s, [])
  | x :: rest =>
      let '(s1, tr1) := body x s in
      let '(s2, tr2) := for_each body rest s1 in
      (s2, tr1 ++ tr2)
  end.

(* ================================================================= *)
(** ** check_api_quota (lines 264-269) *)

(** *** Double-precision subtraction

    Python's [float] is IEEE 754 binary64, and [current_time - t] is the
    exact difference rounded to the nearest double, ties to the double
    with an even significand.  A double is [n * 2^e] with [|n| < 2^53]
    and [e >= -1074]; overflow to infinity is out of reach of clock
    readings and is not modelled. *)

(** [floor (log2 |q|)], for [q] other than 0. *)
Definition binade (q : Q) : Z :=
  let k := (Z.log2 (Z.abs (Qnum q)) - Z.log2 (Zpos (Qden q)))%Z in
  if Qle_bool (2 ^ k) (Qabs q) then k else (k - 1)%Z.

(** The nearest integer, ties to the even one. *)
Definition round_half_even (m : Q) : Z :=
  let f := Qfloor m in
  match (m - inject_Z f ?= 1 # 2)%Q with
  | Lt => f
  | Gt => (f + 1)%Z
  | Eq => if Z.even f then f else (f + 1)%Z
  end.

(** The exponent of the unit in the last place: 53 significant bits, and
    [2^-1074] in the subnormal range. *)
Definition ulp_exponent (q : Q) : Z := Z.max (-1074) (binade q - 52).

(** The double nearest to [q]. *)
Definition round64 (q : Q) : Q :=
  if Qeq_bool q 0 then 0%Q
  else (inject_Z (round_half_even (q / 2 ^ ulp_exponent q)) * 2 ^ ulp_exponent q)%Q.

(** [a - b] on doubles. *)
Definition double_sub (a b : Q) : Q := round64 (a - b).

(** The value of a finite primitive float, to compare [double_sub] with
    the subtraction of Rocq's own binary64 floats. *)
Definition binary64_value (f : float) : Q :=
  match Prim2SF f with
  | S754_finite sign m e =>
      ((if sign then -1 else 1) * inject_Z (Zpos m) * 2 ^ e)%Q
  | _ => 0%Q
  end.

(** [current_time - t < 60] *)
Definition in_window (current_time t : Q) : bool :=
  negb (Qle_bool 60 (double_sub current_time t)).

Definition check_api_quota (current_time : Q) (s : system) : system * bool :=
  let kept := filter (in_window current_time) (api_history s) in
  (with_api_history kept s, Z.of_nat (List.length kept) <? MAX_RPM).

(* ================================================================= *)
(** ** Backend rotation: switch_next_model (lines 180-184) *)

(** [(current_model_index + 1) % len(valid_models)].  Python raises on an
    empty list; [__init__] does not start the worker then (lines 104-107),
    and the retry loop only switches while [attempts < len(valid_models)]. *)
Definition switch_next_model (s : system) : system :=
  let i := ((current_model_index s + 1) mod List.length (valid_models s))%nat in
  with_model i (nth i (valid_models s) "") s.

(* ================================================================= *)
(** ** gemini_worker (lines 186-262) *)

(** What one [generate_content] call followed by [response.text.strip()]
    yields: the stripped text, or the message of the exception raised. *)
Inductive api_result : Type :=
| Response (text : string)
| ApiError (err_msg : string).

(** The outside world during one pass through the retry loop body: the
    clock read by [check_api_quota], the backend's answer, and the clock
    read on success (line 222). *)
Record attempt_env : Type := mk_attempt_env {
  check_time : Q;
  api_answer : api_result;
  success_time : Q
}.

(** The loop variables of lines 208-236; [stopped] records a [break]. *)
Record retry_state : Type := mk_retry {
  attempts : nat;
  product_name : string;
  stopped : bool
}.

(** Body of the [while attempts < max_retries] loop (lines 213-236). *)
Definition attempt (e : attempt_env) (t : task) (r : retry_state) (s : system)
  : retry_state * system * list event :=
  let '(s1, available) := check_api_quota (check_time e) s in
  let before_call :=
    QuotaChecked (check_time e) available
      :: (if available then [] else [Sleep 5])
      ++ [Generate (model_name s1) t] in
  match api_answer e with
  | Response text =>
      (mk_retry (attempts r) text true,
       with_api_history (api_history s1 ++ [success_time e]) s1,
       before_call)
  | ApiError err_msg =>
      if contains "429" err_msg then
        let s2 := switch_next_model s1 in
        (mk_retry (S (attempts r)) (product_name r) false,
         s2,
         before_call ++ [Sleep 5; Switched (model_name s2)])
      else
        (mk_retry (S (attempts r)) "API錯誤" true, s1, before_call)
  end.

(** The [while] loop itself.  Every pass either breaks or increments
    [attempts], so [max_retries] units of [fuel] are never used up
    ([retry_loop_fuel]).  The pass made with [attempts = k] meets the
    outside world [env k]. *)
Fixpoint retry_loop (fuel : nat) (env : nat -> attempt_env) (t : task)
         (max_retries : nat) (r : retry_state) (s : system)
  : retry_state * system * list event :=
  match fuel with
  | O => (r, s, [])
  | S fuel' =>
      if (attempts r <? max_retries)%nat then
        let '(r1, s1, tr1) := attempt (env (attempts r)) t r s in
        if stopped r1 then (r1, s1, tr1)
        else
          let '(r2, s2, tr2) := retry_loop fuel' env t max_retries r1 s1 in
          (r2, s2, tr1 ++ tr2)
      else (r, s, [])
  end.

(** Lines 208-236. *)
Definition recognise (env : nat -> attempt_env) (t : task) (s : system)
  : retry_state * system * list event :=
  let max_retries := List.length (valid_models s) in
  retry_loop max_retries env t max_retries (mk_retry 0 "辨識失敗" false) s.

(** Lines 240-241. *)
Definition finished (result : string) (o : object_data) : object_data :=
  set_status done (set_gemini_name result o).

(** Lines 238-241. *)
Definition write_back (track_id : Z) (result : string) (s : system) : system :=
  if dict_has track_id (object_database s) then
    with_object_database
      (dict_modify track_id (finished result) (object_database s)) s
  else s.

(** The label test of line 245. *)
Definition publishable (result : string) : bool :=
  truthy result && negb (contains "失敗" result) && negb (contains "錯誤" result).

(** Lines 245-257; [emit_ok] is false when [sio.emit] raises. *)
Definition publish_result (emit_ok : bool) (result : string) (s : system)
  : system * list event :=
  if is_connected s && publishable result then
    if emit_ok then (s, [Emit (detect_payload result)])
    else (with_is_connected false s, [Emit (detect_payload result); Reconnect])
  else (s, []).

(** One pass through the body of [while self.is_running] (lines 188-262),
    run without interruption.  [cv2.cvtColor] (line 198) raises on an
    image with no row or no column; the [except] of line 261 then ends
    the pass, with no call, no write-back and no message. *)
Definition gemini_worker (env : nat -> attempt_env) (emit_ok : bool) (s : system)
  : system * list event :=
  match task_queue s with
  | [] => (s, [])
  | t :: rest =>
      let s0 := with_task_queue rest s in
      if negb (dict_has (task_id t) (object_database s0)) then (s0, [])
      else if crop_empty (cropped_img t) then (s0, [])
      else
        let '(r, s1, tr1) := recognise env t s0 in
        let s2 := write_back (task_id t) (product_name r) s1 in
        let '(s3, tr2) := publish_result emit_ok (product_name r) s2 in
        (s3, tr1 ++ tr2)
  end.

(* ================================================================= *)
(** ** process_frame (lines 285-373) *)

(** One row of [zip(boxes, track_ids, cls_ids)] after [map(int, box)] and
    [names[cls_id]]. *)
Record detection : Type := mk_detection {
  x1 : Z; y1 : Z; x2 : Z; y2 : Z;
  track_id : Z;
  yolo_raw_name : string
}.

(** The two clock readings the dispatch gate may take for one detection:
    inside [check_api_quota] (line 316) and at the reservation (line 319). *)
Record gate_clock : Type := mk_gate_clock {
  quota_time : Q;
  reserve_time : Q
}.

(** Lines 302-308. *)
Definition new_object (yolo_raw : string) : object_data :=
  mk_object yolo_raw "" pending 0 0.

(** Lines 309-310. *)
Definition seen (o : object_data) : object_data :=
  set_frame_count (frame_count o + 1) (set_missing_count 0 o).

(** Lines 300-311. *)
Definition track (d : detection) (db : list (Z * object_data)) : list (Z * object_data) :=
  let db1 := if dict_has (track_id d) db then db
             else dict_add (track_id d) (new_object (yolo_raw_name d)) db in
  dict_modify (track_id d) seen db1.

(** Lines 321-322. *)
Definition dispatched (o : object_data) : object_data :=
  set_gemini_name "Thinking..." (set_status sending o).

(** Line 318. *)
Definition large_enough (d : detection) : bool :=
  (80 <? x2 d - x1 d) && (80 <? y2 d - y1 d).

(** A bound [i] of a slice of an axis of [length] places, as Python and
    numpy read it: a negative bound counts from the end, and the result
    is clipped to the axis. *)
Definition slice_bound (length i : Z) : Z :=
  if i <? 0 then Z.max 0 (i + length) else Z.min length i.

(** Line 325, for a frame of shape [(h, w, _)]. *)
Definition crop_of (h w : Z) (d : detection) : crop :=
  mk_crop (slice_bound h (Z.max 0 (y1 d))) (slice_bound h (Z.min h (y2 d)))
          (slice_bound w (Z.max 0 (x1 d))) (slice_bound w (Z.min w (x2 d))).

(** Lines 315-329, entered with [obj_data] the entry [track] left. *)
Definition dispatch (h w : Z) (clk : gate_clock) (d : detection) (s : system)
  : system * list event :=
  match dict_get (track_id d) (object_database s) with
  | None => (s, [])
  | Some obj_data =>
      if lifecycle_eqb (status obj_data) pending
         && (STABILITY_FRAMES <? frame_count obj_data) then
        let '(s1, available) := check_api_quota (quota_time clk) s in
        if available then
          if large_enough d then
            let s2 := with_api_history (api_history s1 ++ [reserve_time clk]) s1 in
            let s3 := with_object_database
                        (dict_modify (track_id d) dispatched (object_database s2))
                        s2 in
            let t := mk_task (track_id d) (crop_of h w d) (yolo_raw_name d) in
            (with_task_queue (task_queue s3 ++ [t]) s3, [Enqueued t])
          else (s1, [])
        else (s1, [])
      else (s, [])
  end.

(** Body of the [for box, track_id, cls_id in zip(...)] loop. *)
Definition process_detection (h w : Z) (dc : detection * gate_clock) (s : system)
  : system * list event :=
  dispatch h w (snd dc) (fst dc)
           (with_object_database (track (fst dc) (object_database s)) s).

(** The label test of line 358. *)
Definition removal_notice (connected : bool) (stored : string) : list event :=
  if connected && truthy stored
     && negb (contains "Thinking" stored) && negb (contains "失敗" stored)
  then [Emit (remove_payload stored)] else [].

(** Line 355. *)
Definition missed (o : object_data) : object_data :=
  set_missing_count (missing_count o + 1) o.

(** Body of the [for db_id in existing_ids] loop (lines 354-371);
    [current_frame_ids] is the set built at line 296. *)
Definition sweep_one (current_frame_ids : list Z) (db_id : Z) (s : system)
  : system * list event :=
  if existsb (Z.eqb db_id) current_frame_ids then (s, [])
  else
    let db1 := dict_modify db_id missed (object_database s) in
    match dict_get db_id db1 with
    | None => (with_object_database db1 s, [])
    | Some o =>
        if MAX_MISSING_FRAMES <? missing_count o then
          (with_object_database (dict_del db_id db1) s,
           removal_notice (is_connected s) (gemini_name o) ++ [Evicted db_id])
        else (with_object_database db1 s, [])
    end.

(** The ids collected by [current_frame_ids.add(track_id)] (line 296). *)
Definition frame_ids (dets : list (detection * gate_clock)) : list Z :=
  map (fun dc => track_id (fst dc)) dets.

(** Lines 351-371. *)
Definition sweep_missing (current_frame_ids : list Z) (s : system)
  : system * list event :=
  for_each (sweep_one current_frame_ids) (dict_keys (object_database s)) s.

(** [process_frame] on a frame of shape [(h, w, _)] whose tracker output is
    [dets] (empty when [results[0].boxes.id is None]). *)
Definition process_frame (h w : Z) (dets : list (detection * gate_clock)) (s : system)
  : system * list event :=
  let '(s1, tr1) := for_each (process_detection h w) dets s in
  let '(s2, tr2) := sweep_missing (frame_ids dets) s1 in
  (s2, tr1 ++ tr2).

(* ================================================================= *)
(** ** on_resync_request (lines 146-160) *)

(** The test of line 150 and the emit of line 157. *)
Definition resync_notice (data : object_data) : list event :=
  if lifecycle_eqb (status data) done && truthy (gemini_name data)
     && negb (contains "失敗" (gemini_name data))
  then [Emit (detect_payload (gemini_name data))] else [].

Definition on_resync_request (s : system) : list event :=
  flat_map (fun kv => resync_notice (snd kv)) (object_database s).

(* ================================================================= *)
(** ** The two threads as a transition system *)

(** The frame thread runs [process_frame] once per captured frame; the
    worker thread runs the body of [gemini_worker] once per queued task;
    the socket thread runs [on_resync_request].  Besides these whole
    passes the system can take finer steps, so that one thread may run
    in the middle of another's pass: one pass through the body of the
    detection loop (lines 296-329), or its halves, the locked counter
    update (lines 300-311) and the dispatch gate (lines 315-329); the
    eviction sweep (lines 351-371); and the worker's dequeue, retry
    loop, locked write-back and publication, whose arguments are the
    worker's local variables at that point.  Each step is taken as a
    whole: a switch of threads inside the dispatch gate, between the
    status test of line 315 and the locked write of lines 320-322, is
    not a step of this system; it is one of the finer system
    [fine_step] below. *)
Inductive transition : Type :=
| FramePass (h w : Z) (dets : list (detection * gate_clock))
| WorkerPass (env : nat -> attempt_env) (emit_ok : bool)
| Resync
| DetectStep (h w : Z) (dc : detection * gate_clock)
| TrackStep (d : detection)
| GateStep (h w : Z) (dc : detection * gate_clock)
| SweepStep (current_frame_ids : list Z)
| WorkerTake
| WorkerRecognise (env : nat -> attempt_env) (t : task)
| WorkerWriteBack (id : Z) (result : string)
| WorkerPublish (emit_ok : bool) (result : string).

Definition step (a : transition) (s : system) : system * list event :=
  match a with
  | FramePass h w dets => process_frame h w dets s
  | WorkerPass env emit_ok => gemini_worker env emit_ok s
  | Resync => (s, on_resync_request s)
  | DetectStep h w dc => process_detection h w dc s
  | TrackStep d => (with_object_database (track d (object_database s)) s, [])
  | GateStep h w dc => dispatch h w (snd dc) (fst dc) s
  | SweepStep ids => sweep_missing ids s
  | WorkerTake => (with_task_queue (tl (task_queue s)) s, [])
  | WorkerRecognise env t =>
      let '(_, s1, tr) := recognise env t s in (s1, tr)
  | WorkerWriteBack id result => (write_back id result s, [])
  | WorkerPublish emit_ok result => publish_result emit_ok result s
  end.

(** Any interleaving of the threads' actions. *)
Definition run (acts : list transition) (s : system) : system * list event :=
  for_each step acts s.

(* ================================================================= *)
(** ** Observations on event logs *)

(** Number of tasks put on the queue for [id]. *)
Definition enqueues (id : Z) (tr : list event) : nat :=
  List.length
    (filter (fun e => match e with Enqueued t => task_id t =? id | _ => false end) tr).

(** Number of backend calls. *)
Definition generate_calls (tr : list event) : nat :=
  List.length
    (filter (fun e => match e with Generate _ _ => true | _ => false end) tr).

(** Number of backend switches. *)
Definition switches (tr : list event) : nat :=
  List.length
    (filter (fun e => match e with Switched _ => true | _ => false end) tr).

(** Number of capacity checks. *)
Definition quota_checks (tr : list event) : nat :=
  List.length
    (filter (fun e => match e with QuotaChecked _ _ => true | _ => false end) tr).

(** Number of ['detect_item'] messages emitted. *)
Definition emits (tr : list event) : nat :=
  List.length
    (filter (fun e => match e with Emit _ => true | _ => false end) tr).

(** Every backend call is made while the latest capacity check before it
    reported capacity ([last_check] is the result of the latest check). *)
Fixpoint calls_guarded (last_check : bool) (tr : list event) : bool :=
  match tr with
  | [] => true
  | QuotaChecked _ available :: rest => calls_guarded available rest
  | Generate _ _ :: rest => last_check && calls_guarded last_check rest
  | _ :: rest => calls_guarded last_check rest
  end.

(** The message, if any, emitted just before the last event scanned. *)
Fixpoint pending_emit (prev : option payload) (tr : list event) : option payload :=
  match tr with
  | [] => prev
  | Emit p :: rest => pending_emit (Some p) rest
  | _ :: rest => pending_emit None rest
  end.

(** How [id] left the registry according to the log: [None] when it was
    not evicted, [Some None] when it was evicted with no message emitted
    just before the deletion, [Some (Some p)] when [p] was emitted just
    before it (lines 365 and 371). *)
Fixpoint eviction_notice_from (prev : option payload) (id : Z) (tr : list event)
  : option (option payload) :=
  match tr with
  | [] => None
  | Evicted k :: rest =>
      if k =? id then Some prev else eviction_notice_from None id rest
  | Emit p :: rest => eviction_notice_from (Some p) id rest
  | _ :: rest => eviction_notice_from None id rest
  end.

Definition eviction_notice (id : Z) (tr : list event) : option (option payload) :=
  eviction_notice_from None id tr.

(** Whether the answer met with [attempts = k] is a capacity-exhausted
    signal (line 229). *)
Definition rate_limited (e : attempt_env) : bool :=
  match api_answer e with
  | ApiError err_msg => contains "429" err_msg
  | Response _ => false
  end.

(** Number of capacity-exhausted signals among the first [k] answers. *)
Definition signals (env : nat -> attempt_env) (k : nat) : nat :=
  List.length (filter rate_limited (map env (seq 0 k))).

(** How many more times [id] may still be dispatched: once while it is
    pending or not yet seen, never afterwards. *)
Definition dispatch_budget (id : Z) (s : system) : nat :=
  match dict_get id (object_database s) with
  | None => 1
  | Some o => if lifecycle_eqb (status o) pending then 1 else 0
  end.

(** Whether [id] is in the registry with status [st]. *)
Definition has_status (st : lifecycle) (id : Z) (s : system) : bool :=
  match dict_get id (object_database s) with
  | Some o => lifecycle_eqb (status o) st
  | None => false
  end.

(** Number of transitions of a run at which [id] enters sending. *)
Fixpoint sending_entries (id : Z) (acts : list transition) (s : system) : nat :=
  match acts with
  | [] => 0
  | a :: rest =>
      ((if negb (has_status sending id s)
           && has_status sending id (fst (step a s)) then 1 else 0)
       + sending_entries id rest (fst (step a s)))%nat
  end.

(** A label the worker would have announced (line 245) and that is not the
    placeholder written at dispatch (line 322). *)
Definition genuine_label (label : string) : bool :=
  publishable label && negb (contains "Thinking" label).

(* ================================================================= *)
(** ** Notions used in the statements and proofs *)

(** Events only the retry loop produces. *)
Definition loop_event (e : event) : Prop :=
  match e with
  | Sleep _ | QuotaChecked _ _ | Generate _ _ | Switched _ => True
  | _ => False
  end.

(** Events of the detection loop: queue puts only. *)
Definition put_event (e : event) : Prop :=
  match e with Enqueued _ => True | _ => False end.

(** The entry [obj_data] that line 311 binds: the old entry, or a new one,
    with the presence counters updated. *)
Definition entry_after_track (d : detection) (db : list (Z * object_data)) : object_data :=
  seen (match dict_get (track_id d) db with
        | Some o => o
        | None => new_object (yolo_raw_name d)
        end).

(** Whether lines 315-318 let the detection through. *)
Definition gate_open (clk : gate_clock) (d : detection) (s : system)
           (obj_data : object_data) : bool :=
  lifecycle_eqb (status obj_data) pending
  && (STABILITY_FRAMES <? frame_count obj_data)
  && snd (check_api_quota (quota_time clk) s)
  && large_enough d.

(** What the sweep leaves of the entry stored under [k]. *)
Definition sweep_entry (current_frame_ids : list Z) (k : Z)
           (entry : option object_data) : option object_data :=
  if existsb (Z.eqb k) current_frame_ids then entry
  else match entry with
       | Some o => if MAX_MISSING_FRAMES <? missing_count o + 1
                   then None else Some (missed o)
       | None => None
       end.

(** What the sweep logs for the entry stored under [k]. *)
Definition sweep_events (current_frame_ids : list Z) (connected : bool) (k : Z)
           (entry : option object_data) : list event :=
  if existsb (Z.eqb k) current_frame_ids then []
  else match entry with
       | Some o => if MAX_MISSING_FRAMES <? missing_count o + 1
                   then removal_notice connected (gemini_name o) ++ [Evicted k]
                   else []
       | None => []
       end.

(** What every transition guarantees for [id] unless it evicts [id]: the
    entry stays, its status does not move back, and a task is queued for
    it only by spending its dispatch budget. *)
Definition forward (id : Z) (s : system) (tr : list event) (s' : system) : Prop :=
  ~ In (Evicted id) tr ->
  (forall o, dict_get id (object_database s) = Some o ->
             exists o', dict_get id (object_database s') = Some o'
                        /\ (rank (status o) <= rank (status o'))%nat) /\
  (enqueues id tr + dispatch_budget id s' <= dispatch_budget id s)%nat.

(** The presence counters of an entry are never negative. *)
Definition counters_ok (o : object_data) : Prop :=
  0 <= frame_count o /\ 0 <= missing_count o.

(** The registry is a dict (no key twice) of entries with sound counters. *)
Definition registry_ok (s : system) : Prop :=
  NoDup (dict_keys (object_database s)) /\
  Forall (fun kv => counters_ok (snd kv)) (object_database s).

(** The system [__init__] builds: nothing tracked, nothing queued, no call
    recorded, the first valid backend selected (lines 88-111). *)
Definition initial (connected : bool) (models : list string) : system :=
  mk_system [] [] [] connected models 0 (nth 0 models "").

(* ================================================================= *)
(** ** Scenarios

    Concrete systems and outside worlds on which the theorems below are
    exercised. *)

Definition bottle_task : task := mk_task 7 (mk_crop 0 100 0 100) "bottle".

Definition three_models : list string :=
  ["gemini-2.0-flash-exp"; "gemini-exp-1206"; "gemini-2.5-flash"].

(** Object 7 has been dispatched, its task is queued, and five calls were
    recorded in the last five seconds. *)
Definition saturated : system :=
  mk_system [(7, mk_object "bottle" "Thinking..." sending 21 0)]
            [bottle_task] [0; 1; 2; 3; 4]%Q true
            three_models 0 "gemini-2.0-flash-exp".

Definition fresh_retry : retry_state := mk_retry 0 "辨識失敗" false.

(** At time 10 the backend answers at once. *)
Definition coffee_at_10 : attempt_env := mk_attempt_env 10 (Response "CoffeeCo") 16.
Definition world_coffee : nat -> attempt_env := fun _ => coffee_at_10.

(** Two capacity-exhausted answers, then an unrelated failure. *)
Definition world_two_429 : nat -> attempt_env :=
  fun k => mk_attempt_env 100
             (if (k <? 2)%nat then ApiError "429 Resource exhausted"
              else ApiError "503 Service unavailable")
             101.

(** Every backend is out of capacity. *)
Definition world_all_429 : nat -> attempt_env :=
  fun _ => mk_attempt_env 100 (ApiError "429 Resource exhausted") 101.



(** A 100 x 100 box for object 7. *)
Definition bottle_box : detection := mk_detection 100 100 200 200 7 "bottle".

Definition clock_at (t : Q) : gate_clock := mk_gate_clock t t.

(** Object 7 has been seen in 20 frames, object 5 was missing in the last
    two frames, and object 3, recognised as "CoffeeCo", in the last 30. *)
Definition three_objects : system :=
  mk_system [(7, mk_object "bottle" "" pending 20 0);
             (5, mk_object "cell phone" "" pending 3 2);
             (3, mk_object "cup" "CoffeeCo" done 40 30)]
            [] [] true three_models 0 "gemini-2.0-flash-exp".

(** The same registry while the socket is down. *)
Definition offline : system := with_is_connected false three_objects.

(** Objects 1 and 2 carry recognised labels; object 3 has been dispatched
    and its task is next in the queue. *)
Definition awaiting_third : system :=
  mk_system [(1, mk_object "cup" "CoffeeCo" done 40 0);
             (2, mk_object "cell phone" "iPhone 15" done 35 0);
             (3, mk_object "bottle" "Thinking..." sending 30 0)]
            [mk_task 3 (mk_crop 0 100 0 100) "bottle"] [] true
            three_models 0 "gemini-2.0-flash-exp".

(** The backend fails with an error that is not a capacity signal. *)
Definition world_503 : nat -> attempt_env :=
  fun _ => mk_attempt_env 100 (ApiError "503 Service unavailable") 101.

(** The end-to-end scenario: object 7, a 100 x 100 "bottle", is seen in 25
    consecutive frames, the worker then answers "CoffeeCo", and the
    object stays away for 31 frames. *)
Definition bottle_story : list transition :=
  repeat (FramePass 480 640 [(bottle_box, clock_at 5)]) 25
  ++ [WorkerPass world_coffee true]
  ++ repeat (FramePass 480 640 []) 31.

(** Object 7 is seen in three more frames while the worker answers its
    task after the second of them. *)
Definition bottle_lifetime : list transition :=
  [FramePass 480 640 [(bottle_box, clock_at 8)];
   FramePass 480 640 [(bottle_box, clock_at 9)];
   WorkerPass world_coffee true;
   FramePass 480 640 [(bottle_box, clock_at 17)]].

(** The registry of [three_objects] with five calls recorded in the last
    five seconds. *)
Definition throttled : system := with_api_history [0; 1; 2; 3; 4]%Q three_objects.

(** Object 7 has been dispatched and then missed in 30 frames; its task is
    next in the queue. *)
Definition leaving : system :=
  mk_system [(7, mk_object "bottle" "Thinking..." sending 21 30)]
            [bottle_task] [] true three_models 0 "gemini-2.0-flash-exp".

(** The worker takes the task of object 7 and recognises it; before it
    writes the result back, a frame without the object evicts it. *)
Definition evicted_meanwhile : list transition :=
  [WorkerTake;
   WorkerRecognise world_coffee bottle_task;
   FramePass 480 640 [];
   WorkerWriteBack 7 "CoffeeCo";
   WorkerPublish true "CoffeeCo"].

(** Object 3 ended on a backend error and has been missing for 30 frames. *)
Definition failed_and_leaving : system :=
  mk_system [(3, mk_object "bottle" "API錯誤" done 30 30)]
            [] [] true three_models 0 "gemini-2.0-flash-exp".

(* ================================================================= *)
(** ** Startup: filter_valid_models and __init__ (lines 26-36, 86-121, 162-178) *)

Definition CANDIDATE_MODELS : list string :=
  ["gemini-2.0-flash-exp";
   "gemini-exp-1206";
   "gemini-2.0-flash-lite-preview-02-05";
   "gemini-2.0-flash-lite-preview";
   "gemini-2.5-flash-lite-preview-09-2025";
   "gemini-2.5-flash";
   "gemini-flash-latest";
   "gemini-1.5-flash";
   "gemini-1.5-flash-8b"].

(** What the probe [temp_model.generate_content("Hi")] does for a model
    name: it returns, or raises an exception with the given message. *)
Inductive probe_outcome : Type :=
| ProbeOk
| ProbeError (err : string).

(** The [for name in CANDIDATE_MODELS] loop of lines 164-177, with
    [valid_list] the list built so far. *)
Fixpoint probe_all (probe : string -> probe_outcome) (names : list string)
         (valid_list : list string) : list string :=
  match names with
  | [] => valid_list
  | name :: rest =>
      match probe name with
      | ProbeOk => probe_all probe rest (valid_list ++ [name])
      | ProbeError err =>
          if contains "404" err then probe_all probe rest valid_list
          else probe_all probe rest (valid_list ++ [name])
      end
  end.

Definition filter_valid_models (probe : string -> probe_outcome) : list string :=
  probe_all probe CANDIDATE_MODELS [].

(** What the connection code does to the socket, in program order. *)
Inductive conn_event : Type :=
| Connect            (* sio.connect(NODE_SERVER_URL) *)
| Register           (* sio.emit('register_detector') *)
| SpawnRetry         (* Thread(target=retry_connection).start() *)
| ConnSleep (seconds : Z).  (* time.sleep(seconds) *)

(** connect_to_server (lines 123-133): [connect_ok] tells whether
    [sio.connect] returns, [register_ok] whether the emit after it does. *)
Definition connect_to_server (connect_ok register_ok : bool) (s : system)
  : system * list conn_event :=
  if connect_ok then
    if register_ok then (with_is_connected true s, [Connect; Register])
    else (with_is_connected true s, [Connect; Register; SpawnRetry])
  else (s, [Connect; SpawnRetry]).

(** The outside world at one pass of the loop of [retry_connection]: the
    value of [self.is_running] the loop test reads, and the outcomes of
    the connect and of the emit. *)
Record retry_env : Type := mk_retry_env {
  running : bool;
  connect_ok : bool;
  register_ok : bool
}.

(** retry_connection (lines 135-144) against a finite script of the
    outside world.  The last component tells whether the loop has
    ended; it is [false] when the script ran out first. *)
Fixpoint retry_connection (script : list retry_env) (s : system)
  : system * list conn_event * bool :=
  if is_connected s then (s, [], true)
  else
    match script with
    | [] => (s, [], false)
    | e :: rest =>
        if negb (running e) then (s, [], true)
        else if connect_ok e then
          let '(s', tr, ended) := retry_connection rest (with_is_connected true s) in
          (s', ConnSleep 5 :: Connect :: Register :: tr, ended)
        else
          let '(s', tr, ended) := retry_connection rest s in
          (s', ConnSleep 5 :: Connect :: tr, ended)
    end.

(** The whole object: the fields of [system] and [self.is_running]. *)
Record vision : Type := mk_vision {
  core : system;
  is_running : bool
}.

(** __init__ (lines 86-121).  With no valid model it clears [is_running]
    and returns before a model is selected and before the worker thread
    is started; otherwise it selects the first valid model and starts
    the worker. *)
Definition SmartVisionSystem_init (conn_ok reg_ok : bool) (probe : string -> probe_outcome)
  : vision * list conn_event :=
  let '(s1, tr) := connect_to_server conn_ok reg_ok (mk_system [] [] [] false [] 0 "") in
  match filter_valid_models probe with
  | [] => (mk_vision s1 false, tr)
  | first :: others =>
      (mk_vision (mk_system (object_database s1) (task_queue s1) (api_history s1)
                         (is_connected s1) (first :: others) 0 first)
              true,
       tr)
  end.

(* ================================================================= *)
(** ** The overlay text (lines 331-345) *)

(** [display_text] and [color] for an entry's two labels. *)
Definition display_text (gemini_res yolo_res : string) : string * (Z * Z * Z) :=
  if (gemini_res =? "")%string then
    (("YOLO: " ++ yolo_res)%string, (255, 100, 0))
  else if contains "Thinking" gemini_res then
    ((yolo_res ++ " (" ++ gemini_res ++ ")")%string, (0, 255, 255))
  else if contains "額度" gemini_res || contains "失敗" gemini_res then
    ((yolo_res ++ " (" ++ gemini_res ++ ")")%string, (0, 0, 255))
  else (gemini_res, (0, 255, 0)).

(* ================================================================= *)
(** ** The capture loop: run (lines 375-402) *)

(** What one pass of [while True] meets: a failed [cap.read()], a frame
    with its tracker output and the value of [cv2.waitKey(1)], or a
    [KeyboardInterrupt] raised while waiting for the frame. *)
Inductive capture : Type :=
| ReadFailed
| Captured (h w : Z) (dets : list (detection * gate_clock)) (key : Z)
| Interrupted.

(** [cv2.waitKey(1) & 0xFF == ord('q')] *)
Definition quit_key (key : Z) : bool := Z.land key 255 =? 113.

(** The [while True] loop of lines 388-397 against a finite script.  The
    last component tells whether the loop has ended. *)
Fixpoint capture_loop (script : list capture) (a : vision)
  : vision * list event * bool :=
  match script with
  | [] => (a, [], false)
  | ReadFailed :: _ => (a, [], true)
  | Interrupted :: _ => (mk_vision (core a) false, [], true)
  | Captured h w dets key :: rest =>
      let '(s1, tr1) := process_frame h w dets (core a) in
      if quit_key key then (mk_vision s1 false, tr1, true)
      else
        let '(a2, tr2, ended) := capture_loop rest (mk_vision s1 (is_running a)) in
        (a2, tr1 ++ tr2, ended)
  end.

(** What [run] leaves behind. *)
Record run_result : Type := mk_run_result {
  final : vision;
  log : list event;
  camera_opened : bool;    (* one of the two cameras opened *)
  loop_ended : bool;       (* the capture loop was left *)
  disconnected : bool      (* sio.disconnect() was called *)
}.

(** run (lines 375-402): [cam0] and [cam1] tell whether camera 0 and
    camera 1 open. *)
Definition SmartVisionSystem_run (cam0 cam1 : bool) (script : list capture) (a : vision)
  : run_result :=
  if negb (is_running a) then mk_run_result a [] false false false
  else if negb (cam0 || cam1) then mk_run_result a [] false false false
  else
    let '(a1, tr, ended) := capture_loop script a in
    mk_run_result a1 tr true ended (ended && is_connected (core a1)).

(** The frame passes the capture loop makes: those up to the first failed
    read or interrupt, the frame on which the quit key is pressed
    included. *)
Fixpoint frames_until_stop (script : list capture) : list transition :=
  match script with
  | Captured h w dets key :: rest =>
      FramePass h w dets :: (if quit_key key then [] else frames_until_stop rest)
  | _ => []
  end.

(* ================================================================= *)
(** ** Further notions *)

(** The label an entry carries before it is recognised, by status: none
    while pending, the placeholder of line 322 while sending. *)
Definition label_fits_status (o : object_data) : Prop :=
  (status o = pending -> gemini_name o = "") /\
  (status o = sending -> gemini_name o = "Thinking...").

Definition labels_ok (s : system) : Prop :=
  Forall (fun kv => label_fits_status (snd kv)) (object_database s).

(** Number of tasks put on the queue, for any object. *)
Definition puts (tr : list event) : nat :=
  List.length (filter (fun e => match e with Enqueued _ => true | _ => false end) tr).

(** The tasks a log puts on the queue, in order. *)
Definition queued_tasks (tr : list event) : list task :=
  flat_map (fun e => match e with Enqueued t => [t] | _ => [] end) tr.

(** Number of calls recorded at or after [t0]. *)
Definition recorded_since (t0 : Q) (s : system) : nat :=
  List.length (filter (fun t => Qle_bool t0 t) (api_history s)).

(** [frame_count] of [id], 0 when it is not tracked. *)
Definition seen_frames (id : Z) (s : system) : Z :=
  match dict_get id (object_database s) with
  | Some o => frame_count o
  | None => 0
  end.

(** Number of times a transition runs lines 300-311 for [id]. *)
Definition detections_in (id : Z) (a : transition) : nat :=
  match a with
  | FramePass _ _ dets => count_occ Z.eq_dec (frame_ids dets) id
  | DetectStep _ _ dc => if track_id (fst dc) =? id then 1 else 0
  | TrackStep d => if track_id d =? id then 1 else 0
  | _ => 0
  end.

Fixpoint detections_of (id : Z) (acts : list transition) : nat :=
  match acts with
  | [] => 0
  | a :: rest => (detections_in id a + detections_of id rest)%nat
  end.

(** Whether a transition takes a task off the queue. *)
Definition takes_task (a : transition) : bool :=
  match a with
  | WorkerPass _ _ | WorkerTake => true
  | _ => false
  end.

(* ================================================================= *)
(** ** Further scenarios *)

(** Seven large objects, each seen in 20 frames, all in view at once. *)
Definition crowd_ids : list Z := [1; 2; 3; 4; 5; 6; 7].

Definition crowd : system :=
  mk_system (map (fun id => (id, mk_object "bottle" "" pending 20 0)) crowd_ids)
            [] [] true three_models 0 "gemini-2.0-flash-exp".

Definition crowd_frame : list (detection * gate_clock) :=
  map (fun id => (mk_detection 100 100 200 200 id "bottle", clock_at 100)) crowd_ids.


(** What a transition that tracks [id] in [n] detections guarantees: the
    frames counted for [id] grow by [n] at most, and no task is queued
    for [id] while that count stays within [STABILITY_FRAMES]. *)
Definition still_unstable (id : Z) (n : nat) (s : system) (tr : list event)
           (s' : system) : Prop :=
  Z.max 0 (seen_frames id s') <= Z.max 0 (seen_frames id s) + Z.of_nat n /\
  (Z.max 0 (seen_frames id s) + Z.of_nat n <= STABILITY_FRAMES ->
   enqueues id tr = 0%nat).

(** A system that has counted [id] in 15 frames, and five frames showing it. *)
Definition warming_up : system :=
  mk_system [(7, mk_object "bottle" "" pending 15 0)] [] [] true
            three_models 0 "gemini-2.0-flash-exp".

Definition five_frames : list transition :=
  repeat (FramePass 480 640 [(bottle_box, clock_at 100)]) 5.


(** The backends called, in order. *)
Definition models_called (tr : list event) : list string :=
  flat_map (fun e => match e with Generate m _ => [m] | _ => [] end) tr.

(** The label an answer that ends the retry loop leaves (lines 221, 234). *)
Definition label_of (a : api_result) : string :=
  match a with
  | Response text => text
  | ApiError _ => "API錯誤"
  end.

(** The backend [k] places after the current one on the ring. *)
Definition model_after (k : nat) (s : system) : string :=
  nth ((current_model_index s + k) mod List.length (valid_models s))
      (valid_models s) "".

(** The second backend of three is current. *)
Definition on_second_model : system :=
  mk_system [(7, mk_object "bottle" "Thinking..." sending 21 0)]
            [bottle_task] [] true three_models 1 "gemini-exp-1206".


(** Whether the probe of lines 167-177 keeps a model name. *)
Definition usable (probe : string -> probe_outcome) (name : string) : bool :=
  match probe name with
  | ProbeOk => true
  | ProbeError err => negb (contains "404" err)
  end.

(** The selected backend is a place on the ring of valid models. *)
Definition ring_ok (s : system) : Prop :=
  (current_model_index s < List.length (valid_models s))%nat /\
  model_name s = nth (current_model_index s) (valid_models s) "".

(** A captured frame after which the capture loop goes on. *)
Definition goes_on (c : capture) : bool :=
  match c with
  | Captured _ _ _ key => negb (quit_key key)
  | _ => false
  end.

(** A pass of [retry_connection] whose connect fails while the program
    still runs. *)
Definition fails_to_connect (e : retry_env) : bool :=
  running e && negb (connect_ok e).

(** The log of [n] failed attempts. *)
Fixpoint failed_attempts (n : nat) : list conn_event :=
  match n with
  | O => []
  | S n' => ConnSleep 5 :: Connect :: failed_attempts n'
  end.

(** Transitions of the frame thread and of the worker thread. *)
Definition local_step (a : transition) : bool :=
  match a with
  | Resync => false
  | _ => true
  end.

(** The probe finds the first two candidates missing and the third out
    of quota. *)
Definition probe_two_missing (name : string) : probe_outcome :=
  if (name =? "gemini-2.0-flash-exp")%string then ProbeError "404 model not found"
  else if (name =? "gemini-exp-1206")%string then ProbeError "404 model not found"
  else if (name =? "gemini-2.0-flash-lite-preview-02-05")%string
       then ProbeError "429 Resource exhausted"
  else ProbeOk.

(** No candidate exists. *)
Definition probe_none (name : string) : probe_outcome :=
  ProbeError "404 model not found".


(** The box clamped to the frame: what the slice of line 325 cuts when
    no bound is negative. *)
Definition clamped_box (h w : Z) (d : detection) : crop :=
  mk_crop (Z.min h (Z.max 0 (y1 d))) (Z.min h (y2 d))
          (Z.min w (Z.max 0 (x1 d))) (Z.min w (x2 d)).

(** A stable object whose box lies above the frame, and one whose box
    lies to the right of a 640-wide frame. *)
Definition above_frame_box : detection :=
  mk_detection 100 (-200) 200 (-100) 7 "bottle".
Definition off_frame_box : detection := mk_detection 700 100 800 200 7 "bottle".


(** The doubles nearest to 0.3 and to 60.3, and five calls recorded at the
    first. *)
Definition three_tenths : Q := 5404319552844595 # 18014398509481984.
Definition sixty_and_three_tenths : Q := 8486470547826278 # 140737488355328.



(* ================================================================= *)
(** ** The dispatch gate in two steps

    The frame thread tests the entry at lines 315-318 without holding
    the lock, and takes the lock only for the write of lines 320-322,
    which does not test again; the worker can run between the two.  The
    finer system below keeps where each thread stands.  The frame thread
    is outside the gate or past its tests, with the locals the write
    will use.  The worker waits for a task, holds one that passed the
    check of lines 192-194 and the conversion of line 198, holds its
    answer, or has stored it.  A transition that its thread cannot take
    where it stands yields [None]. *)

Inductive frame_pc : Type :=
| OutsideGate
| GatePassed (h w : Z) (d : detection) (clk : gate_clock).

Inductive worker_pc : Type :=
| Waiting
| Holding (t : task)
| Answered (t : task) (result : string)
| Stored (result : string).

Record threads : Type := mk_threads {
  shared : system;
  frame_at : frame_pc;
  worker_at : worker_pc
}.

Inductive fine_transition : Type :=
| Frame (a : transition)                        (* a step of the frame thread *)
| GateTest (h w : Z) (dc : detection * gate_clock)  (* lines 315-318 *)
| GateWrite                                     (* lines 319-326 *)
| WorkerGet                                     (* lines 189-198 *)
| WorkerCall (env : nat -> attempt_env)         (* lines 208-236 *)
| WorkerStore                                   (* lines 238-241 *)
| WorkerSend (emit_ok : bool)                   (* lines 245-257 *)
| SocketResync.                                 (* lines 146-160 *)

(** The steps of [step] that belong to the frame thread. *)
Definition frame_step (a : transition) : bool :=
  match a with
  | FramePass _ _ _ | DetectStep _ _ _ | TrackStep _ | GateStep _ _ _
  | SweepStep _ => true
  | _ => false
  end.

(** Lines 315-318 on the entry [obj_data], which line 311 bound to the
    registry's own entry: whether the write is to follow. *)
Definition gate_test (clk : gate_clock) (d : detection) (s : system)
           (obj_data : object_data) : system * bool :=
  if lifecycle_eqb (status obj_data) pending
     && (STABILITY_FRAMES <? frame_count obj_data) then
    let '(s1, available) := check_api_quota (quota_time clk) s in
    (s1, available && large_enough d)
  else (s, false).

(** Lines 319-326. *)
Definition gate_write (h w : Z) (clk : gate_clock) (d : detection) (s : system)
  : system * list event :=
  let s2 := with_api_history (api_history s ++ [reserve_time clk]) s in
  let s3 := with_object_database
              (dict_modify (track_id d) dispatched (object_database s2)) s2 in
  let t := mk_task (track_id d) (crop_of h w d) (yolo_raw_name d) in
  (with_task_queue (task_queue s3 ++ [t]) s3, [Enqueued t]).

Definition fine_step (a : fine_transition) (st : threads)
  : option (threads * list event) :=
  let s := shared st in
  match a, frame_at st, worker_at st with
  | Frame a', OutsideGate, w =>
      if frame_step a' then
        let '(s1, tr) := step a' s in Some (mk_threads s1 OutsideGate w, tr)
      else None
  | GateTest h w (d, clk), OutsideGate, wk =>
      match dict_get (track_id d) (object_database s) with
      | None => None
      | Some obj_data =>
          let '(s1, passed) := gate_test clk d s obj_data in
          Some (mk_threads s1 (if passed then GatePassed h w d clk else OutsideGate) wk,
                [])
      end
  | GateWrite, GatePassed h w d clk, wk =>
      let '(s1, tr) := gate_write h w clk d s in
      Some (mk_threads s1 OutsideGate wk, tr)
  | WorkerGet, f, Waiting =>
      match task_queue s with
      | [] => Some (st, [])
      | t :: rest =>
          let s0 := with_task_queue rest s in
          if negb (dict_has (task_id t) (object_database s0))
             || crop_empty (cropped_img t)
          then Some (mk_threads s0 f Waiting, [])
          else Some (mk_threads s0 f (Holding t), [])
      end
  | WorkerCall env, f, Holding t =>
      let '(r, s1, tr) := recognise env t s in
      Some (mk_threads s1 f (Answered t (product_name r)), tr)
  | WorkerStore, f, Answered t result =>
      Some (mk_threads (write_back (task_id t) result s) f (Stored result), [])
  | WorkerSend emit_ok, f, Stored result =>
      let '(s1, tr) := publish_result emit_ok result s in
      Some (mk_threads s1 f Waiting, tr)
  | SocketResync, _, _ => Some (st, on_resync_request s)
  | _, _, _ => None
  end.

Fixpoint fine_run (acts : list fine_transition) (st : threads)
  : option (threads * list event) :=
  match acts with
  | [] => Some (st, [])
  | a :: rest =>
      match fine_step a st with
      | None => None
      | Some (st1, tr1) =>
          match fine_run rest st1 with
          | None => None
          | Some (st2, tr2) => Some (st2, tr1 ++ tr2)
          end
      end
  end.

(** The status of [id] where a run ends, if it ends and [id] is there. *)
Definition status_after (id : Z) (acts : list fine_transition) (st : threads)
  : option lifecycle :=
  match fine_run acts st with
  | Some (st1, _) => option_map status (dict_get id (object_database (shared st1)))
  | None => None
  end.

(** The log of a run, empty if a thread could not take its step. *)
Definition log_of (acts : list fine_transition) (st : threads) : list event :=
  match fine_run acts st with
  | Some (_, tr) => tr
  | None => []
  end.

(** The program after [__init__]: both threads at the top of their
    loops. *)
Definition started : threads :=
  mk_threads (initial true three_models) OutsideGate Waiting.

(** Object 7 is seen in 21 frames and dispatched, and the worker takes
    its task.  While the worker converts the crop and waits for the
    backend, the object leaves for 31 frames and is evicted; when it
    comes back the tracker reports it under the same track id (the ids
    are the tracker's, and the program takes them as they come).  It is
    seen in 20 frames, then counted in a 21st, whose gate tests it
    passes.  ([WorkerCall] is the whole retry loop, placed where it
    ends.) *)
Definition back_and_tested : list fine_transition :=
  repeat (Frame (FramePass 480 640 [(bottle_box, clock_at 5)])) 21
  ++ [WorkerGet]
  ++ repeat (Frame (FramePass 480 640 [])) 31
  ++ repeat (Frame (FramePass 480 640 [(bottle_box, clock_at 9)])) 20
  ++ [Frame (TrackStep bottle_box); GateTest 480 640 (bottle_box, clock_at 9)].

(** The backend answers the first task and the worker stores the label,
    before the frame thread takes the lock for its write. *)
Definition answer_stored : list fine_transition :=
  back_and_tested ++ [WorkerCall world_coffee; WorkerStore].

Definition written_after_answer : list fine_transition :=
  answer_stored ++ [GateWrite].

(** The worker announces the label, the frame ends, and the worker
    serves the second task. *)
Definition served_twice : list fine_transition :=
  written_after_answer
  ++ [WorkerSend true; Frame (SweepStep [7]);
      WorkerGet; WorkerCall world_coffee; WorkerStore; WorkerSend true].

(* ================================================================= *)
(** ** Facts about strings, dicts and loops *)

Lemma prefix_app (n h : string) :
  prefix n h = true <-> exists rest, h = (n ++ rest)%string.
Proof.
  revert h; induction n as [|c n IH]; intros h; simpl.
  - destruct h; split; eauto.
  - destruct h as [|c' h]; simpl.
    + split; [discriminate | intros [rest H]; discriminate].
    + destruct (Ascii.ascii_dec c c') as [->|Hne].
      * rewrite IH. split; intros [rest H]; exists rest; congruence.
      * split; [discriminate | intros [rest H]; congruence].
Qed.

(** [contains] is Python's substring test. *)
Lemma contains_spec (n h : string) :
  contains n h = true <-> exists a b, h = (a ++ n ++ b)%string.
Proof.
  induction h as [|c h IH]; cbn [contains].
  - rewrite prefix_app. split.
    + intros [rest H]. exists "", rest. exact H.
    + intros [a [b H]]. destruct a; simpl in H.
      * exists b. exact H.
      * discriminate.
  - rewrite orb_true_iff, IH, prefix_app. split.
    + intros [[rest H] | [a [b H]]].
      * exists "", rest. exact H.
      * exists (String c a), b. simpl. now rewrite H.
    + intros [a [b H]]. destruct a as [|c' a]; simpl in H.
      * left. exists b. exact H.
      * right. exists a, b. congruence.
Qed.


(* ================================================================= *)
(** ** Double-precision subtraction *)

Section Rounding.
Local Open Scope Q_scope.

Lemma round_half_even_floor (m : Q) :
  (Qfloor m <= round_half_even m <= Qfloor m + 1)%Z.
Proof.
  unfold round_half_even. destruct (_ ?= _); [destruct (Z.even _)| |]; lia.
Qed.

(** Rounding to the nearest integer, ties to even, reaches an even integer
    [n] exactly from half a unit below it on. *)
Lemma round_half_even_reaches (m : Q) (n : Z) :
  Z.even n = true ->
  (n <= round_half_even m)%Z <-> inject_Z n - (1 # 2) <= m.
Proof.
  intros Heven.
  pose proof (Qfloor_le m) as Hlo. pose proof (Qlt_floor m) as Hhi.
  rewrite inject_Z_plus in Hhi. change (inject_Z 1) with 1 in Hhi.
  unfold round_half_even.
  destruct (Z_lt_le_dec (Qfloor m) (n - 1)) as [Hlow | Hge].
  - (* floor m <= n - 2 *)
    assert (Hq : inject_Z (Qfloor m) <= inject_Z n - 2).
    { setoid_replace (inject_Z n - 2) with (inject_Z (n - 2))
        by (unfold Zminus; rewrite inject_Z_plus; reflexivity).
      rewrite <- Zle_Qle. lia. }
    split.
    + destruct (_ ?= _); [destruct (Z.even (Qfloor m))| |]; intros H; exfalso; lia.
    + intros H. lra.
  - destruct (Z.eq_dec (Qfloor m) (n - 1)) as [Heq | Hne].
    + (* floor m = n - 1, an odd integer *)
      assert (Hq : inject_Z (Qfloor m) == inject_Z n - 1).
      { rewrite Heq. unfold Zminus. rewrite inject_Z_plus. reflexivity. }
      assert (Hodd : Z.even (Qfloor m) = false).
      { rewrite Heq. replace (n - 1)%Z with (Z.pred n) by lia.
        rewrite Z.even_pred, <- Z.negb_even, Heven. reflexivity. }
      rewrite Hodd.
      destruct (m - inject_Z (Qfloor m) ?= 1 # 2) eqn:E.
      * apply Qeq_alt in E. split; [intros _; lra | intros _; lia].
      * apply Qlt_alt in E. split; [intros H; lia | intros H; lra].
      * apply Qgt_alt in E. split; [intros _; lra | intros _; lia].
    + (* n <= floor m *)
      assert (Hq : inject_Z n <= inject_Z (Qfloor m)) by (rewrite <- Zle_Qle; lia).
      split.
      * intros _. lra.
      * intros _. destruct (_ ?= _); [destruct (Z.even (Qfloor m))| |]; lia.
Qed.

Lemma round_half_even_near (m : Q) :
  m - (1 # 2) <= inject_Z (round_half_even m) <= m + (1 # 2).
Proof.
  pose proof (Qfloor_le m) as Hlo. pose proof (Qlt_floor m) as Hhi.
  rewrite inject_Z_plus in Hhi. change (inject_Z 1) with 1 in Hhi.
  unfold round_half_even.
  destruct (m - inject_Z (Qfloor m) ?= 1 # 2) eqn:E.
  - apply Qeq_alt in E. destruct (Z.even (Qfloor m)).
    + lra.
    + rewrite inject_Z_plus. change (inject_Z 1) with 1. lra.
  - apply Qlt_alt in E. lra.
  - apply Qgt_alt in E. rewrite inject_Z_plus. change (inject_Z 1) with 1. lra.
Qed.

Lemma round_half_even_above (m : Q) (n : Z) :
  inject_Z n <= m -> (n <= round_half_even m)%Z.
Proof.
  intros H. pose proof (round_half_even_floor m) as [Hf _].
  assert (n <= Qfloor m)%Z; [|lia].
  rewrite <- (Qfloor_Z n). now apply Qfloor_resp_le.
Qed.

Lemma two_power_pos (e : Z) : 0 < 2 ^ e.
Proof. apply Qpower_0_lt. reflexivity. Qed.

Lemma two_power_succ (e : Z) : 2 ^ (e + 1) == 2 * 2 ^ e.
Proof. rewrite Qpower_plus by discriminate. rewrite Qpower_1_r. ring. Qed.

Lemma two_power_pred (e : Z) : 2 * 2 ^ (e - 1) == 2 ^ e.
Proof.
  rewrite <- two_power_succ. replace (e - 1 + 1)%Z with e by lia. reflexivity.
Qed.

(** [Z.log2] read in the rationals. *)
Lemma log2_bounds (a : Z) :
  (0 < a)%Z ->
  2 ^ Z.log2 a <= inject_Z a /\ inject_Z a < 2 * 2 ^ Z.log2 a.
Proof.
  intros Ha. destruct (Z.log2_spec a Ha) as [Hlo Hhi].
  pose proof (Z.log2_nonneg a) as Hnn.
  split.
  - change 2 with (inject_Z 2). rewrite <- Zpower_Qpower by exact Hnn.
    now rewrite <- Zle_Qle.
  - rewrite <- two_power_succ.
    change 2 with (inject_Z 2). rewrite <- Zpower_Qpower by lia.
    rewrite <- Zlt_Qlt. exact Hhi.
Qed.

Lemma binade_spec (q : Q) :
  0 < q -> 2 ^ binade q <= q /\ q < 2 * 2 ^ binade q.
Proof.
  intros Hq. unfold binade.
  destruct q as [n d]. cbn [Qnum Qden].
  assert (Hn : (0 < n)%Z) by (unfold Qlt in Hq; cbn in Hq; lia).
  rewrite (Z.abs_eq n) by lia.
  destruct (log2_bounds n Hn) as [Hn1 Hn2].
  destruct (log2_bounds (Zpos d) eq_refl) as [Hd1 Hd2].
  set (k := (Z.log2 n - Z.log2 (Z.pos d))%Z).
  assert (Hk : 2 ^ k * 2 ^ Z.log2 (Z.pos d) == 2 ^ Z.log2 n).
  { rewrite <- Qpower_plus by discriminate. unfold k.
    replace (Z.log2 n - Z.log2 (Z.pos d) + Z.log2 (Z.pos d))%Z with (Z.log2 n) by lia.
    reflexivity. }
  pose proof (two_power_pos k) as Pk.
  pose proof (two_power_pos (k - 1)) as Pk1.
  pose proof (two_power_pred k) as Hpred.
  pose proof (two_power_pos (Z.log2 (Z.pos d))) as Pd.
  assert (Hqd : (n # d) * inject_Z (Z.pos d) == inject_Z n).
  { rewrite (Qmake_Qdiv n d). field. intros H. discriminate. }
  assert (HD : 0 < inject_Z (Z.pos d)) by reflexivity.
  rewrite (Qabs_pos (n # d)) by lra.
  destruct (Qle_bool (2 ^ k) (n # d)) eqn:E.
  - apply Qle_bool_iff in E. split; [exact E|].
    (* n < 2 * 2^Ln = 2 * 2^k * 2^Ld <= 2 * 2^k * d *)
    apply Qnot_le_lt. intros Hc. nra.
  - assert (E' : (n # d) < 2 ^ k).
    { apply Qnot_le_lt. intros Hc. apply Qle_bool_iff in Hc. congruence. }
    split; [|lra].
    apply Qnot_lt_le. intros Hc. nra.
Qed.

Lemma round64_nonzero (q : Q) :
  ~ q == 0 ->
  round64 q
  = inject_Z (round_half_even (q / 2 ^ ulp_exponent q)) * 2 ^ ulp_exponent q.
Proof.
  intros H. unfold round64. destruct (Qeq_bool q 0) eqn:E; [|reflexivity].
  apply Qeq_bool_iff in E. contradiction.
Qed.

Lemma scaled_back (q : Q) (e : Z) : q / 2 ^ e * 2 ^ e == q.
Proof. field. apply Qpower_not_0. discriminate. Qed.

(** The rounded value is within half a unit in the last place. *)
Lemma round64_near (q : Q) :
  ~ q == 0 ->
  q - (1 # 2) * 2 ^ ulp_exponent q <= round64 q
  /\ round64 q <= q + (1 # 2) * 2 ^ ulp_exponent q.
Proof.
  intros H. rewrite (round64_nonzero q H).
  pose proof (round_half_even_near (q / 2 ^ ulp_exponent q)) as [Hlo Hhi].
  pose proof (two_power_pos (ulp_exponent q)) as Hp.
  pose proof (scaled_back q (ulp_exponent q)) as Hs.
  set (m := q / 2 ^ ulp_exponent q) in *.
  set (r := inject_Z (round_half_even m)) in *.
  set (u := 2 ^ ulp_exponent q) in *.
  split; nra.
Qed.

(** The double subtraction of line 267 yields 60 or more exactly from
    [60 - 2^-48] on: the doubles next to 60 are [60 - 2^-47] and 60, and
    the tie between them goes to 60, whose significand is even. *)
Lemma round64_reaches_60 (q : Q) :
  60 <= round64 q <-> 60 - (1 # 281474976710656) <= q.
Proof.
  destruct (Q_dec q 0) as [[Hneg | Hpos] | Hzero].
  - (* negative: the result is not positive *)
    assert (Hne : ~ q == 0) by lra.
    destruct (round64_near q Hne) as [_ Hhi].
    rewrite (round64_nonzero q Hne) in *.
    pose proof (two_power_pos (ulp_exponent q)) as Hp.
    pose proof (scaled_back q (ulp_exponent q)) as Hs.
    set (m := q / 2 ^ ulp_exponent q) in *.
    assert (Hm : m < 0) by nra.
    assert (Hr : (round_half_even m <= 0)%Z).
    { pose proof (round_half_even_near m) as [_ Hn].
      assert (Hlt : inject_Z (round_half_even m) < inject_Z 1)
        by (change (inject_Z 1) with 1; lra).
      rewrite <- Zlt_Qlt in Hlt. lia. }
    rewrite Zle_Qle in Hr. change (inject_Z 0) with 0 in Hr.
    split; intros H; exfalso; [nra | lra].
  - assert (Hne : ~ q == 0) by lra.
    destruct (binade_spec q Hpos) as [Hlo Hhi].
    destruct (Z_lt_le_dec (binade q) 5) as [Hsmall | Hge].
    + (* below 32 *)
      assert (Hb : 2 ^ binade q <= 2 ^ 4)
        by (apply Qpower_le_compat_l; [lia | discriminate]).
      change (2 ^ 4) with 16 in Hb.
      assert (He : 2 ^ ulp_exponent q <= 2 ^ 0)
        by (apply Qpower_le_compat_l; [unfold ulp_exponent; lia | discriminate]).
      change (2 ^ 0) with 1 in He.
      destruct (round64_near q Hne) as [_ Hnear].
      split; intros H; exfalso; lra.
    + destruct (Z.eq_dec (binade q) 5) as [Hfive | Hne5].
      * (* between 32 and 64: the unit in the last place is 2^-47 *)
        rewrite (round64_nonzero q Hne).
        assert (He : ulp_exponent q = (-47)%Z) by (unfold ulp_exponent; lia).
        rewrite He. change (2 ^ (-47)) with (1 # 140737488355328).
        pose proof (round_half_even_reaches (q / (1 # 140737488355328))
                      8444249301319680 eq_refl) as Hr.
        rewrite Zle_Qle in Hr.
        change (inject_Z 8444249301319680) with (8444249301319680 # 1) in Hr.
        assert (Hm : q / (1 # 140737488355328) == q * 140737488355328) by field.
        set (m := q / (1 # 140737488355328)) in *.
        set (r := inject_Z (round_half_even m)) in *.
        split; intros H.
        -- assert (Hn : 8444249301319680 # 1 <= r) by lra.
           apply Hr in Hn. lra.
        -- assert (Hn : (8444249301319680 # 1) - (1 # 2) <= m) by lra.
           apply Hr in Hn. lra.
      * (* 64 and above *)
        assert (Hb : 2 ^ 6 <= 2 ^ binade q)
          by (apply Qpower_le_compat_l; [lia | discriminate]).
        change (2 ^ 6) with 64 in Hb.
        rewrite (round64_nonzero q Hne).
        assert (He : ulp_exponent q = (binade q - 52)%Z) by (unfold ulp_exponent; lia).
        rewrite He.
        assert (Hsplit : 2 ^ 52 * 2 ^ (binade q - 52) == 2 ^ binade q).
        { rewrite <- Qpower_plus by discriminate.
          replace (52 + (binade q - 52))%Z with (binade q) by lia. reflexivity. }
        pose proof (two_power_pos (binade q - 52)) as Hp.
        pose proof (scaled_back q (binade q - 52)) as Hs.
        set (u := 2 ^ (binade q - 52)) in *.
        assert (Hm : inject_Z (2 ^ 52) <= q / u).
        { change (inject_Z (2 ^ 52)) with (2 ^ 52).
          apply Qnot_lt_le. intros Hc. nra. }
        apply round_half_even_above in Hm. rewrite Zle_Qle in Hm.
        change (inject_Z (2 ^ 52)) with (2 ^ 52) in Hm.
        split; intros _; [lra | nra].
  - unfold round64. apply Qeq_bool_iff in Hzero as Hz. rewrite Hz.
    split; intros H; exfalso; lra.
Qed.

(** [double_sub] is the subtraction of binary64 floats: on clock
    readings a minute apart, on readings of a running clock, on a tie,
    on an exact result, in the subnormal range and across binades. *)
Example double_sub_is_binary64_subtraction :
  Forall (fun ab : float * float =>
            Qeq_bool (binary64_value (PrimFloat.sub (fst ab) (snd ab)))
                     (double_sub (binary64_value (fst ab)) (binary64_value (snd ab)))
            = true)
    [(0x1.e266666666666p+5, 0x1.3333333333333p-2);
     (0x1.a41c1c2d70a3dp+30, 0x1.a41c1b31eb852p+30);
     (0x1.a41c1c2p+30, 0x1.a41c1b3p+30);
     (0x1.3333333333333p-2, 0x1.999999999999ap-4);
     (0x1.8p+0, 0x1p-53);
     (0x1.8p+0, 0x1.8p-53);
     (0x1p-1060, 0x1.8p-1062);
     (0x1p+0, 0x1p+60)]%float.
Proof. repeat constructor. Qed.

(** The test of line 267 on the rounded difference, and on the exact
    one. *)
Lemma in_window_rounded (now t : Q) :
  in_window now t = true <-> double_sub now t < 60.
Proof.
  unfold in_window. rewrite negb_true_iff. split.
  - intros H. apply Qnot_le_lt. intros Hle.
    apply Qle_bool_iff in Hle. congruence.
  - intros H. destruct (Qle_bool 60 (double_sub now t)) eqn:E; [|reflexivity].
    apply Qle_bool_iff in E. exfalso. exact (Qlt_not_le _ _ H E).
Qed.

Lemma double_sub_below_60 (now t : Q) :
  double_sub now t < 60 <-> now - t < 60 - (1 # 281474976710656).
Proof.
  unfold double_sub. pose proof (round64_reaches_60 (now - t)) as H.
  split; intros Hlt; apply Qnot_le_lt; intros Hle; apply H in Hle; lra.
Qed.

Lemma in_window_spec (now t : Q) :
  in_window now t = true <-> now - t < 60 - (1 # 281474976710656).
Proof. rewrite in_window_rounded. apply double_sub_below_60. Qed.

End Rounding.



Lemma filter_none {A : Type} (f : A -> bool) (l : list A) :
  Forall (fun x => f x = false) l -> filter f l = [].
Proof.
  induction 1 as [|x l Hx _ IH]; simpl; [reflexivity|].
  now rewrite Hx, IH.
Qed.

(* ================================================================= *)
(** ** The quota window *)



(** The doubles written 0.3 and 60.3, as primitive floats. *)
Example boundary_readings :
  binary64_value 0x1.3333333333333p-2 = three_tenths /\
  binary64_value 0x1.e266666666666p+5 = sixty_and_three_tenths /\
  PrimFloat.ltb (PrimFloat.sub 0x1.e266666666666p+5 0x1.3333333333333p-2) 60
  = false.
Proof. repeat split; vm_compute; reflexivity. Qed.


(* ================================================================= *)
(** ** The retry loop of the worker *)

Ltac count_events :=
  unfold enqueues, generate_calls, switches, quota_checks, emits in *;
  repeat (rewrite ?filter_app, ?length_app in *; cbn [filter List.length app] in * ).

Lemma attempt_unfold (e : attempt_env) (t : task) (r : retry_state) (s : system) :
  let kept := filter (in_window (check_time e)) (api_history s) in
  let available := Z.of_nat (List.length kept) <? MAX_RPM in
  let s1 := with_api_history kept s in
  let before_call :=
    QuotaChecked (check_time e) available
      :: (if available then [] else [Sleep 5]) ++ [Generate (model_name s) t] in
  attempt e t r s =
  match api_answer e with
  | Response text =>
      (mk_retry (attempts r) text true,
       with_api_history (kept ++ [success_time e]) s1, before_call)
  | ApiError err_msg =>
      if contains "429" err_msg then
        (mk_retry (S (attempts r)) (product_name r) false,
         switch_next_model s1,
         before_call ++ [Sleep 5; Switched (model_name (switch_next_model s1))])
      else (mk_retry (S (attempts r)) "API錯誤" true, s1, before_call)
  end.
Proof. reflexivity. Qed.

(** One pass: what it leaves alone, and what it logs. *)
Lemma attempt_frame (e : attempt_env) (t : task) (r r1 : retry_state)
      (s s1 : system) (tr : list event) :
  attempt e t r s = (r1, s1, tr) ->
  object_database s1 = object_database s /\
  task_queue s1 = task_queue s /\
  is_connected s1 = is_connected s /\
  valid_models s1 = valid_models s /\
  Forall loop_event tr.
Proof.
  rewrite attempt_unfold. cbv zeta.
  destruct (api_answer e) as [text|msg]; [|destruct (contains "429" msg)];
    intros H; inversion H; subst; clear H; cbn;
    (repeat split; try reflexivity);
    destruct (Z.of_nat _ <? MAX_RPM); cbn; repeat constructor.
Qed.

Lemma attempt_counts (e : attempt_env) (t : task) (r r1 : retry_state)
      (s s1 : system) (tr : list event) :
  attempt e t r s = (r1, s1, tr) ->
  generate_calls tr = 1%nat /\
  quota_checks tr = 1%nat /\
  switches tr = (if rate_limited e then 1 else 0)%nat /\
  attempts r1 = (attempts r + match api_answer e with
                              | Response _ => 0 | ApiError _ => 1 end)%nat /\
  stopped r1 = negb (rate_limited e) /\
  (rate_limited e = true -> attempts r1 = S (attempts r)).
Proof.
  rewrite attempt_unfold. cbv zeta. unfold rate_limited.
  destruct (api_answer e) as [text|msg]; [|destruct (contains "429" msg)];
    intros H; inversion H; subst; clear H; cbn [attempts stopped andb negb];
    destruct (Z.of_nat _ <? MAX_RPM); count_events;
    repeat split; try lia; discriminate.
Qed.

Lemma attempt_rotation (e : attempt_env) (t : task) (r r1 : retry_state)
      (s s1 : system) (tr : list event) :
  attempt e t r s = (r1, s1, tr) ->
  current_model_index s1 =
    (if rate_limited e
     then (current_model_index s + 1) mod List.length (valid_models s)
     else current_model_index s)%nat /\
  model_name s1 =
    (if rate_limited e
     then nth (current_model_index s1) (valid_models s) ""
     else model_name s).
Proof.
  rewrite attempt_unfold. cbv zeta. unfold rate_limited.
  destruct (api_answer e) as [text|msg]; [|destruct (contains "429" msg)];
    intros H; inversion H; subst; clear H; cbn; split; reflexivity.
Qed.

Lemma Forall_loop_event_counts (id : Z) (tr : list event) :
  Forall loop_event tr ->
  enqueues id tr = 0%nat /\ emits tr = 0%nat /\ ~ In (Evicted id) tr.
Proof.
  induction 1 as [|e tr He _ IH]; [cbn; tauto|].
  destruct IH as (IH1 & IH2 & IH3).
  destruct e; cbn in He; try contradiction;
    unfold enqueues, emits in *; cbn;
    (repeat split; try assumption);
    intros [Hc|Hc]; try discriminate; contradiction.
Qed.

(** The loop leaves the registry, the queue and the connection alone and
    logs only its own events. *)
Lemma retry_loop_frame (env : nat -> attempt_env) (t : task) (m : nat) :
  forall fuel r s r' s' tr,
    retry_loop fuel env t m r s = (r', s', tr) ->
    object_database s' = object_database s /\
    task_queue s' = task_queue s /\
    is_connected s' = is_connected s /\
    valid_models s' = valid_models s /\
    Forall loop_event tr.
Proof.
  induction fuel as [|fuel IH]; intros r s r' s' tr; cbn [retry_loop].
  - intros H; inversion H; subst. repeat split; constructor.
  - destruct (attempts r <? m)%nat.
    2:{ intros H; inversion H; subst. repeat split; constructor. }
    destruct (attempt (env (attempts r)) t r s) as [[r1 s1] tr1] eqn:E1.
    apply attempt_frame in E1. destruct E1 as (D1 & Q1 & C1 & V1 & F1).
    destruct (stopped r1).
    + intros H; inversion H; subst. repeat split; assumption.
    + destruct (retry_loop fuel env t m r1 s1) as [[r2 s2] tr2] eqn:E2.
      apply IH in E2. destruct E2 as (D2 & Q2 & C2 & V2 & F2).
      intros H; inversion H; subst.
      repeat split; try congruence. apply Forall_app; split; assumption.
Qed.

(** Counting the loop's calls: one capacity check per backend call, no
    more calls than attempts left, one switch per capacity-exhausted
    answer, and the passes met the answers [env a], [env (a+1)], ... *)
Lemma retry_loop_counts (env : nat -> attempt_env) (t : task) (m : nat) :
  forall fuel r s r' s' tr,
    retry_loop fuel env t m r s = (r', s', tr) ->
    quota_checks tr = generate_calls tr /\
    (generate_calls tr <= m - attempts r)%nat /\
    (attempts r <= attempts r')%nat /\
    (attempts r' <= attempts r + generate_calls tr)%nat /\
    switches tr =
      List.length (filter rate_limited
                     (map env (seq (attempts r) (generate_calls tr)))).
Proof.
  induction fuel as [|fuel IH]; intros r s r' s' tr; cbn [retry_loop].
  - intros H; inversion H; subst. cbn. repeat split; lia.
  - destruct (attempts r <? m)%nat eqn:Hlt.
    2:{ intros H; inversion H; subst. cbn. repeat split; lia. }
    apply Nat.ltb_lt in Hlt.
    destruct (attempt (env (attempts r)) t r s) as [[r1 s1] tr1] eqn:E1.
    apply attempt_counts in E1. destruct E1 as (G1 & Q1 & S1 & A1 & St1 & A1').
    destruct (stopped r1) eqn:Hst.
    + intros H; inversion H; subst. rewrite G1, Q1, S1. cbn.
      symmetry in St1. apply negb_true_iff in St1. rewrite St1 in *.
      repeat split; try lia;
      destruct (api_answer (env (attempts r))); lia.
    + destruct (retry_loop fuel env t m r1 s1) as [[r2 s2] tr2] eqn:E2.
      apply IH in E2. destruct E2 as (Q2 & G2 & A2 & A2' & S2).
      intros H; inversion H; subst.
      symmetry in St1. apply negb_false_iff in St1. rewrite St1 in *.
      specialize (A1' eq_refl). clear A1.
      assert (Hg : generate_calls (tr1 ++ tr2) = S (generate_calls tr2))
        by (count_events; lia).
      assert (Hq : quota_checks (tr1 ++ tr2) = S (quota_checks tr2))
        by (count_events; lia).
      assert (Hs : switches (tr1 ++ tr2) = S (switches tr2))
        by (count_events; lia).
      rewrite Hg, Hq, Hs. repeat split; try lia.
      rewrite <- cons_seq. cbn [map filter]. rewrite St1. cbn [List.length].
      f_equal. rewrite S2. replace (attempts r1) with (S (attempts r)) by lia.
      reflexivity.
Qed.

(** [max_retries] units of fuel are enough: the loop ends because it
    broke out or because [attempts] reached [max_retries]. *)
Lemma retry_loop_fuel (env : nat -> attempt_env) (t : task) (m : nat) :
  forall fuel r s r' s' tr,
    (m - attempts r <= fuel)%nat ->
    retry_loop fuel env t m r s = (r', s', tr) ->
    (stopped r' = true /\ tr <> []) \/ (r' = r /\ m <= attempts r)%nat
    \/ (stopped r' = false /\ attempts r' = m).
Proof.
  induction fuel as [|fuel IH]; intros r s r' s' tr Hfuel; cbn [retry_loop].
  - intros H; inversion H; subst. right; left. split; [reflexivity | lia].
  - destruct (attempts r <? m)%nat eqn:Hlt.
    2:{ intros H; inversion H; subst. apply Nat.ltb_ge in Hlt.
        right; left. split; [reflexivity | lia]. }
    apply Nat.ltb_lt in Hlt.
    destruct (attempt (env (attempts r)) t r s) as [[r1 s1] tr1] eqn:E1.
    pose proof (attempt_counts _ _ _ _ _ _ _ E1) as (G1 & _ & _ & _ & St1 & A1).
    destruct (stopped r1) eqn:Hst.
    + intros H; inversion H; subst. left. split; [assumption|].
      intros ->. discriminate G1.
    + destruct (retry_loop fuel env t m r1 s1) as [[r2 s2] tr2] eqn:E2.
      symmetry in St1. apply negb_false_iff in St1. specialize (A1 St1).
      apply IH in E2; [|lia].
      intros H; inversion H; subst.
      destruct E2 as [[E2 _] | [[E2 E2'] | E2]].
      * left. split; [assumption|]. intros Hnil.
        apply app_eq_nil in Hnil. destruct Hnil as [-> _]. discriminate G1.
      * subst r'. right; right. split; [assumption | lia].
      * right; right. assumption.
Qed.

(** More fuel changes nothing. *)
Lemma retry_loop_fuel_irrelevant (env : nat -> attempt_env) (t : task) (m : nat) :
  forall fuel fuel' r s,
    (m - attempts r <= fuel)%nat -> (m - attempts r <= fuel')%nat ->
    retry_loop fuel env t m r s = retry_loop fuel' env t m r s.
Proof.
  induction fuel as [|fuel IH]; intros fuel' r s H H'.
  - destruct fuel'; cbn [retry_loop]; [reflexivity|].
    destruct (attempts r <? m)%nat eqn:Hlt; [|reflexivity].
    apply Nat.ltb_lt in Hlt. lia.
  - destruct fuel'; cbn [retry_loop].
    + destruct (attempts r <? m)%nat eqn:Hlt; [|reflexivity].
      apply Nat.ltb_lt in Hlt. lia.
    + destruct (attempts r <? m)%nat eqn:Hlt; [|reflexivity].
      apply Nat.ltb_lt in Hlt.
      destruct (attempt (env (attempts r)) t r s) as [[r1 s1] tr1] eqn:E1.
      pose proof (attempt_counts _ _ _ _ _ _ _ E1) as (_ & _ & _ & _ & St1 & A1).
      destruct (stopped r1) eqn:Hst; [reflexivity|].
      symmetry in St1. apply negb_false_iff in St1. specialize (A1 St1).
      rewrite (IH fuel' r1 s1); [reflexivity | lia | lia].
Qed.

(** The rotation index after the loop: one step round the ring per
    switch. *)
Lemma retry_loop_rotation (env : nat -> attempt_env) (t : task) (m : nat) :
  forall fuel r s r' s' tr,
    (current_model_index s < List.length (valid_models s))%nat ->
    retry_loop fuel env t m r s = (r', s', tr) ->
    current_model_index s' =
      ((current_model_index s + switches tr) mod List.length (valid_models s))%nat /\
    (current_model_index s' < List.length (valid_models s))%nat.
Proof.
  induction fuel as [|fuel IH]; intros r s r' s' tr Hidx; cbn [retry_loop].
  - intros H; inversion H; subst. cbn. rewrite Nat.add_0_r.
    rewrite Nat.mod_small by assumption. split; [reflexivity | assumption].
  - destruct (attempts r <? m)%nat.
    2:{ intros H; inversion H; subst. cbn. rewrite Nat.add_0_r.
        rewrite Nat.mod_small by assumption. split; [reflexivity | assumption]. }
    destruct (attempt (env (attempts r)) t r s) as [[r1 s1] tr1] eqn:E1.
    pose proof (attempt_frame _ _ _ _ _ _ _ E1) as (_ & _ & _ & V1 & _).
    pose proof (attempt_counts _ _ _ _ _ _ _ E1) as (_ & _ & S1 & _ & St1 & _).
    pose proof (attempt_rotation _ _ _ _ _ _ _ E1) as (R1 & _).
    assert (Hidx1 : (current_model_index s1 < List.length (valid_models s))%nat).
    { rewrite R1. destruct (rate_limited _); [|assumption].
      apply Nat.mod_upper_bound. lia. }
    destruct (stopped r1) eqn:Hst.
    + intros H; inversion H; subst. split; [|assumption].
      rewrite S1, R1. symmetry in St1. apply negb_true_iff in St1.
      rewrite St1, Nat.add_0_r. symmetry. now apply Nat.mod_small.
    + destruct (retry_loop fuel env t m r1 s1) as [[r2 s2] tr2] eqn:E2.
      apply IH in E2; [|now rewrite V1].
      rewrite V1 in E2. destruct E2 as [E2 E2'].
      intros H; inversion H; subst. split; [|assumption].
      symmetry in St1. apply negb_false_iff in St1. rewrite St1 in *.
      assert (Hs : switches (tr1 ++ tr2) = S (switches tr2))
        by (count_events; lia).
      rewrite Hs, E2, R1, Nat.Div0.add_mod_idemp_l. f_equal. lia.
Qed.

(* ================================================================= *)
(** ** Capacity waits and backend rotation *)

(** C4, as the claim states it, fails: with five calls recorded in the
    last five seconds the worker finds no capacity at time 10, sleeps 5
    seconds and calls the backend at once; no second capacity check is
    made, and a check at time 15 would still report no capacity. *)
Lemma backend_called_without_recheck :
  snd (recognise world_coffee bottle_task saturated)
    = [QuotaChecked 10 false; Sleep 5; Generate "gemini-2.0-flash-exp" bottle_task]
  /\ calls_guarded true (snd (recognise world_coffee bottle_task saturated)) = false
  /\ snd (check_api_quota (10 + 5) saturated) = false.
Proof. vm_compute. repeat split; reflexivity. Qed.

(** C4, amended.  When the capacity check before an attempt reports no
    capacity, the pass logs that one check, one 5-second sleep and then
    the backend call, with no further check; the attempt counter moves
    only with the backend's answer (not at all on a response, by one on
    an error), so the wait itself does not count; and a task costs at
    most [len(valid_models)] backend calls, each preceded by exactly one
    capacity check. *)
Theorem capacity_wait_sleeps_once_then_calls
        (e : attempt_env) (t : task) (r : retry_state) (s : system) :
  snd (check_api_quota (check_time e) s) = false ->
  (exists rest,
      snd (attempt e t r s)
        = QuotaChecked (check_time e) false :: Sleep 5
            :: Generate (model_name s) t :: rest
      /\ quota_checks rest = 0%nat /\ generate_calls rest = 0%nat) /\
  attempts (fst (fst (attempt e t r s)))
    = (attempts r + match api_answer e with
                    | Response _ => 0 | ApiError _ => 1 end)%nat /\
  (forall env,
      (generate_calls (snd (recognise env t s)) <= List.length (valid_models s))%nat /\
      quota_checks (snd (recognise env t s)) = generate_calls (snd (recognise env t s))).
Proof.
  intros Hfull. split; [|split].
  - unfold check_api_quota in Hfull. cbn [snd] in Hfull.
    rewrite attempt_unfold. cbv zeta. rewrite Hfull.
    destruct (api_answer e) as [text|msg]; [|destruct (contains "429" msg)];
      cbn [snd app]; eexists; (split; [reflexivity|]); split; reflexivity.
  - destruct (attempt e t r s) as [[r1 s1] tr] eqn:E.
    apply attempt_counts in E. cbn [fst]. tauto.
  - intros env. unfold recognise.
    destruct (retry_loop _ env t _ _ s) as [[r' s'] tr] eqn:E.
    apply retry_loop_counts in E. cbn [snd attempts] in *.
    destruct E as (Hq & Hg & _). split; [lia | exact Hq].
Qed.

(** The amended statement on the saturated system: the wait leaves the
    attempt counter at 0, and three backends allow at most three calls. *)
Lemma capacity_wait_witness :
  snd (check_api_quota 10 saturated) = false /\
  attempts (fst (fst (attempt coffee_at_10 bottle_task fresh_retry saturated))) = 0%nat /\
  (generate_calls (snd (recognise world_all_429 bottle_task saturated)) <= 3)%nat.
Proof.
  split; [reflexivity|].
  pose proof (capacity_wait_sleeps_once_then_calls
                coffee_at_10 bottle_task fresh_retry saturated eq_refl) as H.
  split.
  - exact (proj1 (proj2 H)).
  - exact (proj1 (proj2 (proj2 H) world_all_429)).
Defined.

(** C5.  [switch_next_model] moves the index one place round the ring of
    valid backends, wrapping from the last to index 0.  In the retry
    loop the index moves exactly when the backend's error message
    carries "429": one pass switches once on such an answer and leaves
    the index alone on a response or on any other error, which ends the
    loop with the label "API錯誤".  Over the whole loop the number of
    switches is the number of capacity-exhausted answers met, and the
    final index is the initial one advanced that many places. *)
Theorem rotation_advances_once_per_429
        (env : nat -> attempt_env) (t : task) (s : system) :
  (current_model_index s < List.length (valid_models s))%nat ->
  let n := List.length (valid_models s) in
  (current_model_index (switch_next_model s)
     = ((current_model_index s + 1) mod n)%nat /\
   (current_model_index s = (n - 1)%nat ->
      current_model_index (switch_next_model s) = 0%nat) /\
   (S (current_model_index s) < n ->
      current_model_index (switch_next_model s) = S (current_model_index s))%nat /\
   model_name (switch_next_model s)
     = nth (current_model_index (switch_next_model s)) (valid_models s) "") /\
  (forall e r,
      let r1 := fst (fst (attempt e t r s)) in
      let s1 := snd (fst (attempt e t r s)) in
      let tr := snd (attempt e t r s) in
      match api_answer e with
      | Response _ =>
          current_model_index s1 = current_model_index s /\ switches tr = 0%nat
      | ApiError err_msg =>
          if contains "429" err_msg then
            current_model_index s1 = current_model_index (switch_next_model s) /\
            switches tr = 1%nat /\ stopped r1 = false
          else
            current_model_index s1 = current_model_index s /\
            switches tr = 0%nat /\ stopped r1 = true /\
            product_name r1 = "API錯誤"
      end) /\
  (let s' := snd (fst (recognise env t s)) in
   let tr := snd (recognise env t s) in
   switches tr = signals env (generate_calls tr) /\
   current_model_index s'
     = ((current_model_index s + signals env (generate_calls tr)) mod n)%nat /\
   (current_model_index s' < n)%nat).
Proof.
  intros Hidx n. split; [|split].
  - unfold switch_next_model. cbn. fold n. repeat split.
    + intros Hlast. rewrite Hlast.
      replace (n - 1 + 1)%nat with n by lia. apply Nat.Div0.mod_same.
    + intros Hnext. rewrite Nat.mod_small by lia. lia.
  - intros e r. cbv zeta. rewrite attempt_unfold. cbv zeta.
    destruct (api_answer e) as [text|msg]; [|destruct (contains "429" msg)];
      cbn [fst snd]; destruct (Z.of_nat _ <? MAX_RPM); count_events;
      repeat split.
  - cbv zeta. unfold recognise. fold n.
    destruct (retry_loop n env t n _ s) as [[r' s'] tr] eqn:E.
    cbn [fst snd].
    pose proof (retry_loop_counts _ _ _ _ _ _ _ _ _ E) as (_ & _ & _ & _ & Hsw).
    pose proof (retry_loop_rotation _ _ _ _ _ _ _ _ _ Hidx E) as (Hrot & Hlt).
    cbn [attempts] in Hsw. unfold signals. rewrite <- Hsw.
    repeat split; assumption.
Qed.

(** On three backends, two capacity-exhausted answers move the index from
    0 to 2, and three of them bring it back to 0. *)
Lemma rotation_witness :
  (current_model_index saturated < List.length (valid_models saturated))%nat /\
  switches (snd (recognise world_two_429 bottle_task saturated)) = 2%nat /\
  current_model_index (snd (fst (recognise world_two_429 bottle_task saturated))) = 2%nat /\
  current_model_index (snd (fst (recognise world_all_429 bottle_task saturated))) = 0%nat.
Proof.
  assert (Hidx : (current_model_index saturated
                  < List.length (valid_models saturated))%nat)
    by (vm_compute; lia).
  split; [exact Hidx|].
  pose proof (rotation_advances_once_per_429 world_two_429 bottle_task saturated Hidx) as H2.
  pose proof (rotation_advances_once_per_429 world_all_429 bottle_task saturated Hidx) as H3.
  cbv zeta in H2, H3.
  destruct H2 as (_ & _ & Hsw & Hrot & _).
  destruct H3 as (_ & _ & _ & Hrot3 & _).
  split; [exact Hsw|]. split; [exact Hrot | exact Hrot3].
Defined.

(* ================================================================= *)
(** ** Dict facts *)

Section DictFacts.
Context {V : Type}.
Implicit Types (d : list (Z * V)) (k : Z) (f : V -> V).

Lemma dict_get_modify k k' f d :
  dict_get k (dict_modify k' f d)
  = if k =? k' then option_map f (dict_get k d) else dict_get k d.
Proof.
  induction d as [|[k0 v0] d IH]; cbn.
  - now destruct (k =? k').
  - destruct (k' =? k0) eqn:E1; cbn; destruct (k =? k0) eqn:E2;
      destruct (k =? k') eqn:E3; try reflexivity; try exact IH;
      rewrite ?Z.eqb_eq, ?Z.eqb_neq in *; lia.
Qed.

Lemma dict_get_modify_same k f d :
  dict_get k (dict_modify k f d) = option_map f (dict_get k d).
Proof. now rewrite dict_get_modify, Z.eqb_refl. Qed.

Lemma dict_get_modify_other k k' f d :
  k <> k' -> dict_get k (dict_modify k' f d) = dict_get k d.
Proof.
  intros H. rewrite dict_get_modify.
  apply Z.eqb_neq in H. now rewrite H.
Qed.

Lemma dict_get_add k k' (v : V) d :
  dict_get k (dict_add k' v d)
  = match dict_get k d with
    | Some x => Some x
    | None => if k =? k' then Some v else None
    end.
Proof.
  unfold dict_add. induction d as [|[k0 v0] d IH]; cbn; [reflexivity|].
  destruct (k =? k0); [reflexivity | exact IH].
Qed.

Lemma dict_get_del k k' d :
  dict_get k (dict_del k' d) = if k =? k' then None else dict_get k d.
Proof.
  unfold dict_del. induction d as [|[k0 v0] d IH]; cbn.
  - now destruct (k =? k').
  - destruct (k' =? k0) eqn:E1; cbn.
    + rewrite IH. destruct (k =? k') eqn:E2; [reflexivity|].
      destruct (k =? k0) eqn:E3; [|reflexivity].
      rewrite ?Z.eqb_eq, ?Z.eqb_neq in *. lia.
    + rewrite IH. destruct (k =? k0) eqn:E3; [|reflexivity].
      destruct (k =? k') eqn:E2; [|reflexivity].
      rewrite ?Z.eqb_eq, ?Z.eqb_neq in *. lia.
Qed.

Lemma dict_keys_modify k f d : dict_keys (dict_modify k f d) = dict_keys d.
Proof.
  unfold dict_keys, dict_modify. rewrite map_map. apply map_ext.
  intros [k0 v0]; cbn. now destruct (k =? k0).
Qed.

Lemma dict_keys_add k (v : V) d : dict_keys (dict_add k v d) = dict_keys d ++ [k].
Proof. unfold dict_keys, dict_add. now rewrite map_app. Qed.

Lemma dict_keys_del k d :
  dict_keys (dict_del k d) = filter (fun k0 => negb (k =? k0)) (dict_keys d).
Proof.
  unfold dict_keys, dict_del. induction d as [|[k0 v0] d IH]; cbn; [reflexivity|].
  destruct (k =? k0); cbn; now rewrite IH.
Qed.

Lemma dict_get_None k d : dict_get k d = None <-> ~ In k (dict_keys d).
Proof.
  induction d as [|[k0 v0] d IH]; cbn; [tauto|].
  destruct (k =? k0) eqn:E.
  - apply Z.eqb_eq in E. split; [discriminate | intros H; exfalso; apply H; auto].
  - apply Z.eqb_neq in E. rewrite IH. split.
    + intros H [H'|H']; [congruence | contradiction].
    + intros H H'. apply H. now right.
Qed.

Lemma dict_has_true k d : dict_has k d = true <-> In k (dict_keys d).
Proof.
  unfold dict_has. pose proof (dict_get_None k d) as H.
  destruct (dict_get k d).
  - split; [intros _ | reflexivity].
    destruct (in_dec Z.eq_dec k (dict_keys d)) as [Hin|Hn]; [exact Hin|].
    apply H in Hn. discriminate.
  - split; [discriminate|]. intros Hin. exfalso. now apply (proj1 H).
Qed.

Lemma dict_has_false k d : dict_has k d = false <-> dict_get k d = None.
Proof. unfold dict_has. destruct (dict_get k d); split; congruence. Qed.

Lemma dict_modify_absent k f d : dict_get k d = None -> dict_modify k f d = d.
Proof.
  unfold dict_modify. induction d as [|[k0 v0] d IH]; cbn; [reflexivity|].
  destruct (k =? k0); [discriminate|]. intros H. now rewrite IH.
Qed.

Lemma NoDup_keys_add k (v : V) d :
  dict_get k d = None -> NoDup (dict_keys d) -> NoDup (dict_keys (dict_add k v d)).
Proof.
  intros Hk Hd. rewrite dict_keys_add. apply dict_get_None in Hk.
  apply NoDup_app; [exact Hd | repeat constructor; intros [] |].
  intros x Hx [Hx'|[]]. subst. contradiction.
Qed.

Lemma NoDup_keys_del k d : NoDup (dict_keys d) -> NoDup (dict_keys (dict_del k d)).
Proof. rewrite dict_keys_del. apply NoDup_filter. Qed.
End DictFacts.

(* ================================================================= *)
(** ** The worker and the registry *)

Lemma recognise_frame (env : nat -> attempt_env) (t : task) (s : system) :
  object_database (snd (fst (recognise env t s))) = object_database s /\
  task_queue (snd (fst (recognise env t s))) = task_queue s /\
  is_connected (snd (fst (recognise env t s))) = is_connected s /\
  valid_models (snd (fst (recognise env t s))) = valid_models s /\
  Forall loop_event (snd (recognise env t s)).
Proof.
  unfold recognise.
  destruct (retry_loop _ env t _ _ s) as [[r' s'] tr] eqn:E.
  apply retry_loop_frame in E. exact E.
Qed.

Lemma write_back_get (id id' : Z) (result : string) (s : system) :
  dict_get id' (object_database (write_back id result s))
  = if id' =? id
    then option_map (finished result) (dict_get id' (object_database s))
    else dict_get id' (object_database s).
Proof.
  unfold write_back. destruct (dict_has id (object_database s)) eqn:E; cbn.
  - apply dict_get_modify.
  - apply dict_has_false in E. destruct (id' =? id) eqn:E'; [|reflexivity].
    apply Z.eqb_eq in E'. subst. now rewrite E.
Qed.

Lemma publish_result_frame (emit_ok : bool) (result : string) (s : system) :
  object_database (fst (publish_result emit_ok result s)) = object_database s /\
  task_queue (fst (publish_result emit_ok result s)) = task_queue s /\
  Forall (fun e => match e with Emit _ | Reconnect => True | _ => False end)
         (snd (publish_result emit_ok result s)).
Proof.
  unfold publish_result.
  destruct (is_connected s && publishable result); [destruct emit_ok|];
    cbn; repeat split; repeat constructor.
Qed.



(** An object evicted while the worker was recognising it: the write-back
    finds the id gone and leaves the registry empty.  The result is
    still announced downstream, since line 245 does not look at the
    registry, while the eviction itself sent no removal for the
    placeholder label. *)
Example result_of_evicted_object :
  object_database (fst (run evicted_meanwhile leaving)) = [] /\
  filter (fun e => match e with Emit _ | Evicted _ => true | _ => false end)
         (snd (run evicted_meanwhile leaving))
    = [Evicted 7; Emit (detect_payload "CoffeeCo")].
Proof. vm_compute. split; reflexivity. Qed.

(* ================================================================= *)
(** ** One detection: tracking and the dispatch gate *)

Lemma existsb_eqb_In (k : Z) (l : list Z) : existsb (Z.eqb k) l = true <-> In k l.
Proof.
  rewrite existsb_exists. split.
  - intros [x [Hin Heq]]. apply Z.eqb_eq in Heq. now subst.
  - intros Hin. exists k. split; [exact Hin | apply Z.eqb_refl].
Qed.

Lemma lifecycle_eqb_eq (a b : lifecycle) : lifecycle_eqb a b = true <-> a = b.
Proof. destruct a, b; cbn; split; congruence. Qed.

Lemma track_get (d : detection) (db : list (Z * object_data)) (id : Z) :
  dict_get id (track d db)
  = if id =? track_id d then Some (entry_after_track d db) else dict_get id db.
Proof.
  unfold track, entry_after_track.
  destruct (dict_has (track_id d) db) eqn:Hhas.
  - rewrite dict_get_modify. destruct (id =? track_id d) eqn:E; [|reflexivity].
    apply Z.eqb_eq in E. subst id. unfold dict_has in Hhas.
    destruct (dict_get (track_id d) db); [reflexivity | discriminate].
  - apply dict_has_false in Hhas.
    rewrite dict_get_modify, dict_get_add.
    destruct (id =? track_id d) eqn:E.
    + apply Z.eqb_eq in E. subst id. now rewrite Hhas.
    + now destruct (dict_get id db).
Qed.

Lemma track_keys (d : detection) (db : list (Z * object_data)) :
  dict_keys (track d db)
  = dict_keys db ++ (if dict_has (track_id d) db then [] else [track_id d]).
Proof.
  unfold track. rewrite dict_keys_modify.
  destruct (dict_has (track_id d) db).
  - now rewrite app_nil_r.
  - apply dict_keys_add.
Qed.

Lemma track_NoDup (d : detection) (db : list (Z * object_data)) :
  NoDup (dict_keys db) -> NoDup (dict_keys (track d db)).
Proof.
  intros H. unfold track. rewrite dict_keys_modify.
  destruct (dict_has (track_id d) db) eqn:Hhas; [exact H|].
  apply NoDup_keys_add; [now apply dict_has_false | exact H].
Qed.

Lemma dispatch_cases (h w : Z) (clk : gate_clock) (d : detection) (s : system)
      (obj_data : object_data) :
  dict_get (track_id d) (object_database s) = Some obj_data ->
  let kept := filter (in_window (quota_time clk)) (api_history s) in
  let t := mk_task (track_id d) (crop_of h w d) (yolo_raw_name d) in
  dispatch h w clk d s =
  if gate_open clk d s obj_data then
    (mk_system (dict_modify (track_id d) dispatched (object_database s))
               (task_queue s ++ [t]) (kept ++ [reserve_time clk])
               (is_connected s) (valid_models s) (current_model_index s)
               (model_name s),
     [Enqueued t])
  else
    (if lifecycle_eqb (status obj_data) pending
        && (STABILITY_FRAMES <? frame_count obj_data)
     then with_api_history kept s else s,
     []).
Proof.
  intros Hget. cbv zeta. unfold dispatch, gate_open. rewrite Hget.
  destruct (lifecycle_eqb (status obj_data) pending
            && (STABILITY_FRAMES <? frame_count obj_data)); cbn [andb];
    [|reflexivity].
  unfold check_api_quota. cbn [snd].
  destruct (Z.of_nat _ <? MAX_RPM); cbn [andb]; [|reflexivity].
  destruct (large_enough d); reflexivity.
Qed.

(** What one pass of the detection loop does, field by field. *)
Lemma process_detection_cases (h w : Z) (d : detection) (clk : gate_clock) (s : system) :
  let obj_data := entry_after_track d (object_database s) in
  let tracked := with_object_database (track d (object_database s)) s in
  let kept := filter (in_window (quota_time clk)) (api_history s) in
  let t := mk_task (track_id d) (crop_of h w d) (yolo_raw_name d) in
  process_detection h w (d, clk) s =
  if gate_open clk d tracked obj_data then
    (mk_system (dict_modify (track_id d) dispatched (track d (object_database s)))
               (task_queue s ++ [t]) (kept ++ [reserve_time clk])
               (is_connected s) (valid_models s) (current_model_index s)
               (model_name s),
     [Enqueued t])
  else
    (if lifecycle_eqb (status obj_data) pending
        && (STABILITY_FRAMES <? frame_count obj_data)
     then with_api_history kept tracked else tracked,
     []).
Proof.
  cbv zeta. unfold process_detection. cbn [fst snd].
  rewrite (dispatch_cases h w clk d _ (entry_after_track d (object_database s))).
  - reflexivity.
  - cbn [object_database with_object_database]. now rewrite track_get, Z.eqb_refl.
Qed.

Lemma process_detection_get (h w : Z) (dc : detection * gate_clock) (s : system) (id : Z) :
  dict_get id (object_database (fst (process_detection h w dc s)))
  = if id =? track_id (fst dc)
    then Some (let o := entry_after_track (fst dc) (object_database s) in
               if gate_open (snd dc) (fst dc)
                    (with_object_database (track (fst dc) (object_database s)) s) o
               then dispatched o else o)
    else dict_get id (object_database s).
Proof.
  destruct dc as [d clk]. rewrite process_detection_cases. cbv zeta. cbn [fst snd].
  destruct (gate_open _ _ _ _); cbn [fst object_database].
  - rewrite dict_get_modify, track_get.
    destruct (id =? track_id d); reflexivity.
  - destruct (_ && _); cbn [object_database with_api_history with_object_database];
      apply track_get.
Qed.

Lemma process_detection_frame (h w : Z) (dc : detection * gate_clock) (s : system) :
  is_connected (fst (process_detection h w dc s)) = is_connected s /\
  dict_keys (object_database (fst (process_detection h w dc s)))
    = dict_keys (track (fst dc) (object_database s)) /\
  (snd (process_detection h w dc s) = []
   \/ exists t, task_id t = track_id (fst dc)
                /\ snd (process_detection h w dc s) = [Enqueued t]).
Proof.
  destruct dc as [d clk]. rewrite process_detection_cases. cbv zeta. cbn [fst snd].
  destruct (gate_open _ _ _ _); cbn [fst snd object_database is_connected].
  - rewrite dict_keys_modify. repeat split. right. eexists. split; [|reflexivity].
    reflexivity.
  - destruct (_ && _); cbn; repeat split; now left.
Qed.

Lemma gate_open_spec (clk : gate_clock) (d : detection) (s : system)
      (obj_data : object_data) :
  gate_open clk d (with_object_database (track d (object_database s)) s) obj_data = true
  <-> (status obj_data = pending /\ STABILITY_FRAMES < frame_count obj_data
       /\ 80 < x2 d - x1 d /\ 80 < y2 d - y1 d
       /\ snd (check_api_quota (quota_time clk) s) = true).
Proof.
  unfold gate_open, large_enough, check_api_quota.
  cbn [snd api_history with_object_database].
  rewrite !andb_true_iff, lifecycle_eqb_eq, !Z.ltb_lt. tauto.
Qed.

(** C2.  In one pass of the detection loop, with [obj_data] the entry as
    lines 300-311 leave it (its [frame_count] already incremented), the
    object is dispatched exactly when it is pending, its [frame_count]
    exceeds [STABILITY_FRAMES], its box is more than 80 wide and more
    than 80 high, and [check_api_quota] reports capacity.  A dispatch
    appends the reservation timestamp to the pruned history, sets the
    status to sending and the label to "Thinking...", and puts one task
    at the end of the queue.  Otherwise nothing is queued, no timestamp
    is appended and the entry, a pending one included, keeps its status. *)
Theorem dispatch_exactly_when_gate_open
        (h w : Z) (d : detection) (clk : gate_clock) (s : system) :
  let obj_data := entry_after_track d (object_database s) in
  let s' := fst (process_detection h w (d, clk) s) in
  let tr := snd (process_detection h w (d, clk) s) in
  let t := mk_task (track_id d) (crop_of h w d) (yolo_raw_name d) in
  let kept := filter (in_window (quota_time clk)) (api_history s) in
  let gate := status obj_data = pending /\ STABILITY_FRAMES < frame_count obj_data
              /\ 80 < x2 d - x1 d /\ 80 < y2 d - y1 d
              /\ snd (check_api_quota (quota_time clk) s) = true in
  frame_count obj_data
    = match dict_get (track_id d) (object_database s) with
      | Some o => frame_count o + 1
      | None => 1
      end /\
  status obj_data
    = match dict_get (track_id d) (object_database s) with
      | Some o => status o
      | None => pending
      end /\
  (enqueues (track_id d) tr = 1%nat <-> gate) /\
  (gate ->
     tr = [Enqueued t] /\
     task_queue s' = task_queue s ++ [t] /\
     api_history s' = kept ++ [reserve_time clk] /\
     dict_get (track_id d) (object_database s') = Some (dispatched obj_data) /\
     status (dispatched obj_data) = sending /\
     gemini_name (dispatched obj_data) = "Thinking...") /\
  (~ gate ->
     tr = [] /\
     task_queue s' = task_queue s /\
     (api_history s' = api_history s \/ api_history s' = kept) /\
     dict_get (track_id d) (object_database s') = Some obj_data).
Proof.
  cbv zeta.
  split; [unfold entry_after_track;
          destruct (dict_get (track_id d) (object_database s)); reflexivity|].
  split; [unfold entry_after_track;
          destruct (dict_get (track_id d) (object_database s)); reflexivity|].
  rewrite <- gate_open_spec.
  rewrite process_detection_get, process_detection_cases.
  cbv zeta. cbn [fst snd]. rewrite Z.eqb_refl.
  destruct (gate_open clk d _ _) eqn:Hgate; cbn [fst snd task_queue api_history].
  - split; [unfold enqueues; cbn; rewrite Z.eqb_refl; cbn; tauto|].
    split; [intros _; repeat split | intros H; now elim H].
  - split; [unfold enqueues; cbn; split; [discriminate | discriminate]|].
    split; [discriminate|]. intros _.
    destruct (_ && _); cbn; repeat split; auto.
Qed.

(** Object 7 at its 21st frame with a 100 x 100 box: dispatched when the
    quota has capacity, left pending when five calls were just recorded. *)
Lemma dispatch_gate_witness :
  snd (process_detection 480 640 (bottle_box, clock_at 100) three_objects)
    = [Enqueued (mk_task 7 (mk_crop 100 200 100 200) "bottle")] /\
  snd (process_detection 480 640 (bottle_box, clock_at 10) throttled) = [] /\
  dict_get 7 (object_database
                (fst (process_detection 480 640 (bottle_box, clock_at 10) throttled)))
    = Some (mk_object "bottle" "" pending 21 0).
Proof.
  pose proof (dispatch_exactly_when_gate_open
                480 640 bottle_box (clock_at 100) three_objects) as Hopen.
  pose proof (dispatch_exactly_when_gate_open
                480 640 bottle_box (clock_at 10) throttled) as Hshut.
  cbv zeta in Hopen, Hshut.
  destruct Hopen as (_ & _ & _ & Hyes & _).
  destruct Hshut as (_ & _ & _ & _ & Hno).
  split.
  - apply Hyes. repeat split; reflexivity.
  - assert (Hgate : ~ (status (entry_after_track bottle_box (object_database throttled))
                       = pending
                       /\ STABILITY_FRAMES
                          < frame_count (entry_after_track bottle_box
                                           (object_database throttled))
                       /\ 80 < x2 bottle_box - x1 bottle_box
                       /\ 80 < y2 bottle_box - y1 bottle_box
                       /\ snd (check_api_quota (quota_time (clock_at 10)) throttled)
                          = true)).
    { intros (_ & _ & _ & _ & Hq). vm_compute in Hq. discriminate Hq. }
    destruct (Hno Hgate) as (Htr & _ & _ & Hget).
    split; [exact Htr | exact Hget].
Defined.

(* ================================================================= *)
(** ** The detection loop *)

Lemma for_each_cons {A : Type} (body : A -> system -> system * list event)
      (x : A) (xs : list A) (s : system) :
  fst (for_each body (x :: xs) s) = fst (for_each body xs (fst (body x s))) /\
  snd (for_each body (x :: xs) s)
    = snd (body x s) ++ snd (for_each body xs (fst (body x s))).
Proof.
  cbn [for_each]. destruct (body x s) as [s1 tr1]. cbn [fst snd].
  destruct (for_each body xs s1) as [s2 tr2]. split; reflexivity.
Qed.

Lemma for_each_app {A : Type} (body : A -> system -> system * list event)
      (xs ys : list A) (s : system) :
  fst (for_each body (xs ++ ys) s) = fst (for_each body ys (fst (for_each body xs s))) /\
  snd (for_each body (xs ++ ys) s)
    = snd (for_each body xs s) ++ snd (for_each body ys (fst (for_each body xs s))).
Proof.
  revert s. induction xs as [|x xs IH]; intros s; [split; reflexivity|].
  rewrite <- app_comm_cons.
  destruct (for_each_cons body x (xs ++ ys) s) as [-> ->].
  destruct (for_each_cons body x xs s) as [-> ->].
  destruct (IH (fst (body x s))) as [-> ->].
  split; [reflexivity | now rewrite app_assoc].
Qed.

Lemma detect_loop_frame (h w : Z) (dets : list (detection * gate_clock)) :
  forall s,
    is_connected (fst (for_each (process_detection h w) dets s)) = is_connected s /\
    (NoDup (dict_keys (object_database s)) ->
     NoDup (dict_keys (object_database (fst (for_each (process_detection h w) dets s))))) /\
    Forall put_event (snd (for_each (process_detection h w) dets s)).
Proof.
  induction dets as [|dc dets IH]; intros s.
  - cbn. repeat split; [tauto | constructor].
  - destruct (for_each_cons (process_detection h w) dc dets s) as [-> ->].
    destruct (IH (fst (process_detection h w dc s))) as (C & N & F).
    destruct (process_detection_frame h w dc s) as (C1 & K1 & T1).
    split; [congruence|]. split.
    + intros Hnd. apply N. rewrite K1. now apply track_NoDup.
    + apply Forall_app. split; [|exact F].
      destruct T1 as [-> | [t [_ ->]]]; repeat constructor.
Qed.

Lemma detect_loop_other (h w : Z) (dets : list (detection * gate_clock)) (id : Z) :
  forall s,
    ~ In id (frame_ids dets) ->
    dict_get id (object_database (fst (for_each (process_detection h w) dets s)))
    = dict_get id (object_database s).
Proof.
  induction dets as [|dc dets IH]; intros s Hnot; [reflexivity|].
  destruct (for_each_cons (process_detection h w) dc dets s) as [-> _].
  cbn in Hnot. rewrite IH by tauto.
  rewrite process_detection_get.
  destruct (id =? track_id (fst dc)) eqn:E; [|reflexivity].
  apply Z.eqb_eq in E. exfalso. apply Hnot. left. now symmetry.
Qed.

(** Presence counters of an object across the detection loop: one
    increment of [frame_count] per row carrying its id, and
    [missing_count] reset by each of them. *)
Lemma detect_loop_counters (h w : Z) (dets : list (detection * gate_clock)) (id : Z) :
  forall s o,
    dict_get id (object_database s) = Some o ->
    exists o',
      dict_get id (object_database (fst (for_each (process_detection h w) dets s)))
        = Some o' /\
      frame_count o'
        = frame_count o + Z.of_nat (count_occ Z.eq_dec (frame_ids dets) id) /\
      (In id (frame_ids dets) -> missing_count o' = 0) /\
      (~ In id (frame_ids dets) -> o' = o) /\
      yolo_name o' = yolo_name o.
Proof.
  induction dets as [|dc dets IH]; intros s o Hget.
  - exists o. cbn. repeat split; try tauto. lia.
  - destruct (for_each_cons (process_detection h w) dc dets s) as [-> _].
    pose proof (process_detection_get h w dc s id) as H1.
    cbn [frame_ids map count_occ In]. fold (frame_ids dets).
    destruct (id =? track_id (fst dc)) eqn:E.
    + apply Z.eqb_eq in E. subst id.
      destruct (Z.eq_dec (track_id (fst dc)) (track_id (fst dc))) as [_|Hne];
        [|now elim Hne].
      cbv zeta in H1. unfold entry_after_track in H1. rewrite Hget in H1.
      set (o1 := if gate_open _ _ _ _ then dispatched (seen o) else seen o) in H1.
      assert (Ho1 : frame_count o1 = frame_count o + 1
                    /\ missing_count o1 = 0 /\ yolo_name o1 = yolo_name o)
        by (unfold o1; destruct (gate_open _ _ _ _); cbn; auto).
      destruct Ho1 as (F1 & M1 & Y1).
      destruct (IH _ _ H1) as (o' & G & F & Min & Mout & Y).
      exists o'. split; [exact G|]. split; [rewrite F, F1; lia|].
      split.
      * intros _.
        destruct (in_dec Z.eq_dec (track_id (fst dc)) (frame_ids dets)) as [Hin|Hn].
        -- now apply Min.
        -- now rewrite (Mout Hn).
      * split; [intros Hn; exfalso; apply Hn; now left | congruence].
    + apply Z.eqb_neq in E.
      destruct (Z.eq_dec (track_id (fst dc)) id) as [Heq|_]; [now elim E|].
      rewrite Hget in H1.
      destruct (IH _ _ H1) as (o' & G & F & Min & Mout & Y).
      exists o'. split; [exact G|]. split; [exact F|].
      split; [intros [Heq|Hin]; [now elim E | now apply Min]|].
      split; [intros Hn; apply Mout; tauto | exact Y].
Qed.

(** An id seen in the frame is in the registry after the loop, with
    [missing_count] zero. *)
Lemma detect_loop_present (h w : Z) (dets : list (detection * gate_clock)) (id : Z) :
  forall s,
    In id (frame_ids dets) ->
    exists o',
      dict_get id (object_database (fst (for_each (process_detection h w) dets s)))
        = Some o' /\ missing_count o' = 0.
Proof.
  induction dets as [|dc dets IH]; intros s Hin; [contradiction|].
  destruct (for_each_cons (process_detection h w) dc dets s) as [-> _].
  destruct (in_dec Z.eq_dec id (frame_ids dets)) as [Hlater|Hnot].
  - now apply IH.
  - destruct Hin as [Heq|Hin]; [|contradiction].
    rewrite detect_loop_other by assumption.
    rewrite process_detection_get. rewrite <- Heq, Z.eqb_refl.
    eexists. split; [reflexivity|]. cbv zeta.
    destruct (gate_open _ _ _ _); reflexivity.
Qed.

(* ================================================================= *)
(** ** The eviction sweep *)

Lemma sweep_one_get (cur : list Z) (k : Z) (s : system) (id : Z) :
  dict_get id (object_database (fst (sweep_one cur k s)))
  = if id =? k then sweep_entry cur k (dict_get id (object_database s))
    else dict_get id (object_database s).
Proof.
  unfold sweep_one, sweep_entry.
  destruct (existsb (Z.eqb k) cur); cbn [fst].
  - now destruct (id =? k).
  - rewrite dict_get_modify_same.
    destruct (id =? k) eqn:E.
    + apply Z.eqb_eq in E. subst id.
      destruct (dict_get k (object_database s)) as [o|] eqn:Hk; cbn [option_map].
      * cbn [missed missing_count set_missing_count].
        destruct (MAX_MISSING_FRAMES <? missing_count o + 1);
          cbn [fst object_database with_object_database].
        -- now rewrite dict_get_del, Z.eqb_refl.
        -- now rewrite dict_get_modify_same, Hk.
      * cbn [fst object_database with_object_database].
        now rewrite dict_get_modify_same, Hk.
    + assert (Hne : id <> k) by now apply Z.eqb_neq.
      destruct (dict_get k (object_database s)) as [o|]; cbn [option_map].
      * cbn [missed missing_count set_missing_count].
        destruct (MAX_MISSING_FRAMES <? missing_count o + 1);
          cbn [fst object_database with_object_database].
        -- rewrite dict_get_del, E. now apply dict_get_modify_other.
        -- now apply dict_get_modify_other.
      * cbn [fst object_database with_object_database].
        now apply dict_get_modify_other.
Qed.

Lemma sweep_one_events (cur : list Z) (k : Z) (s : system) :
  snd (sweep_one cur k s)
  = sweep_events cur (is_connected s) k (dict_get k (object_database s)).
Proof.
  unfold sweep_one, sweep_events.
  destruct (existsb (Z.eqb k) cur); [reflexivity|].
  rewrite dict_get_modify_same.
  destruct (dict_get k (object_database s)) as [o|]; cbn [option_map]; [|reflexivity].
  cbn [missed missing_count set_missing_count gemini_name].
  now destruct (MAX_MISSING_FRAMES <? missing_count o + 1).
Qed.

Lemma sweep_one_frame (cur : list Z) (k : Z) (s : system) :
  is_connected (fst (sweep_one cur k s)) = is_connected s /\
  task_queue (fst (sweep_one cur k s)) = task_queue s /\
  api_history (fst (sweep_one cur k s)) = api_history s.
Proof.
  unfold sweep_one. destruct (existsb (Z.eqb k) cur); [now cbn|].
  destruct (dict_get k _) as [o|]; [|now cbn].
  destruct (MAX_MISSING_FRAMES <? missing_count o); now cbn.
Qed.

Lemma flat_map_ext_on {A B : Type} (f g : A -> list B) (l : list A) :
  (forall a, In a l -> f a = g a) -> flat_map f l = flat_map g l.
Proof.
  induction l as [|a l IH]; intros H; [reflexivity|]. cbn.
  rewrite (H a) by now left. rewrite IH; [reflexivity|].
  intros b Hb. apply H. now right.
Qed.

(** The sweep over a duplicate-free list of keys treats every key once,
    on the entry it had before the sweep. *)
Lemma sweep_loop_get (cur : list Z) (ks : list Z) (id : Z) :
  forall s,
    NoDup ks ->
    dict_get id (object_database (fst (for_each (sweep_one cur) ks s)))
    = if existsb (Z.eqb id) ks
      then sweep_entry cur id (dict_get id (object_database s))
      else dict_get id (object_database s).
Proof.
  induction ks as [|k ks IH]; intros s Hnd; [reflexivity|].
  destruct (for_each_cons (sweep_one cur) k ks s) as [-> _].
  inversion Hnd as [|? ? Hk Hks]; subst.
  rewrite IH by assumption. rewrite sweep_one_get. cbn [existsb].
  destruct (id =? k) eqn:E; cbn [orb]; [|reflexivity].
  apply Z.eqb_eq in E. subst id.
  destruct (existsb (Z.eqb k) ks) eqn:Hin; [|reflexivity].
  apply existsb_eqb_In in Hin. contradiction.
Qed.

Lemma sweep_loop_connected (cur : list Z) (ks : list Z) :
  forall s, is_connected (fst (for_each (sweep_one cur) ks s)) = is_connected s.
Proof.
  induction ks as [|k ks IH]; intros s; [reflexivity|].
  destruct (for_each_cons (sweep_one cur) k ks s) as [-> _].
  rewrite IH. apply sweep_one_frame.
Qed.

Lemma sweep_loop_events (cur : list Z) (ks : list Z) :
  forall s,
    NoDup ks ->
    snd (for_each (sweep_one cur) ks s)
    = flat_map (fun k => sweep_events cur (is_connected s) k
                           (dict_get k (object_database s))) ks.
Proof.
  induction ks as [|k ks IH]; intros s Hnd; [reflexivity|].
  destruct (for_each_cons (sweep_one cur) k ks s) as [_ ->].
  inversion Hnd as [|? ? Hk Hks]; subst.
  rewrite IH by assumption. rewrite sweep_one_events. cbn [flat_map].
  f_equal. apply flat_map_ext_on. intros k' Hk'.
  rewrite sweep_one_get.
  destruct (k' =? k) eqn:E.
  - apply Z.eqb_eq in E. subst k'. contradiction.
  - f_equal. apply sweep_one_frame.
Qed.

(** Events logged for a key other than [id] never report [id] evicted. *)
Lemma sweep_events_other (cur : list Z) (connected : bool) (k id : Z)
      (entry : option object_data) :
  k <> id -> ~ In (Evicted id) (sweep_events cur connected k entry).
Proof.
  intros Hne. unfold sweep_events, removal_notice.
  destruct (existsb _ _); [intros []|].
  destruct entry as [o|]; [|intros []].
  destruct (_ <? _); [|intros []].
  destruct (_ && _); cbn; intros H;
    repeat (destruct H as [H|H]; [try discriminate; inversion H; contradiction|]);
    exact H.
Qed.

Lemma process_frame_unfold (h w : Z) (dets : list (detection * gate_clock)) (s : system) :
  let s1 := fst (for_each (process_detection h w) dets s) in
  fst (process_frame h w dets s) = fst (sweep_missing (frame_ids dets) s1) /\
  snd (process_frame h w dets s)
    = snd (for_each (process_detection h w) dets s)
      ++ snd (sweep_missing (frame_ids dets) s1).
Proof.
  cbv zeta. unfold process_frame.
  destruct (for_each (process_detection h w) dets s) as [s1 tr1]. cbn [fst snd].
  destruct (sweep_missing (frame_ids dets) s1) as [s2 tr2]. split; reflexivity.
Qed.

(** The registry after a frame pass, entry by entry. *)
Lemma process_frame_get (h w : Z) (dets : list (detection * gate_clock))
      (s : system) (id : Z) :
  NoDup (dict_keys (object_database s)) ->
  let s1 := fst (for_each (process_detection h w) dets s) in
  dict_get id (object_database (fst (process_frame h w dets s)))
  = sweep_entry (frame_ids dets) id (dict_get id (object_database s1)).
Proof.
  intros Hnd. cbv zeta.
  destruct (process_frame_unfold h w dets s) as [-> _].
  unfold sweep_missing. rewrite sweep_loop_get.
  - destruct (existsb _ (dict_keys _)) eqn:Hin; [reflexivity|].
    assert (Hnone : dict_get id (object_database
                      (fst (for_each (process_detection h w) dets s))) = None).
    { apply dict_get_None. intros Hc. apply existsb_eqb_In in Hc. congruence. }
    rewrite Hnone. unfold sweep_entry. now destruct (existsb _ (frame_ids dets)).
  - now apply detect_loop_frame.
Qed.

(* ================================================================= *)
(** ** A whole frame pass *)

(** An object the frame does not show: one more missing frame, and
    eviction past the threshold. *)
Lemma process_frame_absent (h w : Z) (dets : list (detection * gate_clock))
      (s : system) (id : Z) (o : object_data) :
  NoDup (dict_keys (object_database s)) ->
  dict_get id (object_database s) = Some o ->
  ~ In id (frame_ids dets) ->
  dict_get id (object_database (fst (process_frame h w dets s)))
  = if MAX_MISSING_FRAMES <? missing_count o + 1 then None else Some (missed o).
Proof.
  intros Hnd Hget Hout.
  rewrite (process_frame_get h w dets s id Hnd). cbv zeta.
  rewrite detect_loop_other, Hget by assumption. unfold sweep_entry.
  destruct (existsb (Z.eqb id) (frame_ids dets)) eqn:Hin; [|reflexivity].
  apply existsb_eqb_In in Hin. contradiction.
Qed.

(** C8.  In one frame pass an object already in the registry is handled
    on exactly one of two paths.  If its id is among the detections its
    [missing_count] is reset to 0 and its [frame_count] grows by one per
    row carrying the id (so by at least one), and it is not evicted.
    Otherwise its [frame_count] is left alone and its [missing_count]
    grows by one, after which it is evicted if the count exceeds
    [MAX_MISSING_FRAMES].  So no pass increments both counters. *)
Theorem counters_exclusive_per_frame
        (h w : Z) (dets : list (detection * gate_clock)) (s : system)
        (id : Z) (o : object_data) :
  NoDup (dict_keys (object_database s)) ->
  dict_get id (object_database s) = Some o ->
  let s' := fst (process_frame h w dets s) in
  (In id (frame_ids dets) ->
     exists o',
       dict_get id (object_database s') = Some o' /\
       missing_count o' = 0 /\
       frame_count o'
         = frame_count o + Z.of_nat (count_occ Z.eq_dec (frame_ids dets) id) /\
       frame_count o < frame_count o') /\
  (~ In id (frame_ids dets) ->
     (MAX_MISSING_FRAMES < missing_count o + 1 /\
      dict_get id (object_database s') = None)
     \/ (missing_count o + 1 <= MAX_MISSING_FRAMES /\
         dict_get id (object_database s') = Some (missed o) /\
         missing_count (missed o) = missing_count o + 1 /\
         frame_count (missed o) = frame_count o)) /\
  (0 <= missing_count o ->
   forall o', dict_get id (object_database s') = Some o' ->
              ~ (frame_count o < frame_count o' /\ missing_count o < missing_count o')).
Proof.
  intros Hnd Hget. cbv zeta.
  rewrite (process_frame_get h w dets s id Hnd). cbv zeta.
  destruct (detect_loop_counters h w dets id s o Hget)
    as (o1 & G1 & F1 & Min & Mout & _).
  rewrite G1. unfold sweep_entry.
  destruct (existsb (Z.eqb id) (frame_ids dets)) eqn:Hin.
  - apply existsb_eqb_In in Hin. specialize (Min Hin).
    assert (Hocc : (0 < count_occ Z.eq_dec (frame_ids dets) id)%nat)
      by now apply count_occ_In.
    split; [|split].
    + intros _. exists o1. repeat split; try assumption. lia.
    + intros Hn. contradiction.
    + intros Hpos o' Ho'. inversion Ho'; subst o'. lia.
  - assert (Hn : ~ In id (frame_ids dets)).
    { intros Hc. apply existsb_eqb_In in Hc. congruence. }
    rewrite (Mout Hn).
    destruct (MAX_MISSING_FRAMES <? missing_count o + 1) eqn:Hover.
    + apply Z.ltb_lt in Hover. split; [|split].
      * intros Hc. contradiction.
      * intros _. left. split; [exact Hover | reflexivity].
      * intros _ o' Ho'. discriminate.
    + apply Z.ltb_ge in Hover. split; [|split].
      * intros Hc. contradiction.
      * intros _. right. repeat split. exact Hover.
      * intros _ o' Ho'. inversion Ho'; subst o'. cbn. lia.
Qed.

(** A frame showing object 7 and not object 5: the first gets
    [frame_count] 21 and [missing_count] 0, the second keeps
    [frame_count] 3 and gets [missing_count] 3. *)
Lemma counters_exclusive_witness :
  (exists o', dict_get 7 (object_database
                 (fst (process_frame 480 640 [(bottle_box, clock_at 100)] three_objects)))
              = Some o'
              /\ missing_count o' = 0 /\ frame_count o' = 21) /\
  dict_get 5 (object_database
     (fst (process_frame 480 640 [(bottle_box, clock_at 100)] three_objects)))
  = Some (mk_object "cell phone" "" pending 3 3).
Proof.
  assert (Hnd : NoDup (dict_keys (object_database three_objects))).
  { repeat constructor; cbn; intros H;
      repeat (destruct H as [H|H]; [discriminate|]); exact H. }
  split.
  - destruct (counters_exclusive_per_frame 480 640 [(bottle_box, clock_at 100)]
                three_objects 7 (mk_object "bottle" "" pending 20 0) Hnd eq_refl)
      as (Hin & _ & _).
    destruct (Hin (or_introl eq_refl)) as (o' & G & M & F & _).
    exists o'. repeat split; assumption.
  - destruct (counters_exclusive_per_frame 480 640 [(bottle_box, clock_at 100)]
                three_objects 5 (mk_object "cell phone" "" pending 3 2) Hnd eq_refl)
      as (_ & Hout & _).
    destruct Hout as [[Hover _] | (_ & G & _)].
    + cbn. intros [H|[]]. discriminate.
    + exfalso. vm_compute in Hover. discriminate.
    + exact G.
Defined.

(* ================================================================= *)
(** ** Eviction and its notification *)

Lemma pending_emit_app (prev : option payload) (a b : list event) :
  pending_emit prev (a ++ b) = pending_emit (pending_emit prev a) b.
Proof.
  revert prev. induction a as [|e a IH]; intros prev; [reflexivity|].
  destruct e; cbn; apply IH.
Qed.

Lemma eviction_notice_skip (id : Z) (before rest : list event) :
  forall prev,
    ~ In (Evicted id) before ->
    eviction_notice_from prev id (before ++ rest)
    = eviction_notice_from (pending_emit prev before) id rest.
Proof.
  induction before as [|e before IH]; intros prev Hnot; [reflexivity|].
  assert (Hnot' : ~ In (Evicted id) before) by (intros Hc; apply Hnot; now right).
  destruct e; cbn; try (apply IH; exact Hnot').
  destruct (db_id =? id) eqn:E; [|apply IH; exact Hnot'].
  apply Z.eqb_eq in E. subst. exfalso. apply Hnot. now left.
Qed.

Lemma pending_emit_puts (tr : list event) :
  Forall put_event tr -> pending_emit None tr = None.
Proof.
  induction 1 as [|e tr He _ IH]; [reflexivity|].
  destruct e; cbn in He; try contradiction. exact IH.
Qed.

Lemma pending_emit_sweep_events (cur : list Z) (connected : bool) (k : Z)
      (entry : option object_data) (prev : option payload) :
  prev = None -> pending_emit prev (sweep_events cur connected k entry) = None.
Proof.
  intros ->. unfold sweep_events, removal_notice.
  destruct (existsb _ _); [reflexivity|].
  destruct entry as [o|]; [|reflexivity].
  destruct (_ <? _); [|reflexivity].
  destruct (_ && _); reflexivity.
Qed.

Lemma pending_emit_sweep_loop (cur : list Z) (connected : bool)
      (entry : Z -> option object_data) (ks : list Z) :
  pending_emit None (flat_map (fun k => sweep_events cur connected k (entry k)) ks)
  = None.
Proof.
  induction ks as [|k ks IH]; [reflexivity|]. cbn [flat_map].
  rewrite pending_emit_app, pending_emit_sweep_events by reflexivity. exact IH.
Qed.

Lemma sweep_loop_no_eviction (cur : list Z) (connected : bool)
      (entry : Z -> option object_data) (ks : list Z) (id : Z) :
  ~ In id ks ->
  ~ In (Evicted id) (flat_map (fun k => sweep_events cur connected k (entry k)) ks).
Proof.
  induction ks as [|k ks IH]; intros Hnot; [intros []|]. cbn [flat_map].
  intros Hin. apply in_app_or in Hin. destruct Hin as [Hin|Hin].
  - revert Hin. apply sweep_events_other. intros ->. apply Hnot. now left.
  - revert Hin. apply IH. intros Hc. apply Hnot. now right.
Qed.

Lemma removal_notice_spec (connected : bool) (stored : string) :
  removal_notice connected stored
  = if connected && truthy stored
       && negb (contains "Thinking" stored) && negb (contains "失敗" stored)
    then [Emit (remove_payload stored)] else [].
Proof. reflexivity. Qed.

(** A frame pass logs, for an object it evicts, the object's removal
    notice directly followed by the deletion. *)
Lemma process_frame_eviction_log
      (h w : Z) (dets : list (detection * gate_clock)) (s : system)
      (id : Z) (o : object_data) :
  NoDup (dict_keys (object_database s)) ->
  dict_get id (object_database s) = Some o ->
  ~ In id (frame_ids dets) ->
  MAX_MISSING_FRAMES < missing_count o + 1 ->
  exists before after,
    snd (process_frame h w dets s)
      = before ++ (removal_notice (is_connected s) (gemini_name o) ++ [Evicted id])
               ++ after /\
    ~ In (Evicted id) before /\ ~ In (Evicted id) after /\
    pending_emit None before = None.
Proof.
  intros Hnd Hget Hout Hover.
  destruct (process_frame_unfold h w dets s) as [_ ->].
  set (s1 := fst (for_each (process_detection h w) dets s)).
  destruct (detect_loop_frame h w dets s) as (Hconn & Hnd1 & Hputs).
  specialize (Hnd1 Hnd). fold s1 in Hconn, Hnd1.
  assert (Hget1 : dict_get id (object_database s1) = Some o)
    by (unfold s1; now rewrite detect_loop_other).
  unfold sweep_missing. rewrite (sweep_loop_events _ _ s1 Hnd1). rewrite Hconn.
  assert (Hin : In id (dict_keys (object_database s1))).
  { destruct (in_dec Z.eq_dec id (dict_keys (object_database s1))) as [H|H];
      [exact H|]. apply dict_get_None in H. congruence. }
  apply in_split in Hin. destruct Hin as (l1 & l2 & Hks).
  rewrite Hks in Hnd1 |- *. apply NoDup_remove_2 in Hnd1.
  set (F := fun k => sweep_events (frame_ids dets) (is_connected s) k
                       (dict_get k (object_database s1))).
  rewrite flat_map_app.
  change (flat_map F (id :: l2)) with (F id ++ flat_map F l2).
  assert (HF : F id = removal_notice (is_connected s) (gemini_name o) ++ [Evicted id]).
  { unfold F, sweep_events. rewrite Hget1.
    destruct (existsb (Z.eqb id) (frame_ids dets)) eqn:E.
    - apply existsb_eqb_In in E. contradiction.
    - apply Z.ltb_lt in Hover. now rewrite Hover. }
  rewrite HF.
  exists (snd (for_each (process_detection h w) dets s) ++ flat_map F l1),
         (flat_map F l2).
  split; [now rewrite <- !app_assoc|]. split; [|split].
  - intros Hc. apply in_app_or in Hc. destruct Hc as [Hc|Hc].
    + rewrite Forall_forall in Hputs. apply Hputs in Hc. exact Hc.
    + revert Hc. apply sweep_loop_no_eviction.
      intros Hc. apply Hnd1. apply in_or_app. now left.
  - apply sweep_loop_no_eviction.
    intros Hc. apply Hnd1. apply in_or_app. now right.
  - rewrite pending_emit_app, pending_emit_puts by assumption.
    apply pending_emit_sweep_loop.
Qed.

(** C6, as the claim states it, fails: while the socket is down, object 3
    with the genuine label "CoffeeCo" is evicted after its 31st missing
    frame and no removal message is emitted for it. *)
Lemma eviction_silent_while_disconnected :
  dict_get 3 (object_database offline) = Some (mk_object "cup" "CoffeeCo" done 40 30)
  /\ genuine_label "CoffeeCo" = true
  /\ dict_get 3 (object_database
        (fst (process_frame 480 640 [(bottle_box, clock_at 100)] offline))) = None
  /\ eviction_notice 3 (snd (process_frame 480 640 [(bottle_box, clock_at 100)] offline))
     = Some None
  /\ emits (snd (process_frame 480 640 [(bottle_box, clock_at 100)] offline)) = 0%nat.
Proof. vm_compute. repeat split; reflexivity. Qed.

(** C6, amended.  During a frame pass, every tracked object absent from
    the frame's detections whose [missing_count], once incremented,
    exceeds [MAX_MISSING_FRAMES] is deleted from the registry, whatever
    its label and status.  A removal message carrying its label is
    emitted just before the deletion if the socket is connected and the
    label is genuine (not empty, without "Thinking", "失敗" or "錯誤"); no
    message is emitted for it if the socket is not connected, or the
    label is empty, or contains "Thinking" or "失敗". *)
Theorem eviction_deletes_and_notifies_when_connected
        (h w : Z) (dets : list (detection * gate_clock)) (s : system)
        (id : Z) (o : object_data) :
  NoDup (dict_keys (object_database s)) ->
  dict_get id (object_database s) = Some o ->
  ~ In id (frame_ids dets) ->
  MAX_MISSING_FRAMES < missing_count o + 1 ->
  let s' := fst (process_frame h w dets s) in
  let tr := snd (process_frame h w dets s) in
  dict_get id (object_database s') = None /\
  (is_connected s = true -> genuine_label (gemini_name o) = true ->
     eviction_notice id tr = Some (Some (remove_payload (gemini_name o)))) /\
  (is_connected s = false \/ gemini_name o = ""
   \/ contains "Thinking" (gemini_name o) = true
   \/ contains "失敗" (gemini_name o) = true ->
     eviction_notice id tr = Some None).
Proof.
  intros Hnd Hget Hout Hover. cbv zeta. split.
  - rewrite (process_frame_absent h w dets s id o Hnd Hget Hout).
    apply Z.ltb_lt in Hover. now rewrite Hover.
  - destruct (process_frame_eviction_log h w dets s id o Hnd Hget Hout Hover)
      as (before & after & -> & Hb & _ & Hp).
    unfold eviction_notice. rewrite eviction_notice_skip by assumption.
    rewrite Hp, removal_notice_spec. split.
    + intros Hconn Hgen. unfold genuine_label, publishable in Hgen.
      rewrite !andb_true_iff in Hgen.
      destruct Hgen as [[[Ht Hf] _] Hth].
      rewrite Hconn, Ht, Hf, Hth. cbn. now rewrite Z.eqb_refl.
    + intros Hbad.
      assert (Hoff : is_connected s && truthy (gemini_name o)
                     && negb (contains "Thinking" (gemini_name o))
                     && negb (contains "失敗" (gemini_name o)) = false).
      { destruct Hbad as [H | [H | [H | H]]]; rewrite H;
          rewrite ?andb_false_r; reflexivity. }
      rewrite Hoff. cbn. now rewrite Z.eqb_refl.
Qed.

(** While connected, object 3 is evicted after its 31st missing frame and
    its label "CoffeeCo" is sent in a removal message. *)
Lemma eviction_witness :
  dict_get 3 (object_database
     (fst (process_frame 480 640 [(bottle_box, clock_at 100)] three_objects))) = None /\
  eviction_notice 3 (snd (process_frame 480 640 [(bottle_box, clock_at 100)] three_objects))
  = Some (Some (remove_payload "CoffeeCo")).
Proof.
  assert (Hnd : NoDup (dict_keys (object_database three_objects))).
  { repeat constructor; cbn; intros H;
      repeat (destruct H as [H|H]; [discriminate|]); exact H. }
  assert (Hout : ~ In 3 (frame_ids [(bottle_box, clock_at 100)])).
  { cbn. intros [H|[]]. discriminate. }
  destruct (eviction_deletes_and_notifies_when_connected
              480 640 [(bottle_box, clock_at 100)] three_objects 3
              (mk_object "cup" "CoffeeCo" done 40 30) Hnd eq_refl Hout eq_refl)
    as (Hgone & Hemit & _).
  split; [exact Hgone | exact (Hemit eq_refl eq_refl)].
Defined.

(** The label "API錯誤", which the worker stores on a backend error and
    never announces, passes the test of line 358: its eviction sends a
    removal message. *)
Example eviction_of_api_error_label :
  publishable "API錯誤" = false /\
  snd (process_frame 480 640 [] failed_and_leaving)
    = [Emit (remove_payload "API錯誤"); Evicted 3].
Proof. vm_compute. split; reflexivity. Qed.

(* ================================================================= *)
(** ** Resync and the label filters *)


(** C7: the code at the claim's own scenario.  The worker ends object 3's
    task on a backend error, so it stores the failure label "API錯誤"
    with status done and announces nothing.  A resync of the resulting
    registry, which holds three done objects of which two have genuine
    labels, then republishes all three, "API錯誤" included; had the
    failure label been "辨識失敗" it would have republished two. *)
Theorem resync_republishes_api_error :
  emits (snd (gemini_worker world_503 true awaiting_third)) = 0%nat /\
  object_database (fst (gemini_worker world_503 true awaiting_third))
    = [(1, mk_object "cup" "CoffeeCo" done 40 0);
       (2, mk_object "cell phone" "iPhone 15" done 35 0);
       (3, mk_object "bottle" "API錯誤" done 30 0)] /\
  publishable "API錯誤" = false /\
  on_resync_request (fst (gemini_worker world_503 true awaiting_third))
    = [Emit (detect_payload "CoffeeCo"); Emit (detect_payload "iPhone 15");
       Emit (detect_payload "API錯誤")] /\
  on_resync_request (fst (gemini_worker world_all_429 true awaiting_third))
    = [Emit (detect_payload "CoffeeCo"); Emit (detect_payload "iPhone 15")].
Proof. vm_compute. repeat split; reflexivity. Qed.

Lemma nil_or_singleton {A : Type} (b : bool) (x : A) :
  (if b then [x] else []) <> [] <-> b = true.
Proof. destruct b; split; congruence. Qed.



(* ================================================================= *)
(** ** The status only moves forward *)

Lemma enqueues_app (id : Z) (a b : list event) :
  enqueues id (a ++ b) = (enqueues id a + enqueues id b)%nat.
Proof. unfold enqueues. now rewrite filter_app, length_app. Qed.

Lemma dispatch_budget_ext (id : Z) (s s' : system) :
  dict_get id (object_database s') = dict_get id (object_database s) ->
  dispatch_budget id s' = dispatch_budget id s.
Proof. unfold dispatch_budget. now intros ->. Qed.

Lemma forward_same_get (id : Z) (s s' : system) (tr : list event) :
  dict_get id (object_database s') = dict_get id (object_database s) ->
  enqueues id tr = 0%nat ->
  forward id s tr s'.
Proof.
  intros Hget Henq _. split.
  - intros o Ho. exists o. split; [congruence | lia].
  - rewrite Henq, (dispatch_budget_ext id s s' Hget). lia.
Qed.

Lemma forward_trans (id : Z) (s s1 s2 : system) (tr1 tr2 : list event) :
  forward id s tr1 s1 -> forward id s1 tr2 s2 -> forward id s (tr1 ++ tr2) s2.
Proof.
  intros H1 H2 Hnot.
  destruct H1 as [A1 B1]; [intros Hc; apply Hnot, in_or_app; now left|].
  destruct H2 as [A2 B2]; [intros Hc; apply Hnot, in_or_app; now right|].
  split.
  - intros o Ho. destruct (A1 o Ho) as (o1 & G1 & R1).
    destruct (A2 o1 G1) as (o2 & G2 & R2). exists o2. split; [exact G2 | lia].
  - rewrite enqueues_app. lia.
Qed.

Lemma forward_for_each {A : Type} (id : Z)
      (body : A -> system -> system * list event) :
  (forall x s, forward id s (snd (body x s)) (fst (body x s))) ->
  forall xs s, forward id s (snd (for_each body xs s)) (fst (for_each body xs s)).
Proof.
  intros Hbody. induction xs as [|x xs IH]; intros s.
  - apply forward_same_get; reflexivity.
  - destruct (for_each_cons body x xs s) as [-> ->].
    eapply forward_trans; [apply Hbody | apply IH].
Qed.

Lemma process_detection_events (h w : Z) (d : detection) (clk : gate_clock) (s : system) :
  snd (process_detection h w (d, clk) s)
  = if gate_open clk d (with_object_database (track d (object_database s)) s)
         (entry_after_track d (object_database s))
    then [Enqueued (mk_task (track_id d) (crop_of h w d) (yolo_raw_name d))]
    else [].
Proof.
  rewrite process_detection_cases. cbv zeta.
  now destruct (gate_open _ _ _ _).
Qed.

Lemma forward_track (id : Z) (d : detection) (s : system) :
  forward id s [] (with_object_database (track d (object_database s)) s).
Proof.
  intros _. unfold dispatch_budget. cbn [object_database with_object_database].
  rewrite track_get. unfold entry_after_track.
  destruct (id =? track_id d) eqn:E; cbn [enqueues filter List.length Nat.add].
  - apply Z.eqb_eq in E. subst id.
    destruct (dict_get (track_id d) (object_database s)) as [o|].
    + split; [|cbn; lia]. intros o0 Ho0. inversion Ho0; subst o0.
      eexists. split; [reflexivity | cbn; lia].
    + split; [intros o Ho; discriminate | cbn; lia].
  - split; [|lia]. intros o Ho. exists o. split; [exact Ho | lia].
Qed.

Lemma forward_dispatch (id : Z) (h w : Z) (clk : gate_clock) (d : detection)
      (s : system) :
  forward id s (snd (dispatch h w clk d s)) (fst (dispatch h w clk d s)).
Proof.
  destruct (dict_get (track_id d) (object_database s)) as [obj_data|] eqn:Hget.
  2:{ unfold dispatch. rewrite Hget. apply forward_same_get; reflexivity. }
  rewrite (dispatch_cases h w clk d s obj_data Hget). cbv zeta.
  destruct (gate_open clk d s obj_data) eqn:Hgate; cbn [fst snd].
  - unfold gate_open in Hgate. rewrite !andb_true_iff in Hgate.
    destruct Hgate as [[[Hpend _] _] _].
    destruct (Z.eq_dec id (track_id d)) as [->|Hne].
    + intros _. unfold dispatch_budget, enqueues.
      cbn [object_database filter task_id]. rewrite Z.eqb_refl.
      rewrite dict_get_modify_same, Hget. cbn [option_map List.length].
      rewrite Hpend. split; [|cbn; lia].
      intros o0 Ho0. inversion Ho0; subst o0. eexists. split; [reflexivity|].
      apply lifecycle_eqb_eq in Hpend. rewrite Hpend. cbn. lia.
    + apply forward_same_get.
      * cbn [object_database]. now apply dict_get_modify_other.
      * unfold enqueues. cbn. apply Z.eqb_neq in Hne. rewrite Z.eqb_sym in Hne.
        now rewrite Hne.
  - apply forward_same_get; [|reflexivity].
    now destruct (_ && _).
Qed.

Lemma forward_detection (id : Z) (h w : Z) (dc : detection * gate_clock) (s : system) :
  forward id s (snd (process_detection h w dc s)) (fst (process_detection h w dc s)).
Proof.
  unfold process_detection.
  exact (forward_trans _ _ _ _ _ _ (forward_track id (fst dc) s)
           (forward_dispatch id h w (snd dc) (fst dc) _)).
Qed.

Lemma sweep_events_enqueues (cur : list Z) (connected : bool) (k id : Z)
      (entry : option object_data) :
  enqueues id (sweep_events cur connected k entry) = 0%nat.
Proof.
  unfold sweep_events, removal_notice.
  destruct (existsb _ _); [reflexivity|].
  destruct entry as [o|]; [|reflexivity].
  destruct (_ <? _); [|reflexivity].
  destruct (_ && _); reflexivity.
Qed.

Lemma forward_sweep_one (id : Z) (cur : list Z) (k : Z) (s : system) :
  forward id s (snd (sweep_one cur k s)) (fst (sweep_one cur k s)).
Proof.
  destruct (Z.eq_dec id k) as [->|Hne].
  - intros Hnot. rewrite sweep_one_events in Hnot.
    rewrite sweep_one_events, sweep_events_enqueues.
    unfold dispatch_budget. rewrite sweep_one_get, Z.eqb_refl.
    unfold sweep_entry, sweep_events in *.
    destruct (existsb (Z.eqb k) cur).
    + split; [|lia]. intros o Ho. exists o. split; [exact Ho | lia].
    + destruct (dict_get k (object_database s)) as [o|].
      * destruct (MAX_MISSING_FRAMES <? missing_count o + 1).
        -- exfalso. apply Hnot. apply in_or_app. right. now left.
        -- split; [|cbn; lia]. intros o0 Ho0. inversion Ho0; subst o0.
           eexists. split; [reflexivity | cbn; lia].
      * split; [intros o Ho; discriminate | lia].
  - apply forward_same_get.
    + rewrite sweep_one_get. apply Z.eqb_neq in Hne. now rewrite Hne.
    + rewrite sweep_one_events. apply sweep_events_enqueues.
Qed.

Lemma forward_write_back (id id' : Z) (result : string) (s : system) :
  forward id s [] (write_back id' result s).
Proof.
  intros _. unfold dispatch_budget. rewrite write_back_get.
  destruct (id =? id'); cbn [enqueues filter List.length Nat.add].
  - destruct (dict_get id (object_database s)) as [o|]; cbn [option_map].
    + split.
      * intros o0 Ho0. inversion Ho0; subst o0. eexists. split; [reflexivity|].
        cbn. destruct (status o); cbn; lia.
      * cbn. destruct (lifecycle_eqb (status o) pending); lia.
    + split; [intros o Ho; discriminate | lia].
  - split; [|lia]. intros o Ho. exists o. split; [exact Ho | lia].
Qed.

Lemma publish_result_enqueues (id : Z) (emit_ok : bool) (result : string) (s : system) :
  enqueues id (snd (publish_result emit_ok result s)) = 0%nat.
Proof.
  unfold publish_result.
  destruct (_ && _); [destruct emit_ok|]; reflexivity.
Qed.

Lemma on_resync_request_enqueues (id : Z) (s : system) :
  enqueues id (on_resync_request s) = 0%nat.
Proof.
  unfold on_resync_request.
  induction (object_database s) as [|kv db IH]; [reflexivity|].
  cbn [flat_map]. rewrite enqueues_app, IH. unfold resync_notice.
  destruct (_ && _); reflexivity.
Qed.

Lemma forward_recognise (id : Z) (env : nat -> attempt_env) (t : task) (s : system) :
  forward id s (snd (recognise env t s)) (snd (fst (recognise env t s))).
Proof.
  destruct (recognise_frame env t s) as (Hdb & _ & _ & _ & Hloop).
  apply forward_same_get; [now rewrite Hdb|].
  now apply Forall_loop_event_counts.
Qed.

Lemma forward_process_frame (id : Z) (h w : Z)
      (dets : list (detection * gate_clock)) (s : system) :
  forward id s (snd (process_frame h w dets s)) (fst (process_frame h w dets s)).
Proof.
  destruct (process_frame_unfold h w dets s) as [-> ->].
  eapply forward_trans.
  - apply forward_for_each. intros dc s0. apply forward_detection.
  - unfold sweep_missing. apply forward_for_each.
    intros k s0. apply forward_sweep_one.
Qed.

Lemma forward_gemini_worker (id : Z) (env : nat -> attempt_env) (emit_ok : bool)
      (s : system) :
  forward id s (snd (gemini_worker env emit_ok s)) (fst (gemini_worker env emit_ok s)).
Proof.
  unfold gemini_worker. destruct (task_queue s) as [|t rest].
  - apply forward_same_get; reflexivity.
  - destruct (negb _); [apply forward_same_get; reflexivity|].
    destruct (crop_empty _); [apply forward_same_get; reflexivity|].
    pose proof (forward_recognise id env t (with_task_queue rest s)) as Hrec.
    destruct (recognise env t (with_task_queue rest s)) as [[r s1] tr1].
    cbn [fst snd] in Hrec.
    pose proof (publish_result_frame emit_ok (product_name r)
                  (write_back (task_id t) (product_name r) s1)) as (Hdb & _ & _).
    pose proof (publish_result_enqueues id emit_ok (product_name r)
                  (write_back (task_id t) (product_name r) s1)) as Henq.
    destruct (publish_result emit_ok (product_name r) _) as [s3 tr2].
    cbn [fst snd] in *.
    assert (H1 : forward id s [] (with_task_queue rest s))
      by (apply forward_same_get; reflexivity).
    assert (H3 : forward id (write_back (task_id t) (product_name r) s1) tr2 s3)
      by (apply forward_same_get; [now rewrite Hdb | exact Henq]).
    exact (forward_trans _ _ _ _ _ _ H1
             (forward_trans _ _ _ _ _ _ Hrec
                (forward_trans _ _ _ _ _ _
                   (forward_write_back id (task_id t) (product_name r) s1) H3))).
Qed.

Lemma forward_step (id : Z) (a : transition) (s : system) :
  forward id s (snd (step a s)) (fst (step a s)).
Proof.
  destruct a; cbn [step].
  - apply forward_process_frame.
  - apply forward_gemini_worker.
  - apply forward_same_get; [reflexivity | apply on_resync_request_enqueues].
  - apply forward_detection.
  - apply forward_track.
  - apply forward_dispatch.
  - unfold sweep_missing. apply forward_for_each.
    intros k s0. apply forward_sweep_one.
  - apply forward_same_get; reflexivity.
  - pose proof (forward_recognise id env t s) as H.
    destruct (recognise env t s) as [[r s1] tr]. exact H.
  - apply forward_write_back.
  - destruct (publish_result_frame emit_ok result s) as (Hdb & _ & _).
    apply forward_same_get; [now rewrite Hdb | apply publish_result_enqueues].
Qed.

Lemma dispatch_budget_le_1 (id : Z) (s : system) : (dispatch_budget id s <= 1)%nat.
Proof.
  unfold dispatch_budget. destruct (dict_get id _) as [o|]; [|lia].
  destruct (lifecycle_eqb _ _); lia.
Qed.

Lemma dispatch_budget_spent (id : Z) (s : system) (o : object_data) :
  dict_get id (object_database s) = Some o -> status o <> pending ->
  dispatch_budget id s = 0%nat.
Proof.
  intros Hget Hst. unfold dispatch_budget. rewrite Hget.
  destruct (lifecycle_eqb (status o) pending) eqn:E; [|reflexivity].
  apply lifecycle_eqb_eq in E. contradiction.
Qed.

(** Entering sending spends the dispatch budget as well. *)
Lemma forward_entry (id : Z) (s s' : system) (tr : list event) :
  forward id s tr s' -> ~ In (Evicted id) tr ->
  ((if negb (has_status sending id s) && has_status sending id s' then 1 else 0)
   + dispatch_budget id s' <= dispatch_budget id s)%nat.
Proof.
  intros Hfw Hnot. destruct (Hfw Hnot) as [A B].
  destruct (negb (has_status sending id s) && has_status sending id s') eqn:E;
    [|lia].
  apply andb_true_iff in E. destruct E as [E1 E2].
  apply negb_true_iff in E1. unfold has_status, dispatch_budget in *.
  destruct (dict_get id (object_database s')) as [o'|] eqn:G'; [|discriminate].
  apply lifecycle_eqb_eq in E2. rewrite E2. cbn.
  destruct (dict_get id (object_database s)) as [o|] eqn:G; [|lia].
  destruct (A o eq_refl) as (o2 & G2 & R). inversion G2; subst o2.
  rewrite E2 in R. destruct (status o); cbn in *; try discriminate; lia.
Qed.

(** The invariant along any run that does not evict [id]. *)
Lemma run_forward (id : Z) (acts : list transition) :
  forall s,
    ~ In (Evicted id) (snd (run acts s)) ->
    (forall o, dict_get id (object_database s) = Some o ->
               exists o', dict_get id (object_database (fst (run acts s))) = Some o'
                          /\ (rank (status o) <= rank (status o'))%nat) /\
    (enqueues id (snd (run acts s)) + dispatch_budget id (fst (run acts s))
     <= dispatch_budget id s)%nat /\
    (sending_entries id acts s + dispatch_budget id (fst (run acts s))
     <= dispatch_budget id s)%nat.
Proof.
  unfold run. induction acts as [|a acts IH]; intros s Hnot.
  - cbn. split; [|lia]. intros o Ho. exists o. split; [exact Ho | lia].
  - destruct (for_each_cons step a acts s) as [Hf Ht].
    rewrite Hf, Ht in *.
    assert (Hnot1 : ~ In (Evicted id) (snd (step a s)))
      by (intros Hc; apply Hnot, in_or_app; now left).
    assert (Hnot2 : ~ In (Evicted id) (snd (for_each step acts (fst (step a s)))))
      by (intros Hc; apply Hnot, in_or_app; now right).
    pose proof (forward_step id a s) as Hstep.
    pose proof (forward_entry id _ _ _ Hstep Hnot1) as Hentry.
    destruct (Hstep Hnot1) as [A1 B1].
    destruct (IH _ Hnot2) as (A2 & B2 & C2).
    split; [|split].
    + intros o Ho. destruct (A1 o Ho) as (o1 & G1 & R1).
      destruct (A2 o1 G1) as (o2 & G2 & R2). exists o2. split; [exact G2 | lia].
    + rewrite enqueues_app. lia.
    + cbn [sending_entries]. lia.
Qed.

(** With the dispatch gate taken as one step, that is, when the frame
    thread is not interrupted between the test of line 315 and the write
    of lines 320-322: along any interleaving of frame passes, worker
    passes, their lock-delimited pieces and resyncs that does not evict
    [id], an entry for [id] stays in the registry and its status never
    moves back on the path pending -> sending -> done; [id] enters
    sending at most once and at most one task is queued for it, and
    none of either once its status is no longer pending.  An id not yet
    in the registry is created with status pending, and the worker's
    write-back sets the status to done.  What an interruption inside
    the gate does is shown below, in the finer system. *)
Theorem status_forward_on_whole_steps (acts : list transition) (s : system) (id : Z) :
  ~ In (Evicted id) (snd (run acts s)) ->
  (forall o, dict_get id (object_database s) = Some o ->
             exists o', dict_get id (object_database (fst (run acts s))) = Some o'
                        /\ (rank (status o) <= rank (status o'))%nat) /\
  (sending_entries id acts s <= 1)%nat /\
  (enqueues id (snd (run acts s)) <= 1)%nat /\
  (forall o, dict_get id (object_database s) = Some o -> status o <> pending ->
             sending_entries id acts s = 0%nat
             /\ enqueues id (snd (run acts s)) = 0%nat) /\
  (forall h w d clk,
      dict_get (track_id d) (object_database s) = None ->
      exists o, dict_get (track_id d)
                  (object_database (fst (step (DetectStep h w (d, clk)) s))) = Some o
                /\ status o = pending) /\
  (forall id' result o,
      dict_get id' (object_database s) = Some o ->
      exists o', dict_get id'
                   (object_database (fst (step (WorkerWriteBack id' result) s))) = Some o'
                 /\ status o' = done).
Proof.
  intros Hnot. destruct (run_forward id acts s Hnot) as (A & B & C).
  pose proof (dispatch_budget_le_1 id s) as Hle.
  split; [exact A|]. split; [lia|]. split; [lia|]. split; [|split].
  - intros o Ho Hst. rewrite (dispatch_budget_spent id s o Ho Hst) in *. lia.
  - intros h w d clk Hnone. cbn [step]. rewrite process_detection_get.
    cbn [fst snd]. rewrite Z.eqb_refl. eexists. split; [reflexivity|].
    cbv zeta. unfold entry_after_track. rewrite Hnone.
    unfold gate_open. cbn. reflexivity.
  - intros id' result o Ho. cbn [step fst]. rewrite write_back_get, Z.eqb_refl, Ho.
    eexists. split; reflexivity.
Qed.

(** Object 7 from pending to done over three frames and one worker pass:
    never evicted, never moved back, queued once. *)
Lemma status_forward_on_whole_steps_witness :
  ~ In (Evicted 7) (snd (run bottle_lifetime three_objects)) /\
  (exists o', dict_get 7 (object_database (fst (run bottle_lifetime three_objects)))
              = Some o'
              /\ (rank pending <= rank (status o'))%nat) /\
  (enqueues 7 (snd (run bottle_lifetime three_objects)) <= 1)%nat.
Proof.
  assert (Hnot : ~ In (Evicted 7) (snd (run bottle_lifetime three_objects))).
  { vm_compute. intros H.
    repeat (destruct H as [H|H]; [discriminate|]). exact H. }
  split; [exact Hnot|].
  destruct (status_forward_on_whole_steps bottle_lifetime three_objects 7 Hnot)
    as (A & _ & B & _).
  split; [|exact B].
  exact (A (mk_object "bottle" "" pending 20 0) eq_refl).
Defined.

(* ================================================================= *)
(** ** The registry stays a well-formed dict *)

Lemma Forall_dict_modify {V : Type} (P : V -> Prop) (k : Z) (f : V -> V)
      (d : list (Z * V)) :
  (forall v, P v -> P (f v)) ->
  Forall (fun kv => P (snd kv)) d ->
  Forall (fun kv => P (snd kv)) (dict_modify k f d).
Proof.
  intros Hf Hd. unfold dict_modify. apply Forall_map.
  eapply Forall_impl; [|exact Hd]. intros [k0 v0] Hv; cbn in *.
  destruct (k =? k0); cbn; auto.
Qed.

Lemma Forall_dict_del {V : Type} (P : Z * V -> Prop) (k : Z) (d : list (Z * V)) :
  Forall P d -> Forall P (dict_del k d).
Proof.
  intros Hd. unfold dict_del. rewrite Forall_forall in *.
  intros kv Hin. apply filter_In in Hin. apply Hd, Hin.
Qed.

Lemma registry_ok_db (s s' : system) :
  object_database s' = object_database s -> registry_ok s -> registry_ok s'.
Proof. unfold registry_ok. now intros ->. Qed.

Lemma registry_ok_modify (k : Z) (f : object_data -> object_data) (s s' : system) :
  (forall o, counters_ok o -> counters_ok (f o)) ->
  object_database s' = dict_modify k f (object_database s) ->
  registry_ok s -> registry_ok s'.
Proof.
  unfold registry_ok. intros Hf -> [Hnd Hc]. split.
  - now rewrite dict_keys_modify.
  - now apply Forall_dict_modify.
Qed.

Lemma registry_ok_track (d : detection) (s : system) :
  registry_ok s ->
  registry_ok (with_object_database (track d (object_database s)) s).
Proof.
  intros [Hnd Hc]. split; cbn [object_database with_object_database].
  - now apply track_NoDup.
  - unfold track. apply Forall_dict_modify.
    + intros o [Hf Hm]. split; cbn; lia.
    + destruct (dict_has _ _); [exact Hc|].
      unfold dict_add. apply Forall_app. split; [exact Hc|].
      repeat constructor; cbn; lia.
Qed.

Lemma registry_ok_dispatch (h w : Z) (clk : gate_clock) (d : detection) (s : system) :
  registry_ok s -> registry_ok (fst (dispatch h w clk d s)).
Proof.
  intros Hok.
  destruct (dict_get (track_id d) (object_database s)) as [obj_data|] eqn:Hget.
  2:{ unfold dispatch. now rewrite Hget. }
  rewrite (dispatch_cases h w clk d s obj_data Hget). cbv zeta.
  destruct (gate_open _ _ _ _); cbn [fst].
  - eapply (registry_ok_modify (track_id d) dispatched); [| |exact Hok].
    + intros o Ho. exact Ho.
    + reflexivity.
  - destruct (_ && _); [|exact Hok].
    eapply registry_ok_db; [|exact Hok]. reflexivity.
Qed.

Lemma registry_ok_process_detection (h w : Z) (dc : detection * gate_clock) (s : system) :
  registry_ok s -> registry_ok (fst (process_detection h w dc s)).
Proof.
  intros Hok. unfold process_detection.
  now apply registry_ok_dispatch, registry_ok_track.
Qed.

Lemma registry_ok_sweep_one (cur : list Z) (k : Z) (s : system) :
  registry_ok s -> registry_ok (fst (sweep_one cur k s)).
Proof.
  intros Hok. unfold sweep_one.
  destruct (existsb _ _); [exact Hok|].
  assert (Hm : registry_ok
                 (with_object_database (dict_modify k missed (object_database s)) s)).
  { eapply (registry_ok_modify k missed); [| |exact Hok].
    - intros o [Hf Hmc]. split; cbn; lia.
    - reflexivity. }
  destruct (dict_get k _) as [o|]; [|exact Hm].
  destruct (_ <? _); [|exact Hm].
  destruct Hm as [Hnd Hc]. split; cbn [fst object_database with_object_database] in *.
  - now apply NoDup_keys_del.
  - now apply Forall_dict_del.
Qed.

Lemma registry_ok_for_each {A : Type} (body : A -> system -> system * list event) :
  (forall x s, registry_ok s -> registry_ok (fst (body x s))) ->
  forall xs s, registry_ok s -> registry_ok (fst (for_each body xs s)).
Proof.
  intros Hbody. induction xs as [|x xs IH]; intros s Hok; [exact Hok|].
  destruct (for_each_cons body x xs s) as [-> _]. apply IH, Hbody, Hok.
Qed.

Lemma registry_ok_write_back (id : Z) (result : string) (s : system) :
  registry_ok s -> registry_ok (write_back id result s).
Proof.
  intros Hok. unfold write_back. destruct (dict_has _ _); [|exact Hok].
  eapply (registry_ok_modify id (finished result)); [| |exact Hok].
  - intros o Ho. exact Ho.
  - reflexivity.
Qed.

Lemma registry_ok_step (a : transition) (s : system) :
  registry_ok s -> registry_ok (fst (step a s)).
Proof.
  intros Hok. destruct a; cbn [step fst].
  - destruct (process_frame_unfold h w dets s) as [-> _].
    unfold sweep_missing.
    apply registry_ok_for_each; [intros; now apply registry_ok_sweep_one|].
    apply registry_ok_for_each; [intros; now apply registry_ok_process_detection|].
    exact Hok.
  - unfold gemini_worker. destruct (task_queue s) as [|t rest]; [exact Hok|].
    destruct (negb _); [exact Hok|].
    destruct (crop_empty _); [exact Hok|].
    destruct (recognise_frame env t (with_task_queue rest s)) as (Hdb & _).
    destruct (recognise env t (with_task_queue rest s)) as [[r s1] tr1].
    cbn [fst snd] in Hdb.
    pose proof (publish_result_frame emit_ok (product_name r)
                  (write_back (task_id t) (product_name r) s1)) as (Hdb' & _).
    destruct (publish_result emit_ok (product_name r) _) as [s3 tr2].
    cbn [fst] in *.
    eapply registry_ok_db; [exact Hdb'|]. apply registry_ok_write_back.
    eapply registry_ok_db; [exact Hdb | exact Hok].
  - exact Hok.
  - now apply registry_ok_process_detection.
  - now apply registry_ok_track.
  - now apply registry_ok_dispatch.
  - unfold sweep_missing.
    apply registry_ok_for_each; [intros; now apply registry_ok_sweep_one | exact Hok].
  - exact Hok.
  - destruct (recognise_frame env t s) as (Hdb & _).
    destruct (recognise env t s) as [[r s1] tr]. cbn [fst snd] in *.
    eapply registry_ok_db; [exact Hdb | exact Hok].
  - now apply registry_ok_write_back.
  - destruct (publish_result_frame emit_ok result s) as (Hdb & _).
    eapply registry_ok_db; [exact Hdb | exact Hok].
Qed.

(** X19.  Every state reached from the initial one holds one entry per id, with
    counters that are not negative: the hypotheses the theorems on
    [process_frame] make about the registry hold in every run. *)
Theorem registry_stays_well_formed (acts : list transition) (s : system) :
  registry_ok s -> registry_ok (fst (run acts s)).
Proof.
  unfold run. apply registry_ok_for_each. intros a s0. apply registry_ok_step.
Qed.

(** The initial registry is well formed, and so is the one the end-to-end
    scenario leaves. *)
Lemma registry_well_formed_witness :
  registry_ok (initial true three_models) /\
  registry_ok (fst (run bottle_story (initial true three_models))).
Proof.
  assert (H0 : registry_ok (initial true three_models))
    by (split; constructor).
  split; [exact H0 | exact (registry_stays_well_formed bottle_story _ H0)].
Defined.

(** The end-to-end scenario: 25 frames with object 7, the worker's answer
    "CoffeeCo", then 31 frames without it.  One task is queued, at the
    21st frame; the status goes pending, sending, done; one detected and
    one removal message are sent; the registry ends empty. *)
Example bottle_story_end_to_end :
  let s25 := fst (run (repeat (FramePass 480 640 [(bottle_box, clock_at 5)]) 25)
                      (initial true three_models)) in
  let s26 := fst (run [WorkerPass world_coffee true] s25) in
  dict_get 7 (object_database
                (fst (run (repeat (FramePass 480 640 [(bottle_box, clock_at 5)]) 20)
                          (initial true three_models))))
    = Some (mk_object "bottle" "" pending 20 0) /\
  dict_get 7 (object_database s25)
    = Some (mk_object "bottle" "Thinking..." sending 25 0) /\
  dict_get 7 (object_database s26)
    = Some (mk_object "bottle" "CoffeeCo" done 25 0) /\
  object_database (fst (run bottle_story (initial true three_models))) = [] /\
  filter (fun e => match e with
                   | Enqueued _ | Emit _ | Evicted _ => true
                   | _ => false
                   end)
         (snd (run bottle_story (initial true three_models)))
    = [Enqueued (mk_task 7 (mk_crop 100 200 100 200) "bottle");
       Emit (detect_payload "CoffeeCo");
       Emit (remove_payload "CoffeeCo");
       Evicted 7] /\
  sending_entries 7 bottle_story (initial true three_models) = 1%nat.
Proof. vm_compute. repeat split; reflexivity. Qed.

(* ================================================================= *)
(** ** Entry-wise invariants of the registry *)

(** A property of entries that creation and the four field updates keep
    holds of every entry after any transition. *)
Section EntryInvariant.
Variable P : object_data -> Prop.
Hypothesis P_new : forall yolo_raw, P (new_object yolo_raw).
Hypothesis P_seen : forall o, P o -> P (seen o).
Hypothesis P_dispatched : forall o, P o -> status o = pending -> P (dispatched o).
Hypothesis P_missed : forall o, P o -> P (missed o).
Hypothesis P_finished : forall result o, P o -> P (finished result o).

Let all_entries (s : system) : Prop :=
  Forall (fun kv => P (snd kv)) (object_database s).

Lemma entries_track (d : detection) (s : system) :
  all_entries s ->
  all_entries (with_object_database (track d (object_database s)) s).
Proof.
  unfold all_entries. cbn [object_database with_object_database]. intros H.
  unfold track. apply Forall_dict_modify; [exact P_seen|].
  destruct (dict_has _ _); [exact H|].
  unfold dict_add. apply Forall_app. split; [exact H|].
  repeat constructor. apply P_new.
Qed.

Lemma Forall_dict_get {V : Type} (Q0 : V -> Prop) (k : Z) (d : list (Z * V)) (v : V) :
  Forall (fun kv => Q0 (snd kv)) d -> dict_get k d = Some v -> Q0 v.
Proof.
  induction 1 as [|[k0 v0] d Hv _ IH]; cbn; [discriminate|].
  destruct (k =? k0); [|exact IH]. intros H; inversion H; subst. exact Hv.
Qed.

(** The update of one key by a function that keeps [P] on the entry
    stored there. *)
Lemma Forall_dict_modify_at (k : Z) (f : object_data -> object_data)
      (d : list (Z * object_data)) :
  (forall o, In (k, o) d -> P o -> P (f o)) ->
  Forall (fun kv => P (snd kv)) d ->
  Forall (fun kv => P (snd kv)) (dict_modify k f d).
Proof.
  intros Hf Hd. unfold dict_modify. rewrite Forall_forall in *.
  intros kv Hin. apply in_map_iff in Hin. destruct Hin as ([k0 v0] & <- & Hin).
  cbn. destruct (k =? k0) eqn:E; cbn.
  - apply Z.eqb_eq in E. subst k0. apply Hf; [exact Hin|]. exact (Hd _ Hin).
  - exact (Hd _ Hin).
Qed.

Lemma entries_dispatch (h w : Z) (clk : gate_clock) (d : detection) (s : system) :
  NoDup (dict_keys (object_database s)) ->
  all_entries s -> all_entries (fst (dispatch h w clk d s)).
Proof.
  intros Hnd H.
  destruct (dict_get (track_id d) (object_database s)) as [obj_data|] eqn:Hget.
  2:{ unfold dispatch. now rewrite Hget. }
  rewrite (dispatch_cases h w clk d s obj_data Hget). cbv zeta.
  destruct (gate_open _ _ _ _) eqn:Hgate; cbn [fst].
  - unfold all_entries. cbn [object_database].
    apply Forall_dict_modify_at; [|exact H].
    intros o Hin Ho. apply P_dispatched; [exact Ho|].
    unfold gate_open in Hgate. rewrite !andb_true_iff in Hgate.
    destruct Hgate as [[[Hpend _] _] _]. apply lifecycle_eqb_eq in Hpend.
    assert (Hsame : dict_get (track_id d) (object_database s) = Some o).
    { clear - Hnd Hin. unfold dict_keys in Hnd.
      induction (object_database s) as [|[k0 v0] db IH]; [contradiction|].
      cbn in *. inversion Hnd as [|? ? Hk Hdb]; subst.
      destruct Hin as [Heq|Hin].
      - inversion Heq; subst. now rewrite Z.eqb_refl.
      - destruct (track_id d =? k0) eqn:E; [|now apply IH].
        apply Z.eqb_eq in E. subst k0. exfalso. apply Hk.
        apply in_map_iff. exists (track_id d, o). split; [reflexivity | exact Hin]. }
    congruence.
  - now destruct (_ && _).
Qed.

Lemma entries_sweep_one (cur : list Z) (k : Z) (s : system) :
  all_entries s -> all_entries (fst (sweep_one cur k s)).
Proof.
  intros H. unfold sweep_one. destruct (existsb _ _); [exact H|].
  assert (Hm : Forall (fun kv => P (snd kv))
                      (dict_modify k missed (object_database s)))
    by (apply Forall_dict_modify; [exact P_missed | exact H]).
  destruct (dict_get k _) as [o|]; [|exact Hm].
  destruct (_ <? _); [|exact Hm].
  unfold all_entries. cbn [fst object_database with_object_database].
  now apply Forall_dict_del.
Qed.

Lemma entries_write_back (id : Z) (result : string) (s : system) :
  all_entries s -> all_entries (write_back id result s).
Proof.
  intros H. unfold write_back. destruct (dict_has _ _); [|exact H].
  unfold all_entries. cbn [object_database with_object_database].
  apply Forall_dict_modify; [apply P_finished | exact H].
Qed.

Lemma entries_step (a : transition) (s : system) :
  registry_ok s -> all_entries s -> all_entries (fst (step a s)).
Proof.
  intros Hok H.
  assert (Hdetect : forall h w dc s0,
             registry_ok s0 -> all_entries s0 ->
             all_entries (fst (process_detection h w dc s0))).
  { intros h w dc s0 Hok0 H0. unfold process_detection.
    apply entries_dispatch.
    - apply (registry_ok_track (fst dc) s0 Hok0).
    - now apply entries_track. }
  assert (Hloop : forall h w dets s0,
             registry_ok s0 -> all_entries s0 ->
             all_entries (fst (for_each (process_detection h w) dets s0))).
  { intros h w dets. induction dets as [|dc dets IH]; intros s0 Hok0 H0; [exact H0|].
    destruct (for_each_cons (process_detection h w) dc dets s0) as [-> _].
    apply IH; [now apply registry_ok_process_detection | now apply Hdetect]. }
  assert (Hsweep : forall cur ks s0,
             all_entries s0 -> all_entries (fst (for_each (sweep_one cur) ks s0))).
  { intros cur ks. induction ks as [|k ks IH]; intros s0 H0; [exact H0|].
    destruct (for_each_cons (sweep_one cur) k ks s0) as [-> _].
    apply IH. now apply entries_sweep_one. }
  destruct a; cbn [step fst].
  - destruct (process_frame_unfold h w dets s) as [-> _].
    unfold sweep_missing. apply Hsweep. now apply Hloop.
  - unfold gemini_worker. destruct (task_queue s) as [|t rest]; [exact H|].
    destruct (negb _); [exact H|].
    destruct (crop_empty _); [exact H|].
    destruct (recognise_frame env t (with_task_queue rest s)) as (Hdb & _).
    destruct (recognise env t (with_task_queue rest s)) as [[r s1] tr1].
    cbn [fst snd] in Hdb.
    pose proof (publish_result_frame emit_ok (product_name r)
                  (write_back (task_id t) (product_name r) s1)) as (Hdb' & _).
    destruct (publish_result emit_ok (product_name r) _) as [s3 tr2].
    cbn [fst] in *. unfold all_entries. rewrite Hdb'.
    apply entries_write_back. unfold all_entries. rewrite Hdb. exact H.
  - exact H.
  - now apply Hdetect.
  - now apply entries_track.
  - apply entries_dispatch; [apply Hok | exact H].
  - unfold sweep_missing. now apply Hsweep.
  - exact H.
  - destruct (recognise_frame env t s) as (Hdb & _).
    destruct (recognise env t s) as [[r s1] tr]. cbn [fst snd] in *.
    unfold all_entries. now rewrite Hdb.
  - now apply entries_write_back.
  - destruct (publish_result_frame emit_ok result s) as (Hdb & _).
    unfold all_entries. now rewrite Hdb.
Qed.

Lemma entries_run (acts : list transition) :
  forall s, registry_ok s -> all_entries s -> all_entries (fst (run acts s)).
Proof.
  unfold run. induction acts as [|a acts IH]; intros s Hok H; [exact H|].
  destruct (for_each_cons step a acts s) as [-> _].
  apply IH; [now apply registry_ok_step | now apply entries_step].
Qed.
End EntryInvariant.

(* ================================================================= *)
(** ** Labels follow the status *)

(** X17.  Along every run the label of a pending entry is empty and the label
    of a sending entry is the placeholder "Thinking...": creation writes
    the first pair (lines 304-305), the dispatch the second (lines
    321-322), and no other write touches the label of an entry that is
    not done.  The registry [__init__] builds is empty, so this holds of
    every state the program reaches. *)
Theorem labels_follow_status (acts : list transition) (s : system) :
  registry_ok s -> labels_ok s -> labels_ok (fst (run acts s)).
Proof.
  intros Hok H. unfold labels_ok.
  apply (entries_run label_fits_status); try assumption.
  - intros yolo_raw. split; [reflexivity | discriminate].
  - intros o Ho. exact Ho.
  - intros o _ _. split; [discriminate | reflexivity].
  - intros o Ho. exact Ho.
  - intros result o _. split; discriminate.
Qed.

(** On the end-to-end scenario, from the initial registry. *)
Lemma labels_follow_status_witness :
  labels_ok (initial true three_models) /\
  labels_ok (fst (run bottle_story (initial true three_models))).
Proof.
  assert (H0 : labels_ok (initial true three_models)) by constructor.
  assert (Hok : registry_ok (initial true three_models)) by (split; constructor).
  split; [exact H0 | exact (labels_follow_status bottle_story _ Hok H0)].
Defined.

(** X18.  An object evicted before its recognition ended is deleted silently:
    when the registry's labels follow the status, the eviction of an
    entry that is pending or sending emits no removal message, whether
    the socket is connected or not. *)
Theorem no_removal_before_done
        (h w : Z) (dets : list (detection * gate_clock)) (s : system)
        (id : Z) (o : object_data) :
  NoDup (dict_keys (object_database s)) ->
  labels_ok s ->
  dict_get id (object_database s) = Some o ->
  ~ In id (frame_ids dets) ->
  MAX_MISSING_FRAMES < missing_count o + 1 ->
  status o <> done ->
  dict_get id (object_database (fst (process_frame h w dets s))) = None /\
  eviction_notice id (snd (process_frame h w dets s)) = Some None.
Proof.
  intros Hnd Hlab Hget Hout Hover Hst. split.
  - rewrite (process_frame_absent h w dets s id o Hnd Hget Hout).
    apply Z.ltb_lt in Hover. now rewrite Hover.
  - destruct (process_frame_eviction_log h w dets s id o Hnd Hget Hout Hover)
      as (before & after & -> & Hb & _ & Hp).
    unfold eviction_notice. rewrite eviction_notice_skip by assumption.
    rewrite Hp.
    assert (Hfit : label_fits_status o)
      by exact (Forall_dict_get label_fits_status id _ o Hlab Hget).
    destruct Hfit as [Hpend Hsend].
    assert (Hnone : removal_notice (is_connected s) (gemini_name o) = []).
    { destruct (status o) eqn:E.
      - rewrite (Hpend eq_refl). unfold removal_notice.
        now rewrite andb_false_r.
      - rewrite (Hsend eq_refl). unfold removal_notice.
        destruct (is_connected s); reflexivity.
      - now elim Hst. }
    rewrite Hnone. cbn. now rewrite Z.eqb_refl.
Qed.

(** Object 7, dispatched and then missed 31 times, leaves without a
    removal message. *)
Lemma no_removal_before_done_witness :
  eviction_notice 7 (snd (process_frame 480 640 [] leaving)) = Some None.
Proof.
  assert (Hnd : NoDup (dict_keys (object_database leaving))).
  { repeat constructor. intros []. }
  assert (Hlab : labels_ok leaving).
  { repeat constructor; discriminate. }
  exact (proj2 (no_removal_before_done 480 640 [] leaving 7
                  (mk_object "bottle" "Thinking..." sending 21 30)
                  Hnd Hlab eq_refl (fun H => H) eq_refl
                  (fun H => match H with eq_refl => I end))).
Defined.

(* ================================================================= *)
(** ** The overlay text *)

(** X6.  The overlay shows the refined label alone, in green, exactly when it
    is not empty and contains none of "Thinking", "額度" and "失敗"; the
    placeholder test comes first, so a label with "Thinking" is yellow
    whatever else it contains.  When the labels follow the status, a
    pending entry is shown as "YOLO: <coarse>" and a sending entry as
    "<coarse> (Thinking...)". *)
Theorem overlay_text_by_label_and_status :
  (forall g y,
      snd (display_text g y) = (0, 255, 0) <->
      g <> "" /\ contains "Thinking" g = false
      /\ contains "額度" g = false /\ contains "失敗" g = false) /\
  (forall g y, snd (display_text g y) = (0, 255, 0) -> fst (display_text g y) = g) /\
  (forall g y,
      g <> "" -> contains "Thinking" g = true ->
      display_text g y = ((y ++ " (" ++ g ++ ")")%string, (0, 255, 255))) /\
  (forall o,
      label_fits_status o -> status o = pending ->
      display_text (gemini_name o) (yolo_name o)
      = (("YOLO: " ++ yolo_name o)%string, (255, 100, 0))) /\
  (forall o,
      label_fits_status o -> status o = sending ->
      display_text (gemini_name o) (yolo_name o)
      = ((yolo_name o ++ " (Thinking...)")%string, (0, 255, 255))).
Proof.
  split; [|split; [|split; [|split]]].
  - intros g y. unfold display_text.
    destruct (String.eqb_spec g ""); [cbn; intuition congruence|].
    destruct (contains "Thinking" g); [cbn; intuition congruence|].
    destruct (contains "額度" g), (contains "失敗" g); cbn; intuition congruence.
  - intros g y. unfold display_text.
    destruct (String.eqb_spec g ""); [cbn; congruence|].
    destruct (contains "Thinking" g); [cbn; congruence|].
    destruct (contains "額度" g || contains "失敗" g); cbn; congruence.
  - intros g y Hne Hth. unfold display_text.
    destruct (String.eqb_spec g ""); [contradiction|]. now rewrite Hth.
  - intros o [Hpend _] Hst. now rewrite (Hpend Hst).
  - intros o [_ Hsend] Hst. now rewrite (Hsend Hst).
Qed.

(** The failure label "API錯誤" carries none of the three markers: it is
    drawn alone and in green; "辨識失敗" is drawn in red after the coarse
    label. *)
Lemma overlay_text_witness :
  display_text "API錯誤" "bottle" = ("API錯誤", (0, 255, 0)) /\
  display_text "辨識失敗" "bottle" = ("bottle (辨識失敗)", (0, 0, 255)) /\
  display_text "" "bottle" = ("YOLO: bottle", (255, 100, 0)).
Proof.
  destruct overlay_text_by_label_and_status as (Hgreen & Hfst & _ & Hpend & _).
  split; [|split].
  - assert (Hc : snd (display_text "API錯誤" "bottle") = (0, 255, 0)).
    { apply Hgreen. repeat split; try reflexivity. discriminate. }
    pose proof (Hfst _ _ Hc) as Hf.
    destruct (display_text "API錯誤" "bottle") as [txt col]. cbn in *.
    now subst.
  - reflexivity.
  - apply (Hpend (mk_object "bottle" "" pending 1 0)); [|reflexivity].
    split; [reflexivity | discriminate].
Defined.

(* ================================================================= *)
(** ** The reservation at dispatch bounds a frame's dispatches *)

Lemma in_window_since (t0 q t : Q) :
  (t0 <= t)%Q -> (double_sub q t0 < 60)%Q -> in_window q t = true.
Proof.
  intros H1 H2. apply double_sub_below_60 in H2. apply in_window_spec. lra.
Qed.

Lemma filter_filter_length {A : Type} (f g : A -> bool) (l : list A) :
  (forall x, f x = true -> g x = true) ->
  List.length (filter f (filter g l)) = List.length (filter f l).
Proof.
  intros H. induction l as [|x l IH]; [reflexivity|]. cbn.
  destruct (g x) eqn:Eg; cbn.
  - destruct (f x); cbn; now rewrite IH.
  - destruct (f x) eqn:Ef; [|exact IH]. apply H in Ef. congruence.
Qed.

Lemma puts_app (a b : list event) : puts (a ++ b) = (puts a + puts b)%nat.
Proof. unfold puts. now rewrite filter_app, length_app. Qed.

(** One detection whose clock readings lie in the minute that starts at
    [t0], as the window measures it: a dispatch adds one record to those made since [t0], and is
    only made while fewer than [MAX_RPM] of them exist. *)
Lemma process_detection_records (h w : Z) (d : detection) (clk : gate_clock)
      (s : system) (t0 : Q) :
  (t0 <= reserve_time clk)%Q -> (double_sub (quota_time clk) t0 < 60)%Q ->
  recorded_since t0 (fst (process_detection h w (d, clk) s))
  = (recorded_since t0 s + puts (snd (process_detection h w (d, clk) s)))%nat /\
  (puts (snd (process_detection h w (d, clk) s)) = 0%nat
   \/ (puts (snd (process_detection h w (d, clk) s)) = 1%nat
       /\ Z.of_nat (recorded_since t0 s) < MAX_RPM)).
Proof.
  intros Hres Hquota.
  assert (Hkept : List.length (filter (fun t => Qle_bool t0 t)
                                 (filter (in_window (quota_time clk)) (api_history s)))
                  = recorded_since t0 s).
  { apply filter_filter_length. intros t Ht. apply Qle_bool_iff in Ht.
    now apply in_window_since with (t0 := t0). }
  rewrite process_detection_cases. cbv zeta.
  destruct (gate_open _ _ _ _) eqn:Hgate; cbn [fst snd].
  - unfold recorded_since. cbn [api_history]. unfold puts. cbn [filter List.length].
    rewrite filter_app, length_app, Hkept. cbn [filter].
    assert (Hin : Qle_bool t0 (reserve_time clk) = true) by now apply Qle_bool_iff.
    rewrite Hin. split; [reflexivity|]. right. split; [reflexivity|].
    unfold gate_open, check_api_quota in Hgate.
    cbn [snd api_history with_object_database] in Hgate.
    rewrite !andb_true_iff in Hgate. destruct Hgate as [[_ Hq] _].
    apply Z.ltb_lt in Hq.
    pose proof (filter_length_le (fun t => Qle_bool t0 t)
                  (filter (in_window (quota_time clk)) (api_history s))) as Hle.
    rewrite Hkept in Hle. fold (recorded_since t0 s). lia.
  - unfold puts. cbn [filter List.length]. rewrite Nat.add_0_r.
    split; [|now left].
    destruct (_ && _); [|reflexivity].
    unfold recorded_since. cbn [api_history with_api_history with_object_database].
    exact Hkept.
Qed.

Lemma detect_loop_records (h w : Z) (t0 : Q) (dets : list (detection * gate_clock)) :
  Forall (fun dc => (t0 <= reserve_time (snd dc))%Q
                    /\ (double_sub (quota_time (snd dc)) t0 < 60)%Q) dets ->
  forall s,
    recorded_since t0 (fst (for_each (process_detection h w) dets s))
    = (recorded_since t0 s + puts (snd (for_each (process_detection h w) dets s)))%nat /\
    Z.of_nat (recorded_since t0 (fst (for_each (process_detection h w) dets s)))
    <= Z.max (Z.of_nat (recorded_since t0 s)) MAX_RPM.
Proof.
  induction 1 as [|[d clk] dets [Hres Hquota] _ IH]; intros s.
  - cbn. unfold puts. cbn. split; lia.
  - destruct (for_each_cons (process_detection h w) (d, clk) dets s) as [-> ->].
    destruct (process_detection_records h w d clk s t0 Hres Hquota) as [H1 H2].
    destruct (IH (fst (process_detection h w (d, clk) s))) as [I1 I2].
    rewrite puts_app. split; [lia|].
    destruct H2 as [H2 | [H2 H3]]; lia.
Qed.

Lemma sweep_loop_puts (cur : list Z) (ks : list Z) :
  forall s, puts (snd (for_each (sweep_one cur) ks s)) = 0%nat.
Proof.
  induction ks as [|k ks IH]; intros s; [reflexivity|].
  destruct (for_each_cons (sweep_one cur) k ks s) as [_ ->].
  rewrite puts_app, IH, sweep_one_events. unfold sweep_events, removal_notice.
  destruct (existsb _ _); [reflexivity|].
  destruct (dict_get _ _) as [o|]; [|reflexivity].
  destruct (_ <? _); [|reflexivity].
  destruct (_ && _); reflexivity.
Qed.

(** X7.  A frame pass whose clock readings all lie within one minute of
    [t0], none before [t0] and each with a double-precision difference
    from [t0] below 60, queues at most [MAX_RPM] tasks, however many
    stable objects are in view, and fewer when calls were already
    recorded in that minute: the timestamp appended at line 319 is
    counted by the capacity check of the next detection. *)
Theorem frame_dispatches_within_quota
        (h w : Z) (dets : list (detection * gate_clock)) (s : system) (t0 : Q) :
  Forall (fun dc => (t0 <= reserve_time (snd dc))%Q
                    /\ (double_sub (quota_time (snd dc)) t0 < 60)%Q) dets ->
  Z.of_nat (puts (snd (process_frame h w dets s))) <= MAX_RPM /\
  Z.of_nat (puts (snd (process_frame h w dets s))) + Z.of_nat (recorded_since t0 s)
  <= Z.max (Z.of_nat (recorded_since t0 s)) MAX_RPM.
Proof.
  intros Hclk.
  destruct (process_frame_unfold h w dets s) as [_ ->].
  unfold sweep_missing. rewrite puts_app, sweep_loop_puts, Nat.add_0_r.
  destruct (detect_loop_records h w t0 dets Hclk s) as [H1 H2].
  assert (0 <= MAX_RPM) by (unfold MAX_RPM; lia). lia.
Qed.

(** Seven stable objects in one frame: five tasks are queued. *)
Lemma frame_dispatches_witness :
  Z.of_nat (puts (snd (process_frame 480 640 crowd_frame crowd))) <= MAX_RPM /\
  puts (snd (process_frame 480 640 crowd_frame crowd)) = 5%nat.
Proof.
  split; [|reflexivity].
  apply (frame_dispatches_within_quota 480 640 crowd_frame crowd 100).
  repeat (constructor; [split; [unfold Qle; cbn; lia | reflexivity]|]).
  constructor.
Defined.

(* ================================================================= *)
(** ** No dispatch before the stability threshold *)

Lemma unstable_same_get (id : Z) (s s' : system) (tr : list event) :
  dict_get id (object_database s') = dict_get id (object_database s) ->
  enqueues id tr = 0%nat ->
  still_unstable id 0 s tr s'.
Proof.
  intros Hget Henq. unfold still_unstable, seen_frames. rewrite Hget.
  split; [lia | intros _; exact Henq].
Qed.

Lemma unstable_trans (id : Z) (n1 n2 : nat) (s s1 s2 : system)
      (tr1 tr2 : list event) :
  still_unstable id n1 s tr1 s1 -> still_unstable id n2 s1 tr2 s2 ->
  still_unstable id (n1 + n2) s (tr1 ++ tr2) s2.
Proof.
  intros [B1 E1] [B2 E2]. split; [lia|].
  intros H. rewrite enqueues_app, E1, E2; lia.
Qed.

Lemma unstable_for_each {A : Type} (id : Z) (cost : A -> nat)
      (body : A -> system -> system * list event) :
  (forall x s, still_unstable id (cost x) s (snd (body x s)) (fst (body x s))) ->
  forall xs s,
    still_unstable id (list_sum (map cost xs)) s
                   (snd (for_each body xs s)) (fst (for_each body xs s)).
Proof.
  intros Hbody. induction xs as [|x xs IH]; intros s.
  - cbn. apply unstable_same_get; reflexivity.
  - destruct (for_each_cons body x xs s) as [-> ->]. cbn [map list_sum].
    eapply unstable_trans; [apply Hbody | apply IH].
Qed.

Lemma unstable_track (id : Z) (d : detection) (s : system) :
  still_unstable id (if track_id d =? id then 1 else 0) s []
                 (with_object_database (track d (object_database s)) s).
Proof.
  unfold still_unstable, seen_frames. cbn [object_database with_object_database].
  rewrite track_get. rewrite (Z.eqb_sym id).
  destruct (track_id d =? id) eqn:E.
  - apply Z.eqb_eq in E. subst id. unfold entry_after_track.
    split; [|reflexivity].
    destruct (dict_get _ _) as [o|]; cbn; lia.
  - split; [|reflexivity]. destruct (dict_get _ _); lia.
Qed.

Lemma unstable_dispatch (id : Z) (h w : Z) (clk : gate_clock) (d : detection)
      (s : system) :
  still_unstable id 0 s (snd (dispatch h w clk d s)) (fst (dispatch h w clk d s)).
Proof.
  destruct (dict_get (track_id d) (object_database s)) as [o|] eqn:Hget.
  - rewrite (dispatch_cases h w clk d s o Hget). cbv zeta.
    destruct (gate_open clk d s o) eqn:Hgate.
    + cbn [fst snd]. unfold still_unstable, seen_frames.
      cbn [object_database]. rewrite dict_get_modify.
      unfold gate_open in Hgate. rewrite !andb_true_iff in Hgate.
      destruct Hgate as [[[_ Hst] _] _]. apply Z.ltb_lt in Hst.
      destruct (id =? track_id d) eqn:E.
      * apply Z.eqb_eq in E. subst id. rewrite Hget. cbn. split; lia.
      * split; [destruct (dict_get _ _); lia|]. intros _.
        unfold enqueues. cbn. rewrite Z.eqb_sym, E. reflexivity.
    + cbn [fst snd]. apply unstable_same_get; [|reflexivity].
      destruct (_ && _); reflexivity.
  - unfold dispatch. rewrite Hget. apply unstable_same_get; reflexivity.
Qed.

Lemma unstable_detection (id : Z) (h w : Z) (dc : detection * gate_clock) (s : system) :
  still_unstable id (if track_id (fst dc) =? id then 1 else 0) s
                 (snd (process_detection h w dc s)) (fst (process_detection h w dc s)).
Proof.
  unfold process_detection.
  pose proof (unstable_trans id _ _ _ _ _ _ _
                (unstable_track id (fst dc) s)
                (unstable_dispatch id h w (snd dc) (fst dc)
                   (with_object_database (track (fst dc) (object_database s)) s))) as H.
  cbn [app] in H. now rewrite Nat.add_0_r in H.
Qed.

Lemma unstable_sweep_one (id : Z) (cur : list Z) (k : Z) (s : system) :
  still_unstable id 0 s (snd (sweep_one cur k s)) (fst (sweep_one cur k s)).
Proof.
  unfold still_unstable, seen_frames. rewrite sweep_one_get, sweep_one_events.
  split.
  - destruct (id =? k); [|lia]. unfold sweep_entry.
    destruct (existsb _ _); [lia|].
    destruct (dict_get id _) as [o|]; [|lia].
    destruct (_ <? _); cbn; lia.
  - intros _. apply sweep_events_enqueues.
Qed.

Lemma list_sum_const_0 {A : Type} (xs : list A) :
  list_sum (map (fun _ => 0%nat) xs) = 0%nat.
Proof. induction xs; cbn; auto. Qed.

Lemma unstable_sweep (id : Z) (cur : list Z) (s : system) :
  still_unstable id 0 s (snd (sweep_missing cur s)) (fst (sweep_missing cur s)).
Proof.
  unfold sweep_missing.
  pose proof (unstable_for_each id (fun _ => 0%nat) (sweep_one cur)
                (fun k s0 => unstable_sweep_one id cur k s0)
                (dict_keys (object_database s)) s) as H.
  now rewrite list_sum_const_0 in H.
Qed.

Lemma detections_sum (id : Z) (dets : list (detection * gate_clock)) :
  list_sum (map (fun dc : detection * gate_clock =>
                   if track_id (fst dc) =? id then 1%nat else 0%nat) dets)
  = count_occ Z.eq_dec (frame_ids dets) id.
Proof.
  induction dets as [|dc dets IH]; [reflexivity|].
  change (frame_ids (dc :: dets)) with (track_id (fst dc) :: frame_ids dets).
  cbn [map count_occ]. unfold list_sum in *. cbn [fold_right]. rewrite IH.
  destruct (Z.eq_dec _ _) as [e|n].
  - apply Z.eqb_eq in e. now rewrite e.
  - apply Z.eqb_neq in n. now rewrite n.
Qed.

Lemma unstable_process_frame (id : Z) (h w : Z)
      (dets : list (detection * gate_clock)) (s : system) :
  still_unstable id (count_occ Z.eq_dec (frame_ids dets) id) s
                 (snd (process_frame h w dets s)) (fst (process_frame h w dets s)).
Proof.
  destruct (process_frame_unfold h w dets s) as [-> ->].
  rewrite <- (Nat.add_0_r (count_occ _ _ _)), <- detections_sum.
  eapply unstable_trans; [|apply unstable_sweep].
  apply (unstable_for_each id _ (process_detection h w)).
  intros dc s0. apply unstable_detection.
Qed.

Lemma unstable_write_back (id id' : Z) (result : string) (s : system) :
  still_unstable id 0 s [] (write_back id' result s).
Proof.
  unfold still_unstable, seen_frames. rewrite write_back_get.
  split; [|reflexivity].
  destruct (id =? id'); [|lia].
  destruct (dict_get id _) as [o|]; cbn; lia.
Qed.

Lemma unstable_recognise (id : Z) (env : nat -> attempt_env) (t : task) (s : system) :
  still_unstable id 0 s (snd (recognise env t s)) (snd (fst (recognise env t s))).
Proof.
  destruct (recognise_frame env t s) as (Hdb & _ & _ & _ & Hev).
  apply unstable_same_get; [now rewrite Hdb|].
  now apply Forall_loop_event_counts.
Qed.

Lemma unstable_publish (id : Z) (emit_ok : bool) (result : string) (s : system) :
  still_unstable id 0 s (snd (publish_result emit_ok result s))
                 (fst (publish_result emit_ok result s)).
Proof.
  destruct (publish_result_frame emit_ok result s) as (Hdb & _ & _).
  apply unstable_same_get; [now rewrite Hdb | apply publish_result_enqueues].
Qed.

Lemma unstable_gemini_worker (id : Z) (env : nat -> attempt_env) (emit_ok : bool)
      (s : system) :
  still_unstable id 0 s (snd (gemini_worker env emit_ok s))
                 (fst (gemini_worker env emit_ok s)).
Proof.
  unfold gemini_worker. destruct (task_queue s) as [|t rest].
  - apply unstable_same_get; reflexivity.
  - destruct (negb _); [apply unstable_same_get; reflexivity|].
    destruct (crop_empty _); [apply unstable_same_get; reflexivity|].
    pose proof (unstable_recognise id env t (with_task_queue rest s)) as Hrec.
    destruct (recognise env t (with_task_queue rest s)) as [[r s1] tr1].
    cbn [fst snd] in Hrec.
    pose proof (unstable_publish id emit_ok (product_name r)
                  (write_back (task_id t) (product_name r) s1)) as Hpub.
    destruct (publish_result emit_ok (product_name r) _) as [s3 tr2].
    cbn [fst snd] in *.
    assert (H1 : still_unstable id 0 s [] (with_task_queue rest s))
      by (apply unstable_same_get; reflexivity).
    exact (unstable_trans _ _ _ _ _ _ _ _ H1
             (unstable_trans _ _ _ _ _ _ _ _ Hrec
                (unstable_trans _ _ _ _ _ _ _ _
                   (unstable_write_back id (task_id t) (product_name r) s1) Hpub))).
Qed.

Lemma unstable_step (id : Z) (a : transition) (s : system) :
  still_unstable id (detections_in id a) s (snd (step a s)) (fst (step a s)).
Proof.
  destruct a; cbn [step detections_in].
  - apply unstable_process_frame.
  - apply unstable_gemini_worker.
  - apply unstable_same_get; [reflexivity | apply on_resync_request_enqueues].
  - apply unstable_detection.
  - apply unstable_track.
  - apply unstable_dispatch.
  - apply unstable_sweep.
  - apply unstable_same_get; reflexivity.
  - pose proof (unstable_recognise id env t s) as H.
    destruct (recognise env t s) as [[r s1] tr]. exact H.
  - apply unstable_write_back.
  - apply unstable_publish.
Qed.

Lemma unstable_run (id : Z) (acts : list transition) :
  forall s,
    still_unstable id (detections_of id acts) s (snd (run acts s)) (fst (run acts s)).
Proof.
  unfold run. induction acts as [|a acts IH]; intros s.
  - apply unstable_same_get; reflexivity.
  - destruct (for_each_cons step a acts s) as [-> ->]. cbn [detections_of].
    eapply unstable_trans; [apply unstable_step | apply IH].
Qed.

(** X8.  In any interleaving of the threads, no task is queued for an object
    until the detection loop has counted it in more than
    [STABILITY_FRAMES] frames: with [c] frames counted so far (none for
    an object not tracked) and [n] further detections of it, [c + n <= 20]
    leaves the queue without a task for it.  An eviction in between only
    restarts the count (lines 302-308). *)
Theorem no_dispatch_before_stable (id : Z) (acts : list transition) (s : system) :
  Z.max 0 (seen_frames id s) + Z.of_nat (detections_of id acts) <= STABILITY_FRAMES ->
  enqueues id (snd (run acts s)) = 0%nat /\
  seen_frames id (fst (run acts s))
  <= Z.max 0 (seen_frames id s) + Z.of_nat (detections_of id acts).
Proof.
  intros H. destruct (unstable_run id acts s) as [B E].
  split; [exact (E H) | lia].
Qed.

(** Fifteen frames counted, five more frames: nothing queued, twenty
    counted. *)
Lemma no_dispatch_before_stable_witness :
  enqueues 7 (snd (run five_frames warming_up)) = 0%nat /\
  seen_frames 7 (fst (run five_frames warming_up)) = 20.
Proof.
  split; [|reflexivity].
  apply (no_dispatch_before_stable 7 five_frames warming_up).
  unfold STABILITY_FRAMES. cbn. lia.
Defined.

(* ================================================================= *)
(** ** What the retry loop returns *)

Lemma models_called_app (a b : list event) :
  models_called (a ++ b) = models_called a ++ models_called b.
Proof. apply flat_map_app. Qed.

Lemma model_after_0 (s : system) :
  (current_model_index s < List.length (valid_models s))%nat ->
  model_name s = nth (current_model_index s) (valid_models s) "" ->
  model_after 0 s = model_name s.
Proof.
  intros Hi Hn. unfold model_after. now rewrite Nat.add_0_r, Nat.mod_small.
Qed.

(** A pass that meets a capacity-exhausted answer. *)
Lemma attempt_limited (e : attempt_env) (t : task) (r : retry_state) (s : system) :
  rate_limited e = true ->
  let s1 := snd (fst (attempt e t r s)) in
  fst (fst (attempt e t r s)) = mk_retry (S (attempts r)) (product_name r) false /\
  models_called (snd (attempt e t r s)) = [model_name s] /\
  valid_models s1 = valid_models s /\
  current_model_index s1
    = ((current_model_index s + 1) mod List.length (valid_models s))%nat /\
  model_name s1 = nth (current_model_index s1) (valid_models s) "" /\
  incl (api_history s1) (api_history s).
Proof.
  intros Hlim. cbv zeta. rewrite attempt_unfold. cbv zeta.
  unfold rate_limited in Hlim.
  destruct (api_answer e) as [text|err]; [discriminate|]. rewrite Hlim.
  cbn [fst snd]. repeat split.
  - rewrite models_called_app. cbn.
    destruct (_ <? _); reflexivity.
  - intros x Hx. cbn in Hx. now apply filter_In in Hx.
Qed.

(** A pass that meets any other answer ends the loop. *)
Lemma attempt_decided (e : attempt_env) (t : task) (r : retry_state) (s : system) :
  rate_limited e = false ->
  let r1 := fst (fst (attempt e t r s)) in
  let s1 := snd (fst (attempt e t r s)) in
  stopped r1 = true /\ product_name r1 = label_of (api_answer e) /\
  models_called (snd (attempt e t r s)) = [model_name s] /\
  api_history s1
  = filter (in_window (check_time e)) (api_history s)
    ++ match api_answer e with
       | Response _ => [success_time e]
       | ApiError _ => []
       end.
Proof.
  intros Hlim. cbv zeta. rewrite attempt_unfold. cbv zeta.
  unfold rate_limited in Hlim.
  destruct (api_answer e) as [text|err].
  - cbn [fst snd stopped product_name label_of api_history with_api_history].
    repeat split. cbn. destruct (_ <? _); reflexivity.
  - rewrite Hlim.
    cbn [fst snd stopped product_name label_of api_history with_api_history].
    rewrite app_nil_r. repeat split. cbn. destruct (_ <? _); reflexivity.
Qed.

Lemma model_after_shift (j : nat) (s s1 : system) :
  valid_models s1 = valid_models s ->
  current_model_index s1
    = ((current_model_index s + 1) mod List.length (valid_models s))%nat ->
  model_after j s1 = model_after (S j) s.
Proof.
  intros Hm Hi. unfold model_after. rewrite Hm, Hi.
  destruct (List.length (valid_models s)) as [|n] eqn:Hn.
  - apply length_zero_iff_nil in Hn. rewrite Hn.
    now rewrite !(nth_overflow []) by (cbn; lia).
  - rewrite Nat.Div0.add_mod_idemp_l. f_equal. f_equal. lia.
Qed.

Lemma models_after_shift (k : nat) (s s1 : system) :
  valid_models s1 = valid_models s ->
  current_model_index s1
    = ((current_model_index s + 1) mod List.length (valid_models s))%nat ->
  model_after 0 s :: map (fun j => model_after j s1) (seq 0 k)
  = map (fun j => model_after j s) (seq 0 (S k)).
Proof.
  intros Hm Hi. cbn [seq map]. f_equal.
  rewrite <- seq_shift, map_map. apply map_ext.
  intros j. now apply model_after_shift.
Qed.

(** The loop met with capacity-exhausted answers only. *)
Lemma retry_loop_exhausted (env : nat -> attempt_env) (t : task) (m : nat) :
  forall fuel r s r' s' tr,
    (m - attempts r <= fuel)%nat ->
    (forall j, (attempts r <= j < m)%nat -> rate_limited (env j) = true) ->
    (current_model_index s < List.length (valid_models s))%nat ->
    model_name s = nth (current_model_index s) (valid_models s) "" ->
    retry_loop fuel env t m r s = (r', s', tr) ->
    product_name r' = product_name r /\
    models_called tr = map (fun j => model_after j s) (seq 0 (m - attempts r)) /\
    current_model_index s'
      = ((current_model_index s + (m - attempts r))
         mod List.length (valid_models s))%nat /\
    model_name s' = nth (current_model_index s') (valid_models s) "" /\
    incl (api_history s') (api_history s).
Proof.
  induction fuel as [|fuel IH]; intros r s r' s' tr Hfuel Hlim Hi Hn Hrun.
  - cbn in Hrun. injection Hrun as <- <- <-.
    replace (m - attempts r)%nat with 0%nat by lia.
    rewrite Nat.add_0_r, Nat.mod_small by exact Hi.
    repeat split; try assumption. apply incl_refl.
  - cbn [retry_loop] in Hrun.
    destruct (attempts r <? m)%nat eqn:Hlt.
    + apply Nat.ltb_lt in Hlt.
      destruct (attempt_limited (env (attempts r)) t r s
                  (Hlim (attempts r) (conj (Nat.le_refl _) Hlt)))
        as (Hr1 & Hcall & Hm1 & Hi1 & Hn1 & Hh1).
      destruct (attempt (env (attempts r)) t r s) as [[r1 s1] tr1].
      cbn [fst snd] in *. subst r1. cbn [stopped] in Hrun.
      destruct (retry_loop fuel env t m _ s1) as [[r2 s2] tr2] eqn:Hrest.
      injection Hrun as <- <- <-.
      assert (Hi1' : (current_model_index s1 < List.length (valid_models s1))%nat).
      { rewrite Hm1, Hi1. apply Nat.mod_upper_bound. lia. }
      pose proof (fun H1 H2 H3 H4 => IH _ _ _ _ _ H1 H2 H3 H4 Hrest) as IH'.
      clear IH. cbn [attempts product_name] in IH'.
      specialize (IH' ltac:(lia)). rename IH' into IH.
      destruct IH as (Hp & Hc & Hidx & Hname & Hh);
        [intros j Hj; apply Hlim; lia | exact Hi1' | now rewrite Hm1 |].
      cbn [attempts product_name] in *. rewrite Hm1 in *.
      replace (m - attempts r)%nat with (S (m - S (attempts r))) by lia.
      repeat split.
      * exact Hp.
      * rewrite models_called_app, Hcall, Hc.
        rewrite <- (model_after_0 s Hi Hn).
        now apply models_after_shift.
      * rewrite Hidx, Hi1, Nat.Div0.add_mod_idemp_l. f_equal. lia.
      * exact Hname.
      * intros x Hx. apply Hh1, Hh, Hx.
    + apply Nat.ltb_ge in Hlt. injection Hrun as <- <- <-.
      replace (m - attempts r)%nat with 0%nat by lia.
      rewrite Nat.add_0_r, Nat.mod_small by exact Hi.
      repeat split; try assumption. apply incl_refl.
Qed.

(** The loop met with [k] capacity-exhausted answers and then another. *)
Lemma retry_loop_decided (env : nat -> attempt_env) (t : task) (m : nat) :
  forall k fuel r s r' s' tr,
    (attempts r + k < m)%nat -> (k < fuel)%nat ->
    (forall j, (j < k)%nat -> rate_limited (env (attempts r + j)%nat) = true) ->
    rate_limited (env (attempts r + k)%nat) = false ->
    (current_model_index s < List.length (valid_models s))%nat ->
    model_name s = nth (current_model_index s) (valid_models s) "" ->
    retry_loop fuel env t m r s = (r', s', tr) ->
    product_name r' = label_of (api_answer (env (attempts r + k)%nat)) /\
    models_called tr = map (fun j => model_after j s) (seq 0 (S k)) /\
    model_name s' = model_after k s.
Proof.
  induction k as [|k IH]; intros fuel r s r' s' tr Hm Hfuel Hlim Hdec Hi Hn Hrun;
    (destruct fuel as [|fuel]; [lia|]); cbn [retry_loop] in Hrun;
    (assert (Hlt : (attempts r <? m)%nat = true) by (apply Nat.ltb_lt; lia));
    rewrite Hlt in Hrun.
  - rewrite Nat.add_0_r in *.
    destruct (attempt_decided (env (attempts r)) t r s Hdec)
      as (Hstop & Hlabel & Hcall & _).
    pose proof (fun r1 s1 tr1 => attempt_rotation (env (attempts r)) t r r1 s s1 tr1)
      as Hrot.
    destruct (attempt (env (attempts r)) t r s) as [[r1 s1] tr1].
    specialize (Hrot _ _ _ eq_refl). rewrite Hdec in Hrot.
    cbn [fst snd] in *. rewrite Hstop in Hrun. injection Hrun as <- <- <-.
    cbn [seq map]. rewrite (model_after_0 s Hi Hn).
    repeat split; [exact Hlabel | exact Hcall | exact (proj2 Hrot)].
  - assert (Hfirst : rate_limited (env (attempts r)) = true).
    { specialize (Hlim 0%nat ltac:(lia)). now rewrite Nat.add_0_r in Hlim. }
    destruct (attempt_limited (env (attempts r)) t r s Hfirst)
      as (Hr1 & Hcall & Hm1 & Hi1 & Hn1 & _).
    destruct (attempt (env (attempts r)) t r s) as [[r1 s1] tr1].
    cbn [fst snd] in *. subst r1. cbn [stopped] in Hrun.
    destruct (retry_loop fuel env t m _ s1) as [[r2 s2] tr2] eqn:Hrest.
    injection Hrun as <- <- <-.
    assert (Hi1' : (current_model_index s1 < List.length (valid_models s1))%nat).
    { rewrite Hm1, Hi1. apply Nat.mod_upper_bound. lia. }
    pose proof (fun H1 H2 H3 H4 H5 H6 => IH _ _ _ _ _ _ H1 H2 H3 H4 H5 H6 Hrest) as IH'.
    clear IH. rename IH' into IH.
    cbn [attempts product_name] in IH. rewrite Nat.add_succ_r in Hdec.
    destruct IH as (Hp & Hc & Hname);
      [lia | lia
       | intros j Hj; specialize (Hlim (S j) ltac:(lia));
         now rewrite Nat.add_succ_r in Hlim
       | exact Hdec | exact Hi1' | now rewrite Hm1 |].
    rewrite Nat.add_succ_r.
    repeat split.
    + exact Hp.
    + rewrite models_called_app, Hcall, Hc.
      rewrite <- (model_after_0 s Hi Hn).
      now apply models_after_shift.
    + rewrite Hname. now apply model_after_shift.
Qed.

(** Reading a ring from place [i] on visits every place once. *)
Lemma ring_order (l : list string) (i : nat) :
  (i < List.length l)%nat ->
  map (fun j => nth ((i + j) mod List.length l) l "") (seq 0 (List.length l))
  = skipn i l ++ firstn i l.
Proof.
  intros Hi.
  apply nth_ext with (d := nth ((i + 0) mod List.length l) l "") (d' := "").
  - rewrite length_map, length_seq, length_app, length_skipn, length_firstn. lia.
  - intros k Hk. rewrite length_map, length_seq in Hk.
    rewrite (map_nth (fun j => nth ((i + j) mod List.length l) l "")).
    rewrite seq_nth by exact Hk. cbn [Nat.add].
    destruct (Nat.lt_ge_cases k (List.length l - i)) as [Hlt | Hge].
    + rewrite app_nth1 by (rewrite length_skipn; exact Hlt).
      rewrite nth_skipn, Nat.mod_small by lia. reflexivity.
    + rewrite app_nth2 by (rewrite length_skipn; exact Hge).
      rewrite length_skipn, nth_firstn.
      assert (Hin : (k - (List.length l - i) <? i)%nat = true)
        by (apply Nat.ltb_lt; lia).
      rewrite Hin. f_equal.
      replace (i + k)%nat
        with ((k - (List.length l - i)) + 1 * List.length l)%nat by lia.
      rewrite Nat.Div0.mod_add. apply Nat.mod_small. lia.
Qed.

Lemma ring_order_permutation (s : system) :
  (current_model_index s < List.length (valid_models s))%nat ->
  Permutation (map (fun j => model_after j s) (seq 0 (List.length (valid_models s))))
              (valid_models s).
Proof.
  intros Hi. unfold model_after. rewrite (ring_order _ _ Hi).
  rewrite Permutation_app_comm, firstn_skipn. reflexivity.
Qed.

(** X10.  The retry loop of lines 208-236, started on a well-formed ring.  The
    first answer that is not a capacity-exhausted error decides the
    label: the stripped text of a response, "API錯誤" for any other
    error; the backends called up to then are the current one and its
    successors on the ring, one call each, and the one that answered
    stays selected.  When each of the [len(valid_models)] passes meets a
    capacity-exhausted error, the label is the initial "辨識失敗", every
    valid backend has been called exactly once in ring order, the
    selection is back where it started, and no call was recorded. *)
Theorem recognise_outcome (env : nat -> attempt_env) (t : task) (s : system) :
  (current_model_index s < List.length (valid_models s))%nat ->
  model_name s = nth (current_model_index s) (valid_models s) "" ->
  let n := List.length (valid_models s) in
  let r' := fst (fst (recognise env t s)) in
  let s' := snd (fst (recognise env t s)) in
  let tr := snd (recognise env t s) in
  (forall k, (k < n)%nat ->
             (forall j, (j < k)%nat -> rate_limited (env j) = true) ->
             rate_limited (env k) = false ->
             product_name r' = label_of (api_answer (env k)) /\
             models_called tr = map (fun j => model_after j s) (seq 0 (S k)) /\
             model_name s' = model_after k s) /\
  ((forall j, (j < n)%nat -> rate_limited (env j) = true) ->
   product_name r' = "辨識失敗" /\
   models_called tr = map (fun j => model_after j s) (seq 0 n) /\
   Permutation (models_called tr) (valid_models s) /\
   current_model_index s' = current_model_index s /\
   model_name s' = model_name s /\
   incl (api_history s') (api_history s)).
Proof.
  intros Hi Hn. cbv zeta. unfold recognise.
  destruct (retry_loop _ env t _ _ s) as [[r' s'] tr] eqn:Hrun. cbn [fst snd].
  split.
  - intros k Hk Hlim Hdec.
    exact (retry_loop_decided env t _ k _ (mk_retry 0 "辨識失敗" false) s r' s' tr
             Hk Hk Hlim Hdec Hi Hn Hrun).
  - intros Hlim.
    destruct (retry_loop_exhausted env t (List.length (valid_models s))
                (List.length (valid_models s))
                (mk_retry 0 "辨識失敗" false) s r' s' tr
                ltac:(cbn [attempts]; lia)
                ltac:(cbn [attempts]; intros j Hj; apply Hlim; lia) Hi Hn Hrun)
      as (Hp & Hc & Hidx & Hname & Hh).
    cbn [attempts product_name] in *. rewrite Nat.sub_0_r in *.
    assert (Hback : current_model_index s' = current_model_index s).
    { rewrite Hidx.
      rewrite <- (Nat.mul_1_l (List.length (valid_models s))) at 1.
      rewrite Nat.Div0.mod_add. now apply Nat.mod_small. }
    repeat split; try assumption.
    + rewrite Hc. apply ring_order_permutation. exact Hi.
    + rewrite Hname, Hback. now symmetry.
Qed.

(** Starting on the second of three backends: two capacity-exhausted
    answers and then a 503 leave "API錯誤" with the first backend
    selected; three capacity-exhausted answers leave "辨識失敗", the
    second backend selected again. *)
Lemma recognise_outcome_witness :
  (product_name (fst (fst (recognise world_two_429 bottle_task on_second_model)))
   = "API錯誤" /\
   models_called (snd (recognise world_two_429 bottle_task on_second_model))
   = ["gemini-exp-1206"; "gemini-2.5-flash"; "gemini-2.0-flash-exp"] /\
   model_name (snd (fst (recognise world_two_429 bottle_task on_second_model)))
   = "gemini-2.0-flash-exp") /\
  (product_name (fst (fst (recognise world_all_429 bottle_task on_second_model)))
   = "辨識失敗" /\
   current_model_index (snd (fst (recognise world_all_429 bottle_task on_second_model)))
   = 1%nat).
Proof.
  split.
  - apply (proj1 (recognise_outcome world_two_429 bottle_task on_second_model
                    ltac:(cbn; lia) eq_refl) 2%nat).
    + cbn. lia.
    + intros [|[|j]] Hj; [reflexivity | reflexivity | lia].
    + reflexivity.
  - destruct (proj2 (recognise_outcome world_all_429 bottle_task on_second_model
                       ltac:(cbn; lia) eq_refl))
      as (Hp & _ & _ & Hidx & _).
    + intros j _. reflexivity.
    + split; [exact Hp | exact Hidx].
Defined.

(* ================================================================= *)
(** ** The quota window over time *)

Lemma in_window_later (t1 t2 t : Q) :
  (t1 <= t2)%Q -> in_window t2 t = true -> in_window t1 t = true.
Proof. rewrite !in_window_spec. intros H1 H2. lra. Qed.

Lemma filter_filter_absorb {A : Type} (f g : A -> bool) (l : list A) :
  (forall x, f x = true -> g x = true) ->
  filter f (filter g l) = filter f l.
Proof.
  intros H. induction l as [|x l IH]; [reflexivity|]. cbn.
  destruct (g x) eqn:Eg; cbn.
  - destruct (f x); now rewrite IH.
  - destruct (f x) eqn:Ef; [|exact IH]. apply H in Ef. congruence.
Qed.

Lemma filter_length_mono {A : Type} (f g : A -> bool) (l : list A) :
  (forall x, f x = true -> g x = true) ->
  (List.length (filter f l) <= List.length (filter g l))%nat.
Proof.
  intros H. rewrite <- (filter_filter_absorb f g l H). apply filter_length_le.
Qed.

(** X12.  As the clock advances and no call is recorded, the window only
    loses readings: a check at [t2] after a check at an earlier [t1]
    leaves what the check at [t2] alone would have left, capacity
    reported at [t1] is still reported at [t2], and once every recorded
    reading is 60 seconds old the history is empty and capacity is
    reported. *)
Theorem quota_window_over_time (t1 t2 : Q) (s : system) :
  (t1 <= t2)%Q ->
  check_api_quota t2 (fst (check_api_quota t1 s)) = check_api_quota t2 s /\
  (List.length (api_history (fst (check_api_quota t2 s)))
   <= List.length (api_history (fst (check_api_quota t1 s))))%nat /\
  (snd (check_api_quota t1 s) = true -> snd (check_api_quota t2 s) = true) /\
  (Forall (fun t => (t + 60 <= t2)%Q) (api_history s) ->
   api_history (fst (check_api_quota t2 s)) = [] /\
   snd (check_api_quota t2 s) = true).
Proof.
  intros Hle. unfold check_api_quota.
  cbn [fst snd api_history with_api_history].
  assert (Hsub : forall t, in_window t2 t = true -> in_window t1 t = true)
    by (intros t; now apply in_window_later).
  split; [|split; [|split]].
  - rewrite (filter_filter_absorb _ _ _ Hsub). now destruct s.
  - now apply filter_length_mono.
  - rewrite !Z.ltb_lt. intros H.
    pose proof (filter_length_mono _ _ (api_history s) Hsub). lia.
  - intros Hold. rewrite filter_none; [split; reflexivity|].
    eapply Forall_impl; [|exact Hold]. cbn. intros t Ht.
    destruct (in_window t2 t) eqn:E; [|reflexivity].
    apply in_window_spec in E. lra.
Qed.

(** Five calls recorded in seconds 0 to 4: no capacity at second 10, and
    an empty history with capacity at second 64. *)
Lemma quota_window_over_time_witness :
  snd (check_api_quota 10 saturated) = false /\
  check_api_quota 64 (fst (check_api_quota 10 saturated))
  = check_api_quota 64 saturated /\
  api_history (fst (check_api_quota 64 saturated)) = [] /\
  snd (check_api_quota 64 saturated) = true.
Proof.
  split; [reflexivity|].
  destruct (quota_window_over_time 10 64 saturated) as (H1 & _ & _ & H4).
  - unfold Qle. cbn. lia.
  - split; [exact H1|]. apply H4.
    repeat (constructor; [unfold Qle; cbn; lia|]). constructor.
Defined.

(* ================================================================= *)
(** ** One recognition, two records *)

Lemma recorded_since_pruned (t0 q : Q) (history : list Q) (extra : list Q) :
  (double_sub q t0 < 60)%Q ->
  List.length (filter (fun t => Qle_bool t0 t) (filter (in_window q) history ++ extra))
  = (List.length (filter (fun t => Qle_bool t0 t) history)
     + List.length (filter (fun t => Qle_bool t0 t) extra))%nat.
Proof.
  intros Hq. rewrite filter_app, length_app. f_equal.
  apply filter_filter_length. intros t Ht. apply Qle_bool_iff in Ht.
  now apply in_window_since with (t0 := t0).
Qed.

(** A first answer that is a response is recorded in the history. *)
Lemma recognise_records_response (env : nat -> attempt_env) (t : task) (s : system)
      (text : string) (t0 : Q) :
  (0 < List.length (valid_models s))%nat ->
  api_answer (env 0%nat) = Response text ->
  (t0 <= success_time (env 0%nat))%Q -> (double_sub (check_time (env 0%nat)) t0 < 60)%Q ->
  recorded_since t0 (snd (fst (recognise env t s))) = S (recorded_since t0 s).
Proof.
  intros Hn Hans Hsucc Hcheck. unfold recognise.
  destruct (List.length (valid_models s)) as [|n]; [lia|].
  cbn [retry_loop attempts Nat.ltb Nat.leb].
  assert (Hdec : rate_limited (env 0%nat) = false)
    by (unfold rate_limited; now rewrite Hans).
  destruct (attempt_decided (env 0%nat) t (mk_retry 0 "辨識失敗" false) s Hdec)
    as (Hstop & _ & _ & Hhist).
  destruct (attempt (env 0%nat) t _ s) as [[r1 s1] tr1]. cbn [fst snd] in *.
  rewrite Hstop. cbn [fst snd]. unfold recorded_since.
  rewrite Hhist, Hans, (recorded_since_pruned _ _ _ _ Hcheck). cbn [filter].
  assert (Hin : Qle_bool t0 (success_time (env 0%nat)) = true)
    by now apply Qle_bool_iff.
  rewrite Hin. cbn [List.length]. lia.
Qed.

Lemma process_detection_models (h w : Z) (dc : detection * gate_clock) (s : system) :
  valid_models (fst (process_detection h w dc s)) = valid_models s.
Proof.
  destruct dc as [d clk]. rewrite process_detection_cases. cbv zeta.
  destruct (gate_open _ _ _ _); [reflexivity|].
  destruct (_ && _); reflexivity.
Qed.

(** X13.  A recognition that succeeds at the first call is recorded twice in
    [api_history]: once by the frame thread when it queues the task
    (line 319) and once by the worker when the backend has answered
    (line 222).  Within one minute, measured as the window measures it
    (the double-precision difference from [t0] is below 60), the window
    therefore holds two readings for it. *)
Theorem recognition_recorded_twice
        (h w : Z) (d : detection) (clk : gate_clock) (env : nat -> attempt_env)
        (t : task) (s : system) (text : string) (t0 : Q) :
  (0 < List.length (valid_models s))%nat ->
  (t0 <= reserve_time clk)%Q -> (double_sub (quota_time clk) t0 < 60)%Q ->
  (t0 <= success_time (env 0%nat))%Q -> (double_sub (check_time (env 0%nat)) t0 < 60)%Q ->
  puts (snd (process_detection h w (d, clk) s)) = 1%nat ->
  api_answer (env 0%nat) = Response text ->
  let s1 := fst (process_detection h w (d, clk) s) in
  let s2 := snd (fst (recognise env t s1)) in
  recorded_since t0 s1 = (recorded_since t0 s + 1)%nat /\
  recorded_since t0 s2 = (recorded_since t0 s + 2)%nat.
Proof.
  intros Hn Hres Hquota Hsucc Hcheck Hput Hans. cbv zeta.
  destruct (process_detection_records h w d clk s t0 Hres Hquota) as [H1 _].
  rewrite Hput in H1. split; [exact H1|].
  rewrite (recognise_records_response env t _ text t0); try assumption.
  - lia.
  - now rewrite process_detection_models.
Qed.

(** Object 7 is queued at second 5 and recognised at second 16: two
    readings in an empty history. *)
Lemma recognition_recorded_twice_witness :
  recorded_since 0 three_objects = 0%nat /\
  api_history
    (snd (fst (recognise world_coffee bottle_task
                 (fst (process_detection 480 640 (bottle_box, clock_at 5)
                         three_objects)))))
  = [5; 16]%Q /\
  recorded_since 0
    (snd (fst (recognise world_coffee bottle_task
                 (fst (process_detection 480 640 (bottle_box, clock_at 5)
                         three_objects)))))
  = 2%nat.
Proof.
  split; [reflexivity|]. split; [reflexivity|].
  apply (recognition_recorded_twice 480 640 bottle_box (clock_at 5) world_coffee
           bottle_task three_objects "CoffeeCo" 0).
  - cbn. lia.
  - unfold Qle. cbn. lia.
  - reflexivity.
  - unfold Qle. cbn. lia.
  - reflexivity.
  - reflexivity.
  - reflexivity.
Defined.

(* ================================================================= *)
(** ** The task queue is first in, first out *)

Lemma queued_tasks_app (a b : list event) :
  queued_tasks (a ++ b) = queued_tasks a ++ queued_tasks b.
Proof. apply flat_map_app. Qed.

Lemma queued_tasks_none (tr : list event) :
  Forall (fun e => match e with Enqueued _ => False | _ => True end) tr ->
  queued_tasks tr = [].
Proof.
  induction 1 as [|e tr He _ IH]; [reflexivity|].
  change (queued_tasks (e :: tr))
    with (match e with Enqueued t => [t] | _ => [] end ++ queued_tasks tr).
  rewrite IH. now destruct e.
Qed.

Lemma queue_for_each {A : Type} (body : A -> system -> system * list event) :
  (forall x s, task_queue (fst (body x s))
               = task_queue s ++ queued_tasks (snd (body x s))) ->
  forall xs s,
    task_queue (fst (for_each body xs s))
    = task_queue s ++ queued_tasks (snd (for_each body xs s)).
Proof.
  intros Hbody. induction xs as [|x xs IH]; intros s.
  - cbn. now rewrite app_nil_r.
  - destruct (for_each_cons body x xs s) as [-> ->].
    rewrite IH, Hbody, queued_tasks_app, app_assoc. reflexivity.
Qed.

Lemma queue_dispatch (h w : Z) (clk : gate_clock) (d : detection) (s : system) :
  task_queue (fst (dispatch h w clk d s))
  = task_queue s ++ queued_tasks (snd (dispatch h w clk d s)).
Proof.
  destruct (dict_get (track_id d) (object_database s)) as [o|] eqn:Hget.
  - rewrite (dispatch_cases h w clk d s o Hget). cbv zeta.
    destruct (gate_open clk d s o); cbn [fst snd]; [reflexivity|].
    rewrite app_nil_r. destruct (_ && _); reflexivity.
  - unfold dispatch. rewrite Hget. cbn. now rewrite app_nil_r.
Qed.

Lemma queue_sweep (cur : list Z) (s : system) :
  task_queue (fst (sweep_missing cur s))
  = task_queue s ++ queued_tasks (snd (sweep_missing cur s)).
Proof.
  unfold sweep_missing. apply queue_for_each. intros k s0.
  destruct (sweep_one_frame cur k s0) as (_ & -> & _).
  rewrite sweep_one_events. unfold sweep_events, removal_notice.
  destruct (existsb _ _); [now rewrite app_nil_r|].
  destruct (dict_get _ _) as [o|]; [|now rewrite app_nil_r].
  destruct (_ <? _); [|now rewrite app_nil_r].
  destruct (_ && _); cbn; now rewrite app_nil_r.
Qed.

Lemma queue_process_frame (h w : Z) (dets : list (detection * gate_clock)) (s : system) :
  task_queue (fst (process_frame h w dets s))
  = task_queue s ++ queued_tasks (snd (process_frame h w dets s)).
Proof.
  destruct (process_frame_unfold h w dets s) as [-> ->].
  rewrite queue_sweep, queued_tasks_app, app_assoc. f_equal.
  apply (queue_for_each (process_detection h w)).
  intros dc s0. unfold process_detection. now rewrite queue_dispatch.
Qed.

Lemma queue_recognise (env : nat -> attempt_env) (t : task) (s : system) :
  task_queue (snd (fst (recognise env t s))) = task_queue s /\
  queued_tasks (snd (recognise env t s)) = [].
Proof.
  destruct (recognise_frame env t s) as (_ & Hq & _ & _ & Hev).
  split; [exact Hq|]. apply queued_tasks_none.
  eapply Forall_impl; [|exact Hev]. now intros [].
Qed.

Lemma queue_publish (emit_ok : bool) (result : string) (s : system) :
  task_queue (fst (publish_result emit_ok result s)) = task_queue s /\
  queued_tasks (snd (publish_result emit_ok result s)) = [].
Proof.
  destruct (publish_result_frame emit_ok result s) as (_ & Hq & Hev).
  split; [exact Hq|]. apply queued_tasks_none.
  eapply Forall_impl; [|exact Hev]. now intros [].
Qed.

Lemma queue_write_back (id : Z) (result : string) (s : system) :
  task_queue (write_back id result s) = task_queue s.
Proof. unfold write_back. now destruct (dict_has _ _). Qed.

Lemma queue_gemini_worker (env : nat -> attempt_env) (emit_ok : bool) (s : system) :
  task_queue (fst (gemini_worker env emit_ok s)) = tl (task_queue s) /\
  queued_tasks (snd (gemini_worker env emit_ok s)) = [].
Proof.
  unfold gemini_worker. destruct (task_queue s) as [|t rest] eqn:Hq.
  - cbn. now rewrite Hq.
  - destruct (negb _); [now cbn|].
    destruct (crop_empty _); [now cbn|].
    destruct (queue_recognise env t (with_task_queue rest s)) as [Q1 E1].
    destruct (recognise env t (with_task_queue rest s)) as [[r s1] tr1].
    cbn [fst snd] in *.
    destruct (queue_publish emit_ok (product_name r)
                (write_back (task_id t) (product_name r) s1)) as [Q2 E2].
    destruct (publish_result emit_ok (product_name r) _) as [s3 tr2].
    cbn [fst snd tl] in *.
    rewrite Q2, queue_write_back, Q1, queued_tasks_app, E1, E2.
    split; reflexivity.
Qed.

Lemma queue_step (a : transition) (s : system) :
  task_queue (fst (step a s))
  = (if takes_task a then tl (task_queue s) else task_queue s)
    ++ queued_tasks (snd (step a s)).
Proof.
  destruct a; cbn [step takes_task].
  - apply queue_process_frame.
  - destruct (queue_gemini_worker env emit_ok s) as [-> ->]. now rewrite app_nil_r.
  - cbn [fst snd]. rewrite queued_tasks_none, app_nil_r; [reflexivity|].
    unfold on_resync_request. apply Forall_flat_map, Forall_forall.
    intros kv _. unfold resync_notice. destruct (_ && _); repeat constructor.
  - unfold process_detection. now rewrite queue_dispatch.
  - cbn. now rewrite app_nil_r.
  - apply queue_dispatch.
  - apply queue_sweep.
  - cbn. now rewrite app_nil_r.
  - destruct (queue_recognise env t s) as [Q E].
    destruct (recognise env t s) as [[r s1] tr]. cbn [fst snd] in *.
    cbv beta iota. cbn [fst snd]. now rewrite Q, E, app_nil_r.
  - cbn [fst snd queued_tasks flat_map]. now rewrite queue_write_back, app_nil_r.
  - destruct (queue_publish emit_ok result s) as [-> ->]. now rewrite app_nil_r.
Qed.

(** X14.  The queue between the two threads is first in, first out, in any
    interleaving: a step changes the queue only by taking its head (the
    worker, line 189) or by appending the tasks it puts (line 327), so
    the tasks still queued are the last of the initial tasks followed by
    the tasks put, in the order they were put, and what the worker took
    is a prefix of them no longer than the number of takes. *)
Theorem task_queue_first_in_first_out (acts : list transition) (s : system) :
  (forall a s0,
      task_queue (fst (step a s0))
      = (if takes_task a then tl (task_queue s0) else task_queue s0)
        ++ queued_tasks (snd (step a s0))) /\
  exists served,
    task_queue s ++ queued_tasks (snd (run acts s))
    = served ++ task_queue (fst (run acts s)) /\
    (List.length served <= List.length (filter takes_task acts))%nat.
Proof.
  split; [exact queue_step|].
  unfold run. revert s. induction acts as [|a acts IH]; intros s.
  - exists []. cbn. rewrite app_nil_r. split; [reflexivity | lia].
  - destruct (for_each_cons step a acts s) as [-> ->].
    destruct (IH (fst (step a s))) as (served & Hq & Hlen).
    rewrite queued_tasks_app, app_assoc. rewrite queue_step in Hq.
    cbn [filter]. destruct (takes_task a).
    + destruct (task_queue s) as [|t rest].
      * exists served. cbn [tl app] in *. split; [exact Hq | cbn; lia].
      * exists (t :: served). cbn [tl app] in *.
        split; [now rewrite Hq | cbn; lia].
    + exists served. split; [exact Hq | lia].
Qed.

(* ================================================================= *)
(** ** Start-up: the valid models *)

Lemma probe_all_filter (probe : string -> probe_outcome) (names : list string) :
  forall valid_list,
    probe_all probe names valid_list = valid_list ++ filter (usable probe) names.
Proof.
  induction names as [|name rest IH]; intros valid_list.
  - cbn. now rewrite app_nil_r.
  - cbn [probe_all filter]. unfold usable at 1.
    destruct (probe name) as [|err].
    + rewrite IH, <- app_assoc. reflexivity.
    + destruct (contains "404" err); cbn [negb].
      * apply IH.
      * rewrite IH, <- app_assoc. reflexivity.
Qed.

(** X1.  [filter_valid_models] returns the candidates in their order, without
    those whose probe raised an error that mentions "404".  A candidate
    whose probe failed for any other reason is kept.  No name is listed
    twice. *)
Theorem filter_valid_models_drops_404_only (probe : string -> probe_outcome) :
  filter_valid_models probe = filter (usable probe) CANDIDATE_MODELS /\
  (forall name,
      In name (filter_valid_models probe) <->
      In name CANDIDATE_MODELS /\
      forall err, probe name = ProbeError err -> contains "404" err = false) /\
  NoDup (filter_valid_models probe) /\
  (List.length (filter_valid_models probe) <= List.length CANDIDATE_MODELS)%nat.
Proof.
  assert (Heq : filter_valid_models probe = filter (usable probe) CANDIDATE_MODELS)
    by (unfold filter_valid_models; now rewrite probe_all_filter).
  rewrite Heq. split; [reflexivity|]. split; [|split].
  - intros name. rewrite filter_In. unfold usable.
    split; intros [Hin Hu]; (split; [exact Hin|]).
    + intros err Herr. rewrite Herr in Hu. now apply negb_true_iff.
    + destruct (probe name) as [|err]; [reflexivity|].
      now rewrite (Hu err eq_refl).
  - apply NoDup_filter. unfold CANDIDATE_MODELS.
    repeat (constructor; [cbn; intuition discriminate|]). constructor.
  - apply filter_length_le.
Qed.

(* ================================================================= *)
(** ** The selected backend stays on the ring *)

(** What a piece of code that does not touch the backend fields leaves. *)
Lemma ring_kept (s s' : system) :
  valid_models s' = valid_models s ->
  current_model_index s' = current_model_index s ->
  model_name s' = model_name s ->
  (ring_ok s -> ring_ok s') /\ valid_models s' = valid_models s.
Proof. unfold ring_ok. intros -> -> ->. tauto. Qed.

Lemma ring_for_each {A : Type} (body : A -> system -> system * list event) :
  (forall x s, (ring_ok s -> ring_ok (fst (body x s)))
               /\ valid_models (fst (body x s)) = valid_models s) ->
  forall xs s,
    (ring_ok s -> ring_ok (fst (for_each body xs s)))
    /\ valid_models (fst (for_each body xs s)) = valid_models s.
Proof.
  intros Hbody. induction xs as [|x xs IH]; intros s; [now cbn|].
  destruct (for_each_cons body x xs s) as [-> _].
  destruct (Hbody x s) as [R1 M1].
  destruct (IH (fst (body x s))) as [R2 M2].
  split; [tauto | congruence].
Qed.

Lemma ring_dispatch (h w : Z) (clk : gate_clock) (d : detection) (s : system) :
  (ring_ok s -> ring_ok (fst (dispatch h w clk d s)))
  /\ valid_models (fst (dispatch h w clk d s)) = valid_models s.
Proof.
  destruct (dict_get (track_id d) (object_database s)) as [o|] eqn:Hget.
  - rewrite (dispatch_cases h w clk d s o Hget). cbv zeta.
    destruct (gate_open clk d s o); [now apply ring_kept|].
    destruct (_ && _); now apply ring_kept.
  - unfold dispatch. rewrite Hget. now apply ring_kept.
Qed.

Lemma ring_sweep_one (cur : list Z) (k : Z) (s : system) :
  (ring_ok s -> ring_ok (fst (sweep_one cur k s)))
  /\ valid_models (fst (sweep_one cur k s)) = valid_models s.
Proof.
  unfold sweep_one. destruct (existsb _ _); [now apply ring_kept|].
  destruct (dict_get k _) as [o|]; [|now apply ring_kept].
  destruct (_ <? _); now apply ring_kept.
Qed.

Lemma ring_switch (s : system) :
  (0 < List.length (valid_models s))%nat -> ring_ok (switch_next_model s).
Proof.
  intros Hn. unfold ring_ok, switch_next_model. cbn. split; [|reflexivity].
  apply Nat.mod_upper_bound. lia.
Qed.

Lemma ring_attempt (e : attempt_env) (t : task) (r : retry_state) (s : system) :
  (ring_ok s -> ring_ok (snd (fst (attempt e t r s))))
  /\ valid_models (snd (fst (attempt e t r s))) = valid_models s.
Proof.
  rewrite attempt_unfold. cbv zeta.
  destruct (api_answer e) as [text|err]; [now apply ring_kept|].
  destruct (contains "429" err); [|now apply ring_kept].
  cbn [fst snd]. split; [|reflexivity].
  intros [Hi _]. apply ring_switch. cbn. lia.
Qed.

Lemma ring_retry_loop (env : nat -> attempt_env) (t : task) (m : nat) :
  forall fuel r s,
    (ring_ok s -> ring_ok (snd (fst (retry_loop fuel env t m r s))))
    /\ valid_models (snd (fst (retry_loop fuel env t m r s))) = valid_models s.
Proof.
  induction fuel as [|fuel IH]; intros r s; [now cbn|].
  cbn [retry_loop]. destruct (_ <? _)%nat; [|now cbn].
  pose proof (ring_attempt (env (attempts r)) t r s) as [R1 M1].
  destruct (attempt (env (attempts r)) t r s) as [[r1 s1] tr1]. cbn [fst snd] in *.
  destruct (stopped r1); [now cbn|].
  pose proof (IH r1 s1) as [R2 M2].
  destruct (retry_loop fuel env t m r1 s1) as [[r2 s2] tr2]. cbn [fst snd] in *.
  split; [tauto | congruence].
Qed.

Lemma ring_write_back (id : Z) (result : string) (s : system) :
  (ring_ok s -> ring_ok (write_back id result s))
  /\ valid_models (write_back id result s) = valid_models s.
Proof. unfold write_back. destruct (dict_has _ _); now apply ring_kept. Qed.

Lemma ring_publish (emit_ok : bool) (result : string) (s : system) :
  (ring_ok s -> ring_ok (fst (publish_result emit_ok result s)))
  /\ valid_models (fst (publish_result emit_ok result s)) = valid_models s.
Proof.
  unfold publish_result. destruct (_ && _); [|now apply ring_kept].
  destruct emit_ok; now apply ring_kept.
Qed.

Lemma ring_step (a : transition) (s : system) :
  (ring_ok s -> ring_ok (fst (step a s)))
  /\ valid_models (fst (step a s)) = valid_models s.
Proof.
  assert (Hsweep : forall cur s0,
             (ring_ok s0 -> ring_ok (fst (sweep_missing cur s0)))
             /\ valid_models (fst (sweep_missing cur s0)) = valid_models s0).
  { intros cur s0. unfold sweep_missing. apply ring_for_each.
    intros k s1. apply ring_sweep_one. }
  assert (Hdet : forall h w dc s0,
             (ring_ok s0 -> ring_ok (fst (process_detection h w dc s0)))
             /\ valid_models (fst (process_detection h w dc s0)) = valid_models s0).
  { intros h w dc s0. unfold process_detection.
    destruct (ring_dispatch h w (snd dc) (fst dc)
                (with_object_database (track (fst dc) (object_database s0)) s0))
      as [R M].
    split; [intros H; apply R; exact H | exact M]. }
  destruct a; cbn [step].
  - destruct (process_frame_unfold h w dets s) as [-> _].
    destruct (ring_for_each (process_detection h w) (Hdet h w) dets s) as [R1 M1].
    destruct (Hsweep (frame_ids dets) (fst (for_each (process_detection h w) dets s)))
      as [R2 M2].
    split; [tauto | congruence].
  - unfold gemini_worker. destruct (task_queue s) as [|t rest]; [now cbn|].
    destruct (negb _); [now apply ring_kept|].
    destruct (crop_empty _); [now apply ring_kept|].
    pose proof (ring_retry_loop env t (List.length (valid_models s))
                  (List.length (valid_models s)) (mk_retry 0 "辨識失敗" false)
                  (with_task_queue rest s)) as [R1 M1].
    change (retry_loop _ env t _ _ (with_task_queue rest s))
      with (recognise env t (with_task_queue rest s)) in R1, M1.
    destruct (recognise env t (with_task_queue rest s)) as [[r s1] tr1].
    cbn [fst snd] in *.
    destruct (ring_write_back (task_id t) (product_name r) s1) as [R2 M2].
    destruct (ring_publish emit_ok (product_name r)
                (write_back (task_id t) (product_name r) s1)) as [R3 M3].
    destruct (publish_result emit_ok (product_name r) _) as [s3 tr2].
    cbn [fst snd] in *. cbn [valid_models with_task_queue] in M1.
    split; [intros H; apply R3, R2, R1; exact H | congruence].
  - now cbn.
  - apply Hdet.
  - now apply ring_kept.
  - apply ring_dispatch.
  - apply Hsweep.
  - now apply ring_kept.
  - pose proof (ring_retry_loop env t (List.length (valid_models s))
                  (List.length (valid_models s)) (mk_retry 0 "辨識失敗" false) s)
      as [R1 M1].
    change (retry_loop _ env t _ _ s) with (recognise env t s) in R1, M1.
    destruct (recognise env t s) as [[r s1] tr]. now cbn in *.
  - apply ring_write_back.
  - apply ring_publish.
Qed.

(** X11.  In every interleaving the list of valid models stays as [__init__]
    built it, and the selected backend stays one of its entries, with
    [model_name] the name stored at [current_model_index]. *)
Theorem backend_selection_stays_valid (acts : list transition) (s : system) :
  ring_ok s ->
  ring_ok (fst (run acts s)) /\
  valid_models (fst (run acts s)) = valid_models s /\
  In (model_name (fst (run acts s))) (valid_models s).
Proof.
  intros Hok. unfold run.
  destruct (ring_for_each step ring_step acts s) as [R M].
  split; [exact (R Hok)|]. split; [exact M|].
  destruct (R Hok) as [Hi ->]. rewrite M in *. now apply nth_In.
Qed.

(** On the end-to-end scenario, and after a worker pass that meets two
    capacity-exhausted answers. *)
Lemma backend_selection_witness :
  ring_ok (fst (run bottle_story (initial true three_models))) /\
  model_name (fst (run [WorkerPass world_two_429 true] saturated))
  = "gemini-2.5-flash".
Proof.
  split; [|reflexivity].
  apply (backend_selection_stays_valid bottle_story (initial true three_models)).
  split; [cbn; lia | reflexivity].
Defined.

(* ================================================================= *)
(** ** Start-up: __init__ and connect_to_server *)

Lemma first_kept_split {A : Type} (f : A -> bool) (l : list A) (x : A) (rest : list A) :
  filter f l = x :: rest ->
  exists before after,
    l = before ++ x :: after /\ Forall (fun y => f y = false) before.
Proof.
  induction l as [|y l IH]; [discriminate|]. cbn.
  destruct (f y) eqn:E.
  - intros H. injection H as -> _. exists [], l. split; [reflexivity | constructor].
  - intros H. destruct (IH H) as (before & after & -> & Hb).
    exists (y :: before), after. split; [reflexivity | now constructor].
Qed.

(** X2.  [__init__] leaves the program running exactly when some candidate
    passes the probe.  It then selects the first candidate that passes,
    at index 0 of the ring, so the ring is well formed; the registry,
    the queue and the call history are empty; and the socket counts as
    connected exactly when [sio.connect] returned, whether or not the
    registration after it went through.  A retry thread is started
    exactly when the connect or the registration failed. *)
Theorem init_selects_first_valid_model
        (conn_ok reg_ok : bool) (probe : string -> probe_outcome) :
  let a := fst (SmartVisionSystem_init conn_ok reg_ok probe) in
  let tr := snd (SmartVisionSystem_init conn_ok reg_ok probe) in
  (is_running a = true <->
   exists name, In name CANDIDATE_MODELS /\ usable probe name = true) /\
  (is_running a = true ->
   ring_ok (core a) /\ current_model_index (core a) = 0%nat /\
   usable probe (model_name (core a)) = true /\
   exists before after,
     CANDIDATE_MODELS = before ++ model_name (core a) :: after /\
     Forall (fun name => usable probe name = false) before) /\
  valid_models (core a) = filter_valid_models probe /\
  object_database (core a) = [] /\ task_queue (core a) = [] /\
  api_history (core a) = [] /\
  is_connected (core a) = conn_ok /\
  (In SpawnRetry tr <-> conn_ok && reg_ok = false) /\
  (In Register tr <-> conn_ok = true).
Proof.
  cbv zeta. unfold SmartVisionSystem_init.
  assert (Hconn : forall s,
             is_connected s = false ->
             is_connected (fst (connect_to_server conn_ok reg_ok s)) = conn_ok /\
             (In SpawnRetry (snd (connect_to_server conn_ok reg_ok s))
              <-> conn_ok && reg_ok = false) /\
             (In Register (snd (connect_to_server conn_ok reg_ok s))
              <-> conn_ok = true) /\
             object_database (fst (connect_to_server conn_ok reg_ok s))
             = object_database s /\
             task_queue (fst (connect_to_server conn_ok reg_ok s)) = task_queue s /\
             api_history (fst (connect_to_server conn_ok reg_ok s)) = api_history s /\
             valid_models (fst (connect_to_server conn_ok reg_ok s)) = valid_models s).
  { intros s Hs. unfold connect_to_server.
    destruct conn_ok, reg_ok; cbn; rewrite ?Hs; repeat split;
      try discriminate; try tauto; intuition discriminate. }
  specialize (Hconn (mk_system [] [] [] false [] 0 "") eq_refl).
  destruct (connect_to_server conn_ok reg_ok _) as [s1 tr].
  cbn [fst snd object_database task_queue api_history valid_models] in Hconn.
  destruct Hconn as (Hc & Hspawn & Hreg & Hdb & Hq & Hh & Hm).
  unfold filter_valid_models. rewrite probe_all_filter. cbn [app].
  destruct (filter (usable probe) CANDIDATE_MODELS) as [|first others] eqn:Hf;
    cbn [fst snd core is_running is_connected object_database task_queue
         api_history valid_models current_model_index model_name].
  - repeat split; try assumption; try discriminate;
      try solve [apply Hspawn | apply Hreg].
    intros (name & Hin & Hu).
    assert (Hin' : In name (filter (usable probe) CANDIDATE_MODELS))
      by (apply filter_In; tauto).
    rewrite Hf in Hin'. contradiction.
  - assert (Hfirst : In first (filter (usable probe) CANDIDATE_MODELS))
      by (rewrite Hf; now left).
    apply filter_In in Hfirst. destruct Hfirst as [Hin Hu].
    repeat split; try assumption; try reflexivity;
      try solve [apply Hspawn | apply Hreg].
    + intros _. now exists first.
    + cbn. lia.
    + apply (first_kept_split _ _ _ _ Hf).
Qed.

(** The first candidate is missing, like the second; the third is out of
    quota and is selected.  With no candidate the program does not run. *)
Example startup_examples :
  valid_models (core (fst (SmartVisionSystem_init true true probe_two_missing)))
  = ["gemini-2.0-flash-lite-preview-02-05"; "gemini-2.0-flash-lite-preview";
     "gemini-2.5-flash-lite-preview-09-2025"; "gemini-2.5-flash";
     "gemini-flash-latest"; "gemini-1.5-flash"; "gemini-1.5-flash-8b"] /\
  model_name (core (fst (SmartVisionSystem_init true true probe_two_missing)))
  = "gemini-2.0-flash-lite-preview-02-05" /\
  SmartVisionSystem_init false true probe_none
  = (mk_vision (mk_system [] [] [] false [] 0 "") false, [Connect; SpawnRetry]).
Proof. repeat split; reflexivity. Qed.

(* ================================================================= *)
(** ** Reconnecting: retry_connection *)

Lemma retry_connection_connected (script : list retry_env) (s : system) :
  is_connected s = true -> retry_connection script s = (s, [], true).
Proof. intros H. destruct script; cbn; now rewrite H. Qed.

(** X3.  [retry_connection] started while disconnected, against [n] passes
    on which the connect fails: it sleeps 5 seconds before every
    attempt; on the first connect that succeeds it sets [is_connected],
    registers once and returns; it returns without a further attempt as
    soon as [is_running] is cleared; and it changes nothing but
    [is_connected].  Started while connected it returns at once. *)
Theorem retry_connection_until_connected (failures : list retry_env) (s : system) :
  is_connected s = false ->
  forallb fails_to_connect failures = true ->
  (forall e rest,
      running e = true -> connect_ok e = true ->
      retry_connection (failures ++ e :: rest) s
      = (with_is_connected true s,
         failed_attempts (List.length failures) ++ [ConnSleep 5; Connect; Register],
         true)) /\
  (forall e rest,
      running e = false ->
      retry_connection (failures ++ e :: rest) s
      = (s, failed_attempts (List.length failures), true)) /\
  retry_connection failures s = (s, failed_attempts (List.length failures), false) /\
  (forall script s0,
      is_connected s0 = true -> retry_connection script s0 = (s0, [], true)).
Proof.
  intros Hs. induction failures as [|f failures IH]; intros Hfail.
  - cbn [app List.length failed_attempts forallb].
    repeat split.
    + intros e rest Hrun Hconn. cbn [retry_connection].
      rewrite Hs, Hrun, Hconn. cbn [negb].
      rewrite retry_connection_connected by reflexivity. reflexivity.
    + intros e rest Hrun. cbn [retry_connection]. now rewrite Hs, Hrun.
    + cbn. now rewrite Hs.
    + intros script s0. apply retry_connection_connected.
  - cbn [forallb] in Hfail. apply andb_true_iff in Hfail.
    destruct Hfail as [Hf Hrest]. unfold fails_to_connect in Hf.
    apply andb_true_iff in Hf. destruct Hf as [Hrun Hconn].
    apply negb_true_iff in Hconn.
    destruct (IH Hrest) as (I1 & I2 & I3 & I4).
    cbn [app List.length failed_attempts].
    repeat split.
    + intros e rest He Hc. cbn [retry_connection].
      rewrite Hs, Hrun, Hconn. cbn [negb]. now rewrite (I1 e rest He Hc).
    + intros e rest He. cbn [retry_connection].
      rewrite Hs, Hrun, Hconn. cbn [negb]. now rewrite (I2 e rest He).
    + cbn [retry_connection]. rewrite Hs, Hrun, Hconn. cbn [negb]. now rewrite I3.
    + exact I4.
Qed.

(** Two failed attempts, then a connect that succeeds. *)
Lemma retry_connection_witness :
  retry_connection [mk_retry_env true false true; mk_retry_env true false true;
                    mk_retry_env true true true; mk_retry_env true true true]
                   offline
  = (three_objects,
     [ConnSleep 5; Connect; ConnSleep 5; Connect; ConnSleep 5; Connect; Register],
     true).
Proof.
  exact (proj1 (retry_connection_until_connected
                  [mk_retry_env true false true; mk_retry_env true false true]
                  offline eq_refl eq_refl)
           (mk_retry_env true true true) [mk_retry_env true true true]
           eq_refl eq_refl).
Defined.

(* ================================================================= *)
(** ** The capture loop: run *)

Lemma process_frame_connected (h w : Z) (dets : list (detection * gate_clock))
      (s : system) :
  is_connected (fst (process_frame h w dets s)) = is_connected s.
Proof.
  destruct (process_frame_unfold h w dets s) as [-> _].
  unfold sweep_missing. rewrite sweep_loop_connected.
  apply detect_loop_frame.
Qed.

(** The capture loop makes the frame passes of [frames_until_stop]. *)
Lemma capture_loop_passes (script : list capture) :
  forall a,
    core (fst (fst (capture_loop script a)))
    = fst (run (frames_until_stop script) (core a)) /\
    snd (fst (capture_loop script a)) = snd (run (frames_until_stop script) (core a)) /\
    is_connected (core (fst (fst (capture_loop script a)))) = is_connected (core a).
Proof.
  unfold run. induction script as [|c script IH]; intros a; [now cbn|].
  destruct c as [|h w dets key|]; [now cbn | | now cbn].
  cbn [capture_loop frames_until_stop].
  destruct (for_each_cons step (FramePass h w dets)
              (if quit_key key then [] else frames_until_stop script) (core a))
    as [-> ->].
  cbn [step]. pose proof (process_frame_connected h w dets (core a)) as Hc.
  destruct (process_frame h w dets (core a)) as [s1 tr1]. cbn [fst snd] in *.
  destruct (quit_key key).
  - cbn. now rewrite app_nil_r.
  - destruct (IH (mk_vision s1 (is_running a))) as (I1 & I2 & I3).
    destruct (capture_loop script _) as [[a2 tr2] ended]. cbn [fst snd core] in *.
    rewrite I1, I2. repeat split. congruence.
Qed.

(** How the capture loop ends after frames that let it go on. *)
Lemma capture_loop_stop (pre : list capture) :
  forallb goes_on pre = true ->
  forall a rest,
    (snd (capture_loop pre a) = false
     /\ is_running (fst (fst (capture_loop pre a))) = is_running a) /\
    (snd (capture_loop (pre ++ ReadFailed :: rest) a) = true
     /\ is_running (fst (fst (capture_loop (pre ++ ReadFailed :: rest) a)))
        = is_running a) /\
    (snd (capture_loop (pre ++ Interrupted :: rest) a) = true
     /\ is_running (fst (fst (capture_loop (pre ++ Interrupted :: rest) a))) = false) /\
    (forall h w dets key,
        quit_key key = true ->
        snd (capture_loop (pre ++ Captured h w dets key :: rest) a) = true
        /\ is_running (fst (fst (capture_loop (pre ++ Captured h w dets key :: rest) a)))
           = false).
Proof.
  induction pre as [|c pre IH]; intros Hpre a rest.
  - cbn [app capture_loop]. repeat split; try reflexivity;
      destruct (process_frame h w dets (core a)) as [s1 tr1]; now rewrite H.
  - cbn [forallb] in Hpre. apply andb_true_iff in Hpre. destruct Hpre as [Hc Hpre].
    destruct c as [|h0 w0 dets0 key0|]; try discriminate.
    cbn [goes_on] in Hc. apply negb_true_iff in Hc.
    cbn [app capture_loop].
    destruct (process_frame h0 w0 dets0 (core a)) as [s1 tr1]. rewrite Hc.
    destruct (IH Hpre (mk_vision s1 (is_running a)) rest) as (I1 & I2 & I3 & I4).
    cbn [is_running] in *.
    repeat split.
    + destruct (capture_loop pre _) as [[a2 tr2] e]. apply I1.
    + destruct (capture_loop pre _) as [[a2 tr2] e]. apply I1.
    + destruct (capture_loop (pre ++ ReadFailed :: rest) _) as [[a2 tr2] e]. apply I2.
    + destruct (capture_loop (pre ++ ReadFailed :: rest) _) as [[a2 tr2] e]. apply I2.
    + destruct (capture_loop (pre ++ Interrupted :: rest) _) as [[a2 tr2] e]. apply I3.
    + destruct (capture_loop (pre ++ Interrupted :: rest) _) as [[a2 tr2] e]. apply I3.
    + specialize (I4 h w dets key H).
      destruct (capture_loop (pre ++ Captured h w dets key :: rest) _) as [[a2 tr2] e].
      apply I4.
    + specialize (I4 h w dets key H).
      destruct (capture_loop (pre ++ Captured h w dets key :: rest) _) as [[a2 tr2] e].
      apply I4.
Qed.

Lemma frames_until_stop_app (pre tail : list capture) :
  forallb goes_on pre = true ->
  frames_until_stop (pre ++ tail) = frames_until_stop pre ++ frames_until_stop tail.
Proof.
  induction pre as [|c pre IH]; intros Hpre; [reflexivity|].
  cbn [forallb] in Hpre. apply andb_true_iff in Hpre. destruct Hpre as [Hc Hpre].
  destruct c as [|h w dets key|]; try discriminate.
  cbn [goes_on] in Hc. apply negb_true_iff in Hc.
  cbn [app frames_until_stop]. rewrite Hc, (IH Hpre). reflexivity.
Qed.

(** X4.  [run] does nothing when [__init__] cleared [is_running] or when
    neither camera opens.  Otherwise it is a run of the transition
    system made of frame passes only: one pass per captured frame up to
    the first failed read or interrupt, the frame on which the quit key
    is pressed included.  The quit key and an interrupt clear
    [is_running]; a failed read leaves it set.  The frame passes do not
    change [is_connected], so the socket is disconnected at the end
    exactly when it was connected. *)
Theorem run_is_a_run_of_frame_passes
        (cam0 cam1 : bool) (script : list capture) (a : vision) :
  let r := SmartVisionSystem_run cam0 cam1 script a in
  (is_running a = false \/ cam0 || cam1 = false ->
   r = mk_run_result a [] false false false) /\
  (is_running a = true -> cam0 || cam1 = true ->
   camera_opened r = true /\
   core (final r) = fst (run (frames_until_stop script) (core a)) /\
   log r = snd (run (frames_until_stop script) (core a)) /\
   disconnected r = loop_ended r && is_connected (core a) /\
   forall pre rest,
     forallb goes_on pre = true ->
     (script = pre -> loop_ended r = false /\ is_running (final r) = true) /\
     (script = pre ++ ReadFailed :: rest ->
      loop_ended r = true /\ is_running (final r) = true /\
      frames_until_stop script = frames_until_stop pre) /\
     (script = pre ++ Interrupted :: rest ->
      loop_ended r = true /\ is_running (final r) = false /\
      frames_until_stop script = frames_until_stop pre) /\
     (forall h w dets key,
         quit_key key = true ->
         script = pre ++ Captured h w dets key :: rest ->
         loop_ended r = true /\ is_running (final r) = false /\
         frames_until_stop script = frames_until_stop pre ++ [FramePass h w dets])).
Proof.
  cbv zeta. unfold SmartVisionSystem_run. split.
  - intros [-> | ->]; [reflexivity|]. now destruct (negb (is_running a)).
  - intros Hrun Hcam. rewrite Hrun, Hcam. cbn [negb].
    destruct (capture_loop_passes script a) as (Hcore & Hlog & Hconn).
    destruct (capture_loop script a) as [[a1 tr] ended] eqn:Hloop.
    cbn [fst snd final log camera_opened loop_ended disconnected] in *.
    rewrite Hconn.
    split; [reflexivity|]. split; [exact Hcore|]. split; [exact Hlog|].
    split; [reflexivity|].
    intros pre rest Hpre.
    destruct (capture_loop_stop pre Hpre a rest) as ((E1 & R1) & (E2 & R2) & (E3 & R3) & Q).
    split; [|split; [|split]].
    + intros Heq. subst script. rewrite Hloop in E1, R1. cbn [fst snd] in E1, R1.
      split; [exact E1 | congruence].
    + intros Heq. subst script. rewrite Hloop in E2, R2. cbn [fst snd] in E2, R2.
      split; [exact E2|]. split; [congruence|].
      rewrite frames_until_stop_app by exact Hpre. cbn. apply app_nil_r.
    + intros Heq. subst script. rewrite Hloop in E3, R3. cbn [fst snd] in E3, R3.
      split; [exact E3|]. split; [exact R3|].
      rewrite frames_until_stop_app by exact Hpre. cbn. apply app_nil_r.
    + intros h w dets key Hkey Heq. subst script.
      destruct (Q h w dets key Hkey) as [E4 R4].
      rewrite Hloop in E4, R4. cbn [fst snd] in E4, R4.
      split; [exact E4|]. split; [exact R4|].
      rewrite frames_until_stop_app by exact Hpre. cbn. now rewrite Hkey.
Qed.

(** Three frames, "q" pressed on the second: two frame passes, the
    program stops running and disconnects. *)
Example run_until_quit :
  let script := [Captured 480 640 [(bottle_box, clock_at 5)] (-1);
                 Captured 480 640 [(bottle_box, clock_at 5)] 113;
                 Captured 480 640 [] (-1)] in
  let r := SmartVisionSystem_run true false script (mk_vision three_objects true) in
  is_running (final r) = false /\ loop_ended r = true /\ disconnected r = true /\
  seen_frames 7 (core (final r)) = 22 /\
  puts (log r) = 1%nat.
Proof. cbv zeta. repeat split; reflexivity. Qed.

(** X5.  The quit test compares the low byte of the key code only: a code
    quits exactly when it is 113 modulo 256.  [cv2.waitKey] returns -1
    when no key was pressed, which does not quit. *)
Theorem quit_key_low_byte (key : Z) :
  (quit_key key = true <-> key mod 256 = 113) /\
  quit_key (-1) = false /\
  (forall k, quit_key (113 + 256 * k) = true).
Proof.
  assert (H : forall k, Z.land k 255 = k mod 256).
  { intros k. change 255 with (Z.ones 8). now rewrite Z.land_ones by lia. }
  unfold quit_key. split; [|split].
  - rewrite H. apply Z.eqb_eq.
  - reflexivity.
  - intros k. rewrite H. apply Z.eqb_eq.
    replace (113 + 256 * k) with (113 + k * 256) by lia.
    rewrite Z.mod_add by lia. reflexivity.
Qed.

(* ================================================================= *)
(** ** Nothing is sent while the socket is down *)

Lemma emits_app (a b : list event) : emits (a ++ b) = (emits a + emits b)%nat.
Proof. unfold emits. now rewrite filter_app, length_app. Qed.

Lemma silent_for_each {A : Type} (body : A -> system -> system * list event) :
  (forall x s, is_connected s = false ->
               emits (snd (body x s)) = 0%nat /\ is_connected (fst (body x s)) = false) ->
  forall xs s,
    is_connected s = false ->
    emits (snd (for_each body xs s)) = 0%nat
    /\ is_connected (fst (for_each body xs s)) = false.
Proof.
  intros Hbody. induction xs as [|x xs IH]; intros s Hs; [now cbn|].
  destruct (for_each_cons body x xs s) as [-> ->].
  destruct (Hbody x s Hs) as [E1 C1].
  destruct (IH (fst (body x s)) C1) as [E2 C2].
  rewrite emits_app, E1, E2. now split.
Qed.

Lemma silent_dispatch (h w : Z) (clk : gate_clock) (d : detection) (s : system) :
  emits (snd (dispatch h w clk d s)) = 0%nat /\
  is_connected (fst (dispatch h w clk d s)) = is_connected s.
Proof.
  destruct (dict_get (track_id d) (object_database s)) as [o|] eqn:Hget.
  - rewrite (dispatch_cases h w clk d s o Hget). cbv zeta.
    destruct (gate_open clk d s o); [now cbn|].
    destruct (_ && _); now cbn.
  - unfold dispatch. rewrite Hget. now cbn.
Qed.

Lemma silent_detection (h w : Z) (dc : detection * gate_clock) (s : system) :
  is_connected s = false ->
  emits (snd (process_detection h w dc s)) = 0%nat /\
  is_connected (fst (process_detection h w dc s)) = false.
Proof.
  intros Hs. unfold process_detection.
  destruct (silent_dispatch h w (snd dc) (fst dc)
              (with_object_database (track (fst dc) (object_database s)) s)) as [E C].
  split; [exact E | now rewrite C].
Qed.

Lemma silent_sweep_one (cur : list Z) (k : Z) (s : system) :
  is_connected s = false ->
  emits (snd (sweep_one cur k s)) = 0%nat /\
  is_connected (fst (sweep_one cur k s)) = false.
Proof.
  intros Hs. destruct (sweep_one_frame cur k s) as (-> & _).
  split; [|exact Hs].
  rewrite sweep_one_events, Hs. unfold sweep_events, removal_notice.
  destruct (existsb _ _); [reflexivity|].
  destruct (dict_get _ _) as [o|]; [|reflexivity].
  destruct (_ <? _); reflexivity.
Qed.

Lemma silent_recognise (env : nat -> attempt_env) (t : task) (s : system) :
  emits (snd (recognise env t s)) = 0%nat /\
  is_connected (snd (fst (recognise env t s))) = is_connected s.
Proof.
  destruct (recognise_frame env t s) as (_ & _ & Hc & _ & Hev).
  split; [|exact Hc]. now apply (Forall_loop_event_counts 0).
Qed.

Lemma silent_publish (emit_ok : bool) (result : string) (s : system) :
  is_connected s = false ->
  emits (snd (publish_result emit_ok result s)) = 0%nat /\
  is_connected (fst (publish_result emit_ok result s)) = false.
Proof. intros Hs. unfold publish_result. rewrite Hs. now cbn. Qed.

Lemma connected_write_back (id : Z) (result : string) (s : system) :
  is_connected (write_back id result s) = is_connected s.
Proof. unfold write_back. now destruct (dict_has _ _). Qed.

Lemma silent_step (a : transition) (s : system) :
  local_step a = true -> is_connected s = false ->
  emits (snd (step a s)) = 0%nat /\ is_connected (fst (step a s)) = false.
Proof.
  intros Ha Hs. destruct a; try discriminate; cbn [step].
  - destruct (process_frame_unfold h w dets s) as [-> ->].
    destruct (silent_for_each (process_detection h w) (silent_detection h w) dets s Hs)
      as [E1 C1].
    destruct (silent_for_each (sweep_one (frame_ids dets))
                (silent_sweep_one (frame_ids dets))
                (dict_keys (object_database
                              (fst (for_each (process_detection h w) dets s))))
                _ C1) as [E2 C2].
    unfold sweep_missing. rewrite emits_app, E1, E2. now split.
  - unfold gemini_worker. destruct (task_queue s) as [|t rest]; [now cbn|].
    destruct (negb _); [now cbn|].
    destruct (crop_empty _); [now cbn|].
    destruct (silent_recognise env t (with_task_queue rest s)) as [E1 C1].
    destruct (recognise env t (with_task_queue rest s)) as [[r s1] tr1].
    cbn [fst snd] in *.
    destruct (silent_publish emit_ok (product_name r)
                (write_back (task_id t) (product_name r) s1)) as [E2 C2].
    { rewrite connected_write_back, C1. exact Hs. }
    destruct (publish_result emit_ok (product_name r) _) as [s3 tr2].
    cbn [fst snd] in *. rewrite emits_app, E1, E2. now split.
  - now apply silent_detection.
  - now cbn.
  - destruct (silent_dispatch h w (snd dc) (fst dc) s) as [E C].
    split; [exact E | now rewrite C].
  - unfold sweep_missing. apply silent_for_each; [|exact Hs].
    apply silent_sweep_one.
  - now cbn.
  - destruct (silent_recognise env t s) as [E C].
    destruct (recognise env t s) as [[r s1] tr]. cbn [fst snd] in *.
    split; [exact E | now rewrite C].
  - cbn. split; [reflexivity|]. now rewrite connected_write_back.
  - now apply silent_publish.
Qed.

(** X15.  While the socket is down the frame thread and the worker send
    nothing, in any interleaving, and neither of them brings the socket
    up: a label recognised meanwhile is stored but not announced, and an
    object evicted meanwhile is not reported as removed. *)
Theorem nothing_sent_while_disconnected (acts : list transition) (s : system) :
  is_connected s = false ->
  forallb local_step acts = true ->
  emits (snd (run acts s)) = 0%nat /\ is_connected (fst (run acts s)) = false.
Proof.
  unfold run. revert s. induction acts as [|a acts IH]; intros s Hs Hacts; [now cbn|].
  cbn [forallb] in Hacts. apply andb_true_iff in Hacts. destruct Hacts as [Ha Hacts].
  destruct (for_each_cons step a acts s) as [-> ->].
  destruct (silent_step a s Ha Hs) as [E1 C1].
  destruct (IH (fst (step a s)) C1 Hacts) as [E2 C2].
  rewrite emits_app, E1, E2. now split.
Qed.

(** The end-to-end scenario with the socket down: the label is stored,
    the object is evicted, nothing is sent. *)
Lemma nothing_sent_witness :
  emits (snd (run bottle_story (initial false three_models))) = 0%nat /\
  is_connected (fst (run bottle_story (initial false three_models))) = false /\
  emits (snd (run bottle_story (initial true three_models))) = 2%nat.
Proof.
  destruct (nothing_sent_while_disconnected bottle_story (initial false three_models)
              eq_refl eq_refl) as [E C].
  split; [exact E|]. split; [exact C | reflexivity].
Defined.

(* ================================================================= *)
(** ** A resync repeats what the worker announced *)





(* ================================================================= *)
(** ** What a queued task carries *)

Lemma puts_none (tr : list event) (t : task) :
  puts tr = 0%nat -> ~ In (Enqueued t) tr.
Proof.
  unfold puts. intros H Hin.
  assert (Hf : In (Enqueued t)
                  (filter (fun e => match e with Enqueued _ => true | _ => false end) tr))
    by (apply filter_In; now split).
  destruct (filter _ tr); [contradiction | discriminate].
Qed.

Lemma detect_loop_puts_from (h w : Z) (dets : list (detection * gate_clock)) (t : task) :
  forall s,
    In (Enqueued t) (snd (for_each (process_detection h w) dets s)) ->
    exists d clk,
      In (d, clk) dets /\ large_enough d = true /\
      t = mk_task (track_id d) (crop_of h w d) (yolo_raw_name d).
Proof.
  induction dets as [|[d clk] dets IH]; intros s Hin; [contradiction|].
  destruct (for_each_cons (process_detection h w) (d, clk) dets s) as [_ Hev].
  rewrite Hev in Hin. apply in_app_or in Hin. destruct Hin as [Hin | Hin].
  - rewrite process_detection_events in Hin.
    destruct (gate_open _ _ _ _) eqn:Hgate; [|contradiction].
    destruct Hin as [Hin | []]. injection Hin as <-.
    unfold gate_open in Hgate. apply andb_true_iff in Hgate.
    exists d, clk. split; [now left|]. split; [apply Hgate | reflexivity].
  - destruct (IH _ Hin) as (d' & clk' & Hd & Hrest).
    exists d', clk'. split; [now right | exact Hrest].
Qed.

(** X9.  Every task a frame pass queues comes from a detection of that
    frame whose box is more than 80 pixels wide and high; it carries the
    detection's track id and coarse name, and the part of the frame the
    slice of line 325 cuts.  The size test is made on the box, not on
    what is cut.  While the lower and right bounds of the box are not
    negative, the slice cuts the box clamped to the frame, which is the
    box itself when it lies inside the frame.  A negative bound is
    counted from the far edge: for a box above the frame the slice cuts
    the rows from the top down to [h + y2], and likewise for a box to
    the left of it. *)
Theorem queued_task_from_large_detection
        (h w : Z) (dets : list (detection * gate_clock)) (s : system) (t : task) :
  0 <= h -> 0 <= w ->
  In (Enqueued t) (snd (process_frame h w dets s)) ->
  exists d clk,
    In (d, clk) dets /\
    task_id t = track_id d /\ current_yolo_name t = yolo_raw_name d /\
    80 < x2 d - x1 d /\ 80 < y2 d - y1 d /\
    cropped_img t = crop_of h w d /\
    (0 <= y2 d -> 0 <= x2 d -> cropped_img t = clamped_box h w d) /\
    (0 <= x1 d -> x2 d <= w -> 0 <= y1 d -> y2 d <= h ->
     cropped_img t = mk_crop (y1 d) (y2 d) (x1 d) (x2 d)
     /\ crop_empty (cropped_img t) = false) /\
    (y2 d < 0 ->
     row_from (cropped_img t) = 0 /\ row_to (cropped_img t) = Z.max 0 (h + y2 d)) /\
    (x2 d < 0 ->
     col_from (cropped_img t) = 0 /\ col_to (cropped_img t) = Z.max 0 (w + x2 d)).
Proof.
  intros Hh Hw Hin. destruct (process_frame_unfold h w dets s) as [_ Hev].
  rewrite Hev in Hin. apply in_app_or in Hin. destruct Hin as [Hin | Hin].
  - destruct (detect_loop_puts_from h w dets t s Hin) as (d & clk & Hd & Hlarge & ->).
    unfold large_enough in Hlarge. apply andb_true_iff in Hlarge.
    rewrite !Z.ltb_lt in Hlarge. destruct Hlarge as [Hwide Hhigh].
    exists d, clk. cbn [task_id current_yolo_name cropped_img].
    split; [exact Hd|]. split; [reflexivity|]. split; [reflexivity|].
    split; [exact Hwide|]. split; [exact Hhigh|]. split; [reflexivity|].
    unfold crop_of, clamped_box, crop_empty, slice_bound.
    cbn [row_from row_to col_from col_to].
    split; [|split; [|split]].
    + intros Hy Hx.
      destruct (Z.ltb_spec (Z.max 0 (y1 d)) 0), (Z.ltb_spec (Z.min h (y2 d)) 0),
        (Z.ltb_spec (Z.max 0 (x1 d)) 0), (Z.ltb_spec (Z.min w (x2 d)) 0);
        try lia; f_equal; lia.
    + intros Hx1 Hx2 Hy1 Hy2.
      destruct (Z.ltb_spec (Z.max 0 (y1 d)) 0), (Z.ltb_spec (Z.min h (y2 d)) 0),
        (Z.ltb_spec (Z.max 0 (x1 d)) 0), (Z.ltb_spec (Z.min w (x2 d)) 0);
        try lia.
      split; [f_equal; lia|].
      apply orb_false_iff. split; apply Z.leb_gt; lia.
    + intros Hy.
      destruct (Z.ltb_spec (Z.max 0 (y1 d)) 0), (Z.ltb_spec (Z.min h (y2 d)) 0); lia.
    + intros Hx.
      destruct (Z.ltb_spec (Z.max 0 (x1 d)) 0), (Z.ltb_spec (Z.min w (x2 d)) 0); lia.
  - exfalso. revert Hin. apply puts_none. unfold sweep_missing.
    apply sweep_loop_puts.
Qed.

(** Object 7 becomes stable: its task carries the 100 x 100 box.  A box
    above a 480-row frame passes the size test as well, and its task
    carries 380 rows from the top of the frame; a box to the right of
    the frame gives a task with no column, on which the worker's pass
    ends at the conversion. *)
Lemma queued_task_witness :
  (exists d clk,
      In (d, clk) [(bottle_box, clock_at 5)] /\
      task_id bottle_task = track_id d /\
      cropped_img (mk_task 7 (mk_crop 100 200 100 200) "bottle")
      = mk_crop (y1 d) (y2 d) (x1 d) (x2 d)) /\
  queued_tasks (snd (process_frame 480 640 [(above_frame_box, clock_at 5)] three_objects))
  = [mk_task 7 (mk_crop 0 380 100 200) "bottle"] /\
  queued_tasks (snd (process_frame 480 640 [(off_frame_box, clock_at 5)] three_objects))
  = [mk_task 7 (mk_crop 100 200 640 640) "bottle"] /\
  gemini_worker world_coffee true
    (with_task_queue [mk_task 7 (mk_crop 100 200 640 640) "bottle"] saturated)
  = (with_task_queue [] saturated, []).
Proof.
  split; [|repeat split; reflexivity].
  destruct (queued_task_from_large_detection 480 640 [(bottle_box, clock_at 5)]
              three_objects (mk_task 7 (mk_crop 100 200 100 200) "bottle"))
    as (d & clk & Hd & Hid & _ & _ & _ & _ & _ & Hcrop & _); try lia.
  - cbn. tauto.
  - exists d, clk. split; [exact Hd|]. split; [exact Hid|].
    destruct Hd as [Hd | []]. injection Hd as <- <-.
    apply Hcrop; cbn; lia.
Defined.

(* ================================================================= *)
(** ** The race at the dispatch gate *)

(** The two halves of the gate, run one after the other, are the gate. *)
Lemma gate_in_two_steps (h w : Z) (clk : gate_clock) (d : detection) (s : system)
      (obj_data : object_data) :
  dict_get (track_id d) (object_database s) = Some obj_data ->
  dispatch h w clk d s
  = if snd (gate_test clk d s obj_data)
    then gate_write h w clk d (fst (gate_test clk d s obj_data))
    else (fst (gate_test clk d s obj_data), []).
Proof.
  intros Hget. unfold dispatch, gate_test, gate_write. rewrite Hget.
  destruct (_ && _); [|reflexivity].
  unfold check_api_quota. cbn [fst snd].
  destruct (_ <? MAX_RPM); [|reflexivity].
  destruct (large_enough d); reflexivity.
Qed.

(** The four steps of the worker, run one after the other, are a pass of
    [gemini_worker]. *)
Lemma worker_in_four_steps (env : nat -> attempt_env) (emit_ok : bool)
      (s : system) (f : frame_pc) (t : task) (rest : list task) :
  task_queue s = t :: rest ->
  dict_has (task_id t) (object_database s) = true ->
  crop_empty (cropped_img t) = false ->
  fine_run [WorkerGet; WorkerCall env; WorkerStore; WorkerSend emit_ok]
           (mk_threads s f Waiting)
  = Some (mk_threads (fst (gemini_worker env emit_ok s)) f Waiting,
          snd (gemini_worker env emit_ok s)).
Proof.
  intros Hq Hhas Hcrop. unfold gemini_worker.
  cbn [fine_run fine_step shared frame_at worker_at].
  rewrite Hq. cbn [with_task_queue object_database]. rewrite Hhas, Hcrop.
  cbn [negb orb shared frame_at worker_at].
  fold (with_task_queue rest s).
  destruct (recognise env t (with_task_queue rest s)) as [[r s1] tr1].
  cbn [shared frame_at worker_at].
  destruct (publish_result emit_ok (product_name r) _) as [s3 tr2].
  cbn [fst snd]. now rewrite !app_nil_r.
Qed.

(** Every step of the finer system but the gate write leaves an entry it
    does not evict in the registry, with a status that has not moved
    back. *)
Lemma fine_step_forward_but_gate_write
      (a : fine_transition) (st st' : threads) (tr : list event)
      (id : Z) (o : object_data) :
  fine_step a st = Some (st', tr) -> a <> GateWrite ->
  ~ In (Evicted id) tr ->
  dict_get id (object_database (shared st)) = Some o ->
  exists o', dict_get id (object_database (shared st')) = Some o'
             /\ (rank (status o) <= rank (status o'))%nat.
Proof.
  intros Hstep Hne Hnot Hget.
  assert (Hsame : forall s', object_database s' = object_database (shared st) ->
                             exists o', dict_get id (object_database s') = Some o'
                                        /\ (rank (status o) <= rank (status o'))%nat).
  { intros s' ->. exists o. split; [exact Hget | lia]. }
  destruct a; [| | contradiction | | | | |]; unfold fine_step in Hstep.
  - destruct (frame_at st); [|discriminate].
    destruct (frame_step a); [|discriminate].
    pose proof (forward_step id a (shared st)) as Hf.
    destruct (step a (shared st)) as [s1 tr1]. injection Hstep as <- <-.
    exact (proj1 (Hf Hnot) o Hget).
  - destruct dc as [d clk]. destruct (frame_at st); [|discriminate].
    destruct (dict_get (track_id d) _) as [obj|]; [|discriminate].
    unfold gate_test, check_api_quota in Hstep.
    destruct (_ && _); injection Hstep as <- <-; now apply Hsame.
  - destruct (frame_at st), (worker_at st); try discriminate;
      (destruct (task_queue (shared st)) as [|t rest];
       [injection Hstep as <- <-; now apply Hsame|]);
      destruct (_ || _); injection Hstep as <- <-; now apply Hsame.
  - destruct (frame_at st), (worker_at st); try discriminate;
      pose proof (recognise_frame env t (shared st)) as (Hdb & _);
      destruct (recognise env t (shared st)) as [[r s1] tr1];
      injection Hstep as <- <-; now apply Hsame.
  - destruct (frame_at st), (worker_at st); try discriminate;
      injection Hstep as <- <-; cbn [shared];
      rewrite write_back_get; destruct (id =? task_id t);
      rewrite ?Hget; eexists; (split; [reflexivity|]); cbn;
      destruct (status o); cbn; lia.
  - destruct (frame_at st), (worker_at st); try discriminate;
      pose proof (publish_result_frame emit_ok result (shared st)) as (Hdb & _);
      destruct (publish_result emit_ok result (shared st)) as [s1 tr1];
      injection Hstep as <- <-; now apply Hsame.
  - destruct (frame_at st), (worker_at st); injection Hstep as <- <-;
      now apply Hsame.
Qed.


(** C1: the code on a schedule of its two threads.  Object 7 is
    dispatched; while the backend is being called it leaves the view, is
    evicted, and comes back under the same track id, so a new entry for
    7 is pending when the frame thread tests it at line 315.  Before the
    frame thread takes the lock for its write, the worker stores the
    answer to the first task: its own check of lines 238-239 finds id 7
    registered, and the entry is done.  The write of lines 320-322 does
    not test again: the entry goes back from done to sending, a second
    task is queued for it, and the same label is announced twice.  The
    gate write sets sending whatever status it finds; every other step
    moves no status back ([fine_step_forward_but_gate_write]).  A worker
    pass on a registered id with a crop that is not empty leaves its
    entry done, with the label the retry loop returned. *)
Theorem status_moves_back_at_gate_write :
  status_after 7 back_and_tested started = Some pending /\
  option_map (fun st => frame_at (fst st)) (fine_run back_and_tested started)
  = Some (GatePassed 480 640 bottle_box (clock_at 9)) /\
  option_map (fun st => worker_at (fst st)) (fine_run back_and_tested started)
  = Some (Holding (mk_task 7 (mk_crop 100 200 100 200) "bottle")) /\
  status_after 7 answer_stored started = Some done /\
  status_after 7 written_after_answer started = Some sending /\
  (rank sending < rank done)%nat /\
  enqueues 7 (log_of written_after_answer started) = 2%nat /\
  filter (fun e => match e with Emit _ => true | _ => false end)
         (log_of served_twice started)
  = [Emit (detect_payload "CoffeeCo"); Emit (detect_payload "CoffeeCo")] /\
  (forall h w clk d s o,
      dict_get (track_id d) (object_database s) = Some o ->
      dict_get (track_id d) (object_database (fst (gate_write h w clk d s)))
      = Some (dispatched o)
      /\ status (dispatched o) = sending
      /\ snd (gate_write h w clk d s)
         = [Enqueued (mk_task (track_id d) (crop_of h w d) (yolo_raw_name d))]) /\
  (forall env emit_ok s t rest o,
      task_queue s = t :: rest ->
      dict_get (task_id t) (object_database s) = Some o ->
      crop_empty (cropped_img t) = false ->
      let result := product_name (fst (fst (recognise env t (with_task_queue rest s)))) in
      dict_get (task_id t) (object_database (fst (gemini_worker env emit_ok s)))
      = Some (finished result o)
      /\ status (finished result o) = done
      /\ gemini_name (finished result o) = result).
Proof.
  split; [vm_compute; reflexivity|]. split; [vm_compute; reflexivity|].
  split; [vm_compute; reflexivity|]. split; [vm_compute; reflexivity|].
  split; [vm_compute; reflexivity|]. split; [cbn; lia|].
  split; [vm_compute; reflexivity|]. split; [vm_compute; reflexivity|].
  split.
  - intros h w clk d s o Hget. unfold gate_write.
    cbn [fst snd object_database with_task_queue with_object_database
         with_api_history].
    rewrite dict_get_modify_same, Hget. repeat split.
  - intros env emit_ok s t rest o Hq Hget Hcrop. cbv zeta.
    unfold gemini_worker. rewrite Hq. unfold dict_has.
    cbn [with_task_queue object_database]. rewrite Hget, Hcrop. cbn [negb].
    fold (with_task_queue rest s).
    destruct (recognise_frame env t (with_task_queue rest s)) as (Hdb & _).
    destruct (recognise env t (with_task_queue rest s)) as [[r s1] tr1].
    cbn [fst snd] in *.
    destruct (publish_result_frame emit_ok (product_name r)
                (write_back (task_id t) (product_name r) s1)) as (Hdb2 & _).
    destruct (publish_result emit_ok (product_name r) _) as [s3 tr2].
    cbn [fst snd] in *. rewrite Hdb2, write_back_get, Z.eqb_refl, Hdb.
    cbn [object_database with_task_queue]. rewrite Hget. repeat split.
Qed.
